(** * Splatfacto density control: a shallow embedding of [run.py]

    The development follows the Python source function by function.
    Tensors are kept by their leading (primitive) axis, Python exceptions are
    values of [exn], and every method of [SplatfactoModel] is a computation
    in a state-and-exception monad whose state survives a raise, as the
    attributes of a Python object do. *)

From stdpp Require Import base option list strings gmap.
From Stdlib Require Import ZArith QArith Floats.SpecFloat.

Local Open Scope Z_scope.

(** ** Exceptions and the method monad *)

Inductive exn : Set :=
  | AssertionError
  | AttributeError
  | IndexError
  | KeyError
  | RuntimeError
  | TypeError
  | ValueError
  | ZeroDivisionError
  | Unmodelled.

Inductive result (A : Type) : Type :=
  | Ok (a : A)
  | Raise (e : exn).
Arguments Ok {A} a.
Arguments Raise {A} e.

(** A method body: it reads and updates the object state [S] and either
    returns or raises; the updates made before a raise are kept. *)
Definition M (S A : Type) : Type := S → S * result A.

#[global] Instance M_ret {S} : MRet (M S) := λ A a s, (s, Ok a).

#[global] Instance M_bind {S} : MBind (M S) := λ A B k c s,
  match c s with
  | (s', Ok a) => k a s'
  | (s', Raise e) => (s', Raise e)
  end.

Definition raise {S A} (e : exn) : M S A := λ s, (s, Raise e).
Definition get {S} : M S S := λ s, (s, Ok s).
Definition gets {S A} (f : S → A) : M S A := λ s, (s, Ok (f s)).
Definition modify {S} (f : S → S) : M S unit := λ s, (f s, Ok tt).

(** Python [assert]. *)
Definition assert {S} (b : bool) : M S unit :=
  if b then mret tt else raise AssertionError.

(** A pure step that may raise. *)
Definition lift {S A} (r : result A) : M S A := λ s, (s, r).

(** Reading an attribute that may be unset ([AttributeError]). *)
Definition attr {S A} (f : S → option A) : M S A :=
  λ s, match f s with Some a => (s, Ok a) | None => (s, Raise AttributeError) end.

(** Runs a computation on a component of a larger state. *)
Definition zoom {S T A} (rd : T → S) (wr : S → T → T) (c : M S A) : M T A :=
  λ t, let '(s', r) := c (rd t) in (wr s' t, r).

Definition r_bind {A B} (r : result A) (k : A → result B) : result B :=
  match r with Ok a => k a | Raise e => Raise e end.

(** ** The scalar interface of the numeric backend

    [run.py] computes on torch tensors; the arithmetic itself (rounding,
    [exp], [log], ...) lives in the backend.  The model is written against
    this interface.  [Fcompare] is the IEEE comparison: [None] when the
    operands are unordered (a NaN is involved). *)

Class Scalar (F : Type) : Type := {
  Flit : Q → F;             (* a Python float literal *)
  F_of_Z : Z → F;           (* a Python int or an integer tensor entry *)
  Fnan : F;
  Fadd : F → F → F;
  Fsub : F → F → F;
  Fmul : F → F → F;
  Fdiv : F → F → F;
  Fneg : F → F;
  Fabs : F → F;
  Fsqrt : F → F;
  Fexp : F → F;
  Flog : F → F;
  Fsigmoid : F → F;
  Flogit : F → F;
  Fcompare : F → F → option comparison
}.

(** Rows of the parameter tensors. *)
Definition vec3 (F : Type) : Type := F * F * F.
Definition quat (F : Type) : Type := F * F * F * F.
(** A 3x3 matrix, by rows. *)
Definition mat3 (F : Type) : Type := vec3 F * vec3 F * vec3 F.
(** An image or any other [H x W x C] tensor, by rows and pixels. *)
Definition image (F : Type) : Type := list (list (list F)).

Section Torch.
Context {F : Type} `{!Scalar F}.

Definition Fzero : F := Flit 0.
Definition Fone : F := Flit 1.

(** The relational operators of torch on scalars; all are false on NaN. *)
Definition Fgt (a b : F) : bool :=
  match Fcompare a b with Some Gt => true | _ => false end.
Definition Flt (a b : F) : bool :=
  match Fcompare a b with Some Lt => true | _ => false end.
Definition Fle (a b : F) : bool :=
  match Fcompare a b with Some Lt | Some Eq => true | _ => false end.

(** [torch.maximum] and [torch.minimum]: a NaN operand gives NaN. *)
Definition Fmaximum (a b : F) : F :=
  match Fcompare a b with
  | Some Lt => b
  | Some _ => a
  | None => Fnan
  end.
Definition Fminimum (a b : F) : F :=
  match Fcompare a b with
  | Some Gt => b
  | Some _ => a
  | None => Fnan
  end.

(** [torch.clamp(x, max=c)]: the bound replaces [x] when [x > c]. *)
Definition clamp_max (c x : F) : F := if Fgt x c then c else x.
(** [torch.clamp(x, min=c)]. *)
Definition clamp_min (c x : F) : F := if Flt x c then c else x.

Definition zero3 : vec3 F := (Fzero, Fzero, Fzero).
Definition zero4 : quat F := (Fzero, Fzero, Fzero, Fzero).

Definition map3 (f : F → F) (v : vec3 F) : vec3 F :=
  let '(a, b, c) := v in (f a, f b, f c).
Definition zip3 (f : F → F → F) (u v : vec3 F) : vec3 F :=
  let '(a, b, c) := u in let '(x, y, z) := v in (f a x, f b y, f c z).

(** [.max(dim=-1).values] / [.amax(dim=-1)] and [.amin(dim=-1)] of a row. *)
Definition amax3 (v : vec3 F) : F :=
  let '(a, b, c) := v in Fmaximum (Fmaximum a b) c.
Definition amin3 (v : vec3 F) : F :=
  let '(a, b, c) := v in Fminimum (Fminimum a b) c.

(** [.norm(dim=-1)]. *)
Definition norm2 (p : F * F) : F :=
  let '(a, b) := p in Fsqrt (Fadd (Fmul a a) (Fmul b b)).
Definition norm4 (q : quat F) : F :=
  let '(a, b, c, d) := q in
  Fsqrt (Fadd (Fadd (Fadd (Fmul a a) (Fmul b b)) (Fmul c c)) (Fmul d d)).

(** [.mean()] over all entries; the mean of no entries is [0/0]. *)
Definition tsum (l : list F) : F := fold_left Fadd l Fzero.
Definition tmean (l : list F) : F :=
  Fdiv (tsum l) (F_of_Z (Z.of_nat (length l))).
End Torch.

(** ** Boolean masks, broadcasting and indexing

    A tensor of per-primitive rows is the list of its rows.  A mask of [n]
    flags is [MaskN]; [.squeeze()] turns a mask of exactly one flag into a
    0-dimensional tensor, [Mask0]. *)

Inductive bmask : Type :=
  | Mask0 (b : bool)
  | MaskN (l : list bool).

Definition squeeze (l : list bool) : bmask :=
  match l with
  | [b] => Mask0 b
  | _ => MaskN l
  end.

Definition mask_bits (m : bmask) : list bool :=
  match m with
  | Mask0 b => [b]
  | MaskN l => l
  end.

(** [m.sum()]. *)
Definition count_true (l : list bool) : nat := length (List.filter id l).
Definition mask_sum (m : bmask) : nat := count_true (mask_bits m).

(** [~m]. *)
Definition mask_not (m : bmask) : bmask :=
  match m with
  | Mask0 b => Mask0 (negb b)
  | MaskN l => MaskN (map negb l)
  end.

(** Elementwise binary operation on two 1-d tensors with torch
    broadcasting: equal lengths, or one side of length one. *)
Definition broadcast2 {A B C} (f : A → B → C) (l : list A) (l' : list B)
    : result (list C) :=
  if decide (length l = length l') then Ok (zip_with f l l')
  else match l, l' with
       | [a], _ => Ok (map (f a) l')
       | _, [b] => Ok (map (λ a, f a b) l)
       | _, _ => Raise RuntimeError
       end.

(** [a | b], [a & b] (out of place). *)
Definition mask_op (op : bool → bool → bool) (a b : bmask) : result bmask :=
  match a, b with
  | Mask0 x, Mask0 y => Ok (Mask0 (op x y))
  | Mask0 x, MaskN l => Ok (MaskN (map (op x) l))
  | MaskN l, Mask0 y => Ok (MaskN (map (λ x, op x y) l))
  | MaskN l, MaskN l' => r_bind (broadcast2 op l l') (λ r, Ok (MaskN r))
  end.

(** [a |= b], [a &= b]: the result is written into [a], so the broadcast
    shape has to be the shape of [a]. *)
Definition mask_op_inplace (op : bool → bool → bool) (a b : bmask)
    : result bmask :=
  match a, b with
  | Mask0 x, Mask0 y => Ok (Mask0 (op x y))
  | Mask0 _, MaskN _ => Raise RuntimeError
  | MaskN l, Mask0 y => Ok (MaskN (map (λ x, op x y) l))
  | MaskN l, MaskN l' =>
      if decide (length l = length l') then Ok (MaskN (zip_with op l l'))
      else match l' with
           | [y] => Ok (MaskN (map (λ x, op x y) l))
           | _ => Raise RuntimeError
           end
  end.

(** The rows of [t] whose flag is set, in their order. *)
Fixpoint select {A} (m : list bool) (t : list A) : list A :=
  match m, t with
  | b :: m', x :: t' => if b then x :: select m' t' else select m' t'
  | _, _ => []
  end.

(** [t[m]] for a boolean mask.  A 1-d mask has to have the length of the
    leading axis.  A 0-d mask puts a new leading axis in front of [t]: no
    entry when the flag is off, and one entry holding all of [t] when it is
    on.  The latter is not a tensor of rows, and the run is outside this
    embedding ([Unmodelled] is not a Python exception). *)
Definition index_mask {A} (t : list A) (m : bmask) : result (list A) :=
  match m with
  | MaskN l =>
      if decide (length l = length t) then Ok (select l t) else Raise IndexError
  | Mask0 b => if b then Raise Unmodelled else Ok []
  end.

(** [t[m] = f(t[m])]: the selected rows are rewritten in place. *)
Fixpoint update_where {A} (f : A → A) (m : list bool) (t : list A) : list A :=
  match m, t with
  | b :: m', x :: t' => (if b then f x else x) :: update_where f m' t'
  | _, _ => t
  end.

(** [torch.where(m)[0]]. *)
Fixpoint where_true (i : nat) (m : list bool) : list nat :=
  match m with
  | [] => []
  | b :: m' => if b then i :: where_true (S i) m' else where_true (S i) m'
  end.

(** [t.repeat(n, 1, ...)]: the whole block of rows, [n] times over. *)
Definition repeat_rows {A} (n : nat) (t : list A) : list A :=
  concat (replicate n t).

(** [t[idcs]] for a tensor of indices. *)
Definition index_rows {A} (t : list A) (idcs : list nat) : result (list A) :=
  match mapM (λ i, t !! i) idcs with
  | Some rows => Ok rows
  | None => Raise IndexError
  end.

(** ** Configuration ([SplatfactoModelConfig]) *)

Inductive background_mode : Set := bg_random | bg_black | bg_white.
Inductive rasterize_mode_t : Set := classic | antialiased.

Module Config.
Record t (F : Type) : Type := mk {
  warmup_length : Z;
  refine_every : Z;
  resolution_schedule : Z;
  background_color : background_mode;
  num_downscales : Z;
  cull_alpha_thresh : F;
  cull_scale_thresh : F;
  continue_cull_post_densification : bool;
  reset_alpha_every : Z;
  densify_grad_thresh : F;
  densify_size_thresh : F;
  n_split_samples : Z;
  sh_degree_interval : Z;
  cull_screen_size : F;
  split_screen_size : F;
  stop_screen_size_at : Z;
  random_init : bool;
  num_random : Z;
  ssim_lambda : F;
  stop_split_at : Z;
  sh_degree : Z;
  use_scale_regularization : bool;
  max_gauss_ratio : F;
  output_depth_during_training : bool;
  rasterize_mode : rasterize_mode_t
}.
Arguments mk {F}.
Arguments warmup_length {F}.
Arguments refine_every {F}.
Arguments resolution_schedule {F}.
Arguments background_color {F}.
Arguments num_downscales {F}.
Arguments cull_alpha_thresh {F}.
Arguments cull_scale_thresh {F}.
Arguments continue_cull_post_densification {F}.
Arguments reset_alpha_every {F}.
Arguments densify_grad_thresh {F}.
Arguments densify_size_thresh {F}.
Arguments n_split_samples {F}.
Arguments sh_degree_interval {F}.
Arguments cull_screen_size {F}.
Arguments split_screen_size {F}.
Arguments stop_screen_size_at {F}.
Arguments random_init {F}.
Arguments num_random {F}.
Arguments ssim_lambda {F}.
Arguments stop_split_at {F}.
Arguments sh_degree {F}.
Arguments use_scale_regularization {F}.
Arguments max_gauss_ratio {F}.
Arguments output_depth_during_training {F}.
Arguments rasterize_mode {F}.

(** The defaults of the dataclass. *)
Definition default {F} `{!Scalar F} : t F := {|
  warmup_length := 500;
  refine_every := 100;
  resolution_schedule := 3000;
  background_color := bg_random;
  num_downscales := 2;
  cull_alpha_thresh := Flit (1 # 10);
  cull_scale_thresh := Flit (5 # 10);
  continue_cull_post_densification := true;
  reset_alpha_every := 30;
  densify_grad_thresh := Flit (2 # 10000);
  densify_size_thresh := Flit (1 # 100);
  n_split_samples := 2;
  sh_degree_interval := 1000;
  cull_screen_size := Flit (15 # 100);
  split_screen_size := Flit (5 # 100);
  stop_screen_size_at := 4000;
  random_init := false;
  num_random := 10000;
  ssim_lambda := Flit (2 # 10);
  stop_split_at := 15000;
  sh_degree := 3;
  use_scale_regularization := false;
  max_gauss_ratio := Flit 10;
  output_depth_during_training := false;
  rasterize_mode := classic
|}.
End Config.

(** ** The primitive store and the training state *)

(** A tensor of any shape, as a state dict holds it: row-major data. *)
Record tensor (F : Type) : Type := mkTensor {
  shape : list nat;
  data : list F
}.
Arguments mkTensor {F}.
Arguments shape {F}.
Arguments data {F}.

(** [self.gauss_params]: the six parameter tensors.  [means], [scales] and
    [features_dc] are [N x 3], [quats] is [N x 4], [features_rest] is
    [N x (B-1) x 3] and [opacities] is [N x 1]. *)
Record GaussParams (F : Type) : Type := mkGaussParams {
  means : list (vec3 F);
  scales : list (vec3 F);
  quats : list (quat F);
  features_dc : list (vec3 F);
  features_rest : list (list (vec3 F));
  opacities : list F
}.
Arguments mkGaussParams {F}.
Arguments means {F}.
Arguments scales {F}.
Arguments quats {F}.
Arguments features_dc {F}.
Arguments features_rest {F}.
Arguments opacities {F}.

Definition set_means {F} (v : list (vec3 F)) (g : GaussParams F) : GaussParams F :=
  mkGaussParams v (scales g) (quats g) (features_dc g) (features_rest g) (opacities g).
Definition set_scales {F} (v : list (vec3 F)) (g : GaussParams F) : GaussParams F :=
  mkGaussParams (means g) v (quats g) (features_dc g) (features_rest g) (opacities g).
Definition set_quats {F} (v : list (quat F)) (g : GaussParams F) : GaussParams F :=
  mkGaussParams (means g) (scales g) v (features_dc g) (features_rest g) (opacities g).
Definition set_features_dc {F} (v : list (vec3 F)) (g : GaussParams F) : GaussParams F :=
  mkGaussParams (means g) (scales g) (quats g) v (features_rest g) (opacities g).
Definition set_features_rest {F} (v : list (list (vec3 F))) (g : GaussParams F) : GaussParams F :=
  mkGaussParams (means g) (scales g) (quats g) (features_dc g) v (opacities g).
Definition set_opacities {F} (v : list F) (g : GaussParams F) : GaussParams F :=
  mkGaussParams (means g) (scales g) (quats g) (features_dc g) (features_rest g) v.

(** [self.xys] with its [.grad], which the backward pass fills. *)
Record Xys (F : Type) : Type := mkXys {
  xys_data : list (F * F);
  xys_grad : option (list (F * F))
}.
Arguments mkXys {F}.
Arguments xys_data {F}.
Arguments xys_grad {F}.

(** The attributes of a [SplatfactoModel]. *)
Record Model (F : Type) : Type := mkModel {
  config : Config.t F;
  num_train_data : Z;
  gauss_params : GaussParams F;
  rest_bases : nat (* features_rest.shape[1] *);
  child_state : gmap string (tensor F) (* state of the child modules *);
  step : Z;
  training : bool;
  background_color : vec3 F;
  xys_grad_norm : option (list F);
  vis_counts : option (list F);
  max_2Dsize : option (list F);
  radii : option (list Z);
  xys : option (Xys F);
  last_size : option (Z * Z);
  rng : nat (* draws taken from the torch random generator *)
}.
Arguments mkModel {F}.
Arguments config {F}.
Arguments num_train_data {F}.
Arguments gauss_params {F}.
Arguments rest_bases {F}.
Arguments child_state {F}.
Arguments step {F}.
Arguments training {F}.
Arguments background_color {F}.
Arguments xys_grad_norm {F}.
Arguments vis_counts {F}.
Arguments max_2Dsize {F}.
Arguments radii {F}.
Arguments xys {F}.
Arguments last_size {F}.
Arguments rng {F}.

Definition set_gauss_params {F} (v : GaussParams F) (s : Model F) : Model F :=
  mkModel (config s) (num_train_data s) v (rest_bases s) (child_state s) (step s) (training s) (background_color s) (xys_grad_norm s) (vis_counts s) (max_2Dsize s) (radii s) (xys s) (last_size s) (rng s).
Definition set_child_state {F} (v : gmap string (tensor F)) (s : Model F) : Model F :=
  mkModel (config s) (num_train_data s) (gauss_params s) (rest_bases s) v (step s) (training s) (background_color s) (xys_grad_norm s) (vis_counts s) (max_2Dsize s) (radii s) (xys s) (last_size s) (rng s).
Definition set_step {F} (v : Z) (s : Model F) : Model F :=
  mkModel (config s) (num_train_data s) (gauss_params s) (rest_bases s) (child_state s) v (training s) (background_color s) (xys_grad_norm s) (vis_counts s) (max_2Dsize s) (radii s) (xys s) (last_size s) (rng s).
Definition set_training {F} (v : bool) (s : Model F) : Model F :=
  mkModel (config s) (num_train_data s) (gauss_params s) (rest_bases s) (child_state s) (step s) v (background_color s) (xys_grad_norm s) (vis_counts s) (max_2Dsize s) (radii s) (xys s) (last_size s) (rng s).
Definition set_background_color {F} (v : vec3 F) (s : Model F) : Model F :=
  mkModel (config s) (num_train_data s) (gauss_params s) (rest_bases s) (child_state s) (step s) (training s) v (xys_grad_norm s) (vis_counts s) (max_2Dsize s) (radii s) (xys s) (last_size s) (rng s).
Definition set_xys_grad_norm {F} (v : option (list F)) (s : Model F) : Model F :=
  mkModel (config s) (num_train_data s) (gauss_params s) (rest_bases s) (child_state s) (step s) (training s) (background_color s) v (vis_counts s) (max_2Dsize s) (radii s) (xys s) (last_size s) (rng s).
Definition set_vis_counts {F} (v : option (list F)) (s : Model F) : Model F :=
  mkModel (config s) (num_train_data s) (gauss_params s) (rest_bases s) (child_state s) (step s) (training s) (background_color s) (xys_grad_norm s) v (max_2Dsize s) (radii s) (xys s) (last_size s) (rng s).
Definition set_max_2Dsize {F} (v : option (list F)) (s : Model F) : Model F :=
  mkModel (config s) (num_train_data s) (gauss_params s) (rest_bases s) (child_state s) (step s) (training s) (background_color s) (xys_grad_norm s) (vis_counts s) v (radii s) (xys s) (last_size s) (rng s).
Definition set_radii {F} (v : option (list Z)) (s : Model F) : Model F :=
  mkModel (config s) (num_train_data s) (gauss_params s) (rest_bases s) (child_state s) (step s) (training s) (background_color s) (xys_grad_norm s) (vis_counts s) (max_2Dsize s) v (xys s) (last_size s) (rng s).
Definition set_xys {F} (v : option (Xys F)) (s : Model F) : Model F :=
  mkModel (config s) (num_train_data s) (gauss_params s) (rest_bases s) (child_state s) (step s) (training s) (background_color s) (xys_grad_norm s) (vis_counts s) (max_2Dsize s) (radii s) v (last_size s) (rng s).
Definition set_last_size {F} (v : option (Z * Z)) (s : Model F) : Model F :=
  mkModel (config s) (num_train_data s) (gauss_params s) (rest_bases s) (child_state s) (step s) (training s) (background_color s) (xys_grad_norm s) (vis_counts s) (max_2Dsize s) (radii s) (xys s) v (rng s).
Definition set_rng {F} (v : nat) (s : Model F) : Model F :=
  mkModel (config s) (num_train_data s) (gauss_params s) (rest_bases s) (child_state s) (step s) (training s) (background_color s) (xys_grad_norm s) (vis_counts s) (max_2Dsize s) (radii s) (xys s) (last_size s) v.

(** The state [torch.optim.Adam] keeps for its parameter: the two moment
    tensors, once a step has been taken. *)
Record Adam (A : Type) : Type := mkAdam {
  exp_avg : list A;
  exp_avg_sq : list A
}.
Arguments mkAdam {A}.
Arguments exp_avg {A}.
Arguments exp_avg_sq {A}.

(** [optimizers]: one optimizer per parameter group; a group may be absent
    from the dict, and [param_state] may not have its moments yet. *)
Record Optimizers (F : Type) : Type := mkOptimizers {
  opt_means : option (option (Adam (vec3 F)));
  opt_scales : option (option (Adam (vec3 F)));
  opt_quats : option (option (Adam (quat F)));
  opt_features_dc : option (option (Adam (vec3 F)));
  opt_features_rest : option (option (Adam (list (vec3 F))));
  opt_opacities : option (option (Adam F))
}.
Arguments mkOptimizers {F}.
Arguments opt_means {F}.
Arguments opt_scales {F}.
Arguments opt_quats {F}.
Arguments opt_features_dc {F}.
Arguments opt_features_rest {F}.
Arguments opt_opacities {F}.

(** What a training callback works on: the model and the optimizers dict
    it is handed. *)
Record Trainer (F : Type) : Type := mkTrainer {
  model : Model F;
  optimizers : Optimizers F
}.
Arguments mkTrainer {F}.
Arguments model {F}.
Arguments optimizers {F}.

Definition set_model {F} (m : Model F) (t : Trainer F) : Trainer F :=
  mkTrainer m (optimizers t).
Definition set_optimizers {F} (o : Optimizers F) (t : Trainer F) : Trainer F :=
  mkTrainer (model t) o.

(** ** External collaborators

    The kernels of the gsplat package, the image metrics, the random
    generator and the libraries the construction calls are not part of
    [run.py]; the model takes them as given. *)

Class Env (F : Type) : Type := {
  (* the draws of torch.randn and of torch.rand, by position in the stream *)
  randn : nat → F;
  rand : nat → F;
  quat_to_rotmat : quat F → mat3 F;
  quat_scale_to_covar_perci : list (quat F) → list (vec3 F) → list (list F);
  (* means, covars, viewmat, K, W, H -> radii, means2d, depths, conics *)
  projection : list (vec3 F) → list (list F) → list (list F) → list (list F)
               → Z → Z → list Z * list (F * F) * list F * list (list F);
  spherical_harmonics : Z → list (vec3 F) → list (list (vec3 F)) → list (vec3 F);
  (* means2d, radii, depths, tile_size, tile_width, tile_height
     -> tiles_per_gauss, isect_ids, gauss_ids *)
  isect_tiles : list (F * F) → list Z → list F → Z → Z → Z
                → list Z * list Z * list Z;
  isect_offset_encode : list Z → Z → Z → Z → list Z;
  (* means2d, conics, feats, opacities, W, H, tile_size, offsets, ids
     -> number of channels of the render, render, alpha *)
  rasterize_to_pixels : list (F * F) → list (list F) → list (list F) → list F
                        → Z → Z → Z → list Z → list Z
                        → nat * image F * image F;
  ssim : image F → image F → F;
  (* torchvision.transforms.functional.resize, on an H x W x C image *)
  resize : image F → Z → Z → image F
}.

(** *** What the construction takes from outside

    [populate_modules] calls the trigonometric functions of torch,
    [torch.logit] with its [eps], [num_sh_bases] of gsplat and the
    nearest-neighbour search of scikit-learn, and it creates the three
    metric modules; none of them is part of [run.py]. *)

Class Library (F : Type) : Type := {
  Fsin : F → F;
  Fcos : F → F;
  Fpi : F;                          (* math.pi *)
  Flogit_eps : Q → F → F;           (* torch.logit(x, eps=...) *)
  num_sh_bases : Z → Z;
  (* NearestNeighbors(n_neighbors=k, algorithm="auto", metric="euclidean")
     .fit(x).kneighbors(x): the distances and the indices, or the raise *)
  kneighbors : nat → list (vec3 F) → result (list (list F) * list (list nat));
  (* the state of psnr, ssim and lpips as they are created *)
  metrics_state : gmap string (tensor F)
}.

Definition set_opt_means {F} v (o : Optimizers F) : Optimizers F :=
  mkOptimizers v (opt_scales o) (opt_quats o) (opt_features_dc o)
    (opt_features_rest o) (opt_opacities o).
Definition set_opt_scales {F} v (o : Optimizers F) : Optimizers F :=
  mkOptimizers (opt_means o) v (opt_quats o) (opt_features_dc o)
    (opt_features_rest o) (opt_opacities o).
Definition set_opt_quats {F} v (o : Optimizers F) : Optimizers F :=
  mkOptimizers (opt_means o) (opt_scales o) v (opt_features_dc o)
    (opt_features_rest o) (opt_opacities o).
Definition set_opt_features_dc {F} v (o : Optimizers F) : Optimizers F :=
  mkOptimizers (opt_means o) (opt_scales o) (opt_quats o) v
    (opt_features_rest o) (opt_opacities o).
Definition set_opt_features_rest {F} v (o : Optimizers F) : Optimizers F :=
  mkOptimizers (opt_means o) (opt_scales o) (opt_quats o) (opt_features_dc o)
    v (opt_opacities o).
Definition set_opt_opacities {F} v (o : Optimizers F) : Optimizers F :=
  mkOptimizers (opt_means o) (opt_scales o) (opt_quats o) (opt_features_dc o)
    (opt_features_rest o) v.

(** Python [a % b] and [a // b] on ints. *)
Definition py_mod {S} (a b : Z) : M S Z :=
  if b =? 0 then raise ZeroDivisionError else mret (a `mod` b).
Definition py_floordiv {S} (a b : Z) : M S Z :=
  if b =? 0 then raise ZeroDivisionError else mret (a `div` b).

(** ** The methods of [SplatfactoModel] *)

Section Splatfacto.
Context {F : Type} `{!Scalar F} `{!Env F}.

Definition num_points (s : Model F) : nat := length (means (gauss_params s)).

(** [for name, param in self.gauss_params.items(): self.gauss_params[name] = f(param)]:
    the six tensors are replaced one after the other, in the order of the
    dict; a raise leaves the earlier ones replaced. *)
Definition set_param {A} (setf : list A → GaussParams F → GaussParams F)
    (r : result (list A)) : M (Model F) unit :=
  v ← lift r; modify (λ s, set_gauss_params (setf v (gauss_params s)) s).

Definition for_each_param (f : ∀ A, list A → result (list A)) : M (Model F) unit :=
  g ← gets gauss_params;
  set_param set_means (f _ (means g));;
  set_param set_scales (f _ (scales g));;
  set_param set_quats (f _ (quats g));;
  set_param set_features_dc (f _ (features_dc g));;
  set_param set_features_rest (f _ (features_rest g));;
  set_param set_opacities (f _ (opacities g)).

(** [{name: f(param) for name, param in self.gauss_params.items()}]. *)
Definition gather (f : ∀ A, list A → result (list A)) (g : GaussParams F)
    : result (GaussParams F) :=
  r_bind (f _ (means g)) (λ m,
  r_bind (f _ (scales g)) (λ sc,
  r_bind (f _ (quats g)) (λ q,
  r_bind (f _ (features_dc g)) (λ dc,
  r_bind (f _ (features_rest g)) (λ fr,
  r_bind (f _ (opacities g)) (λ o,
  Ok (mkGaussParams m sc q dc fr o))))))).

(** *** Statistics ([after_train], lines 410-438) *)

(** [t[m] = f(u[m], t[m])] for three tensors over the same leading axis. *)
Fixpoint update_where2 {A B} (f : B → A → A) (m : list bool) (u : list B)
    (t : list A) : list A :=
  match m, u, t with
  | b :: m', y :: u', x :: t' =>
      (if b then f y x else x) :: update_where2 f m' u' t'
  | _, _, _ => t
  end.

Definition check_index {S A} (m : list bool) (t : list A) : M S unit :=
  if decide (length m = length t) then mret tt else raise IndexError.

Definition after_train (step_ : Z) : M (Model F) unit :=
  s ← get;
  assert (step_ =? step s);;
  (* to save some training time, we no longer need to update those stats post refinement *)
  if Config.stop_split_at (config s) <=? step s then mret tt
  else
    rad ← attr radii;
    let visible_mask := map (λ r, 0 <? r) rad in
    x ← attr xys;
    g ← match xys_grad x with Some g => mret g | None => raise AssertionError end;
    let grads := map norm2 g in
    match xys_grad_norm s with
    | None =>
        modify (set_xys_grad_norm (Some grads));;
        modify (set_vis_counts (Some (map (λ _, Fone) grads)))
    | Some acc =>
        vc ← match vis_counts s with Some vc => mret vc | None => raise AssertionError end;
        check_index visible_mask vc;;
        modify (set_vis_counts
                  (Some (update_where (λ v, Fadd v (F_of_Z 1)) visible_mask vc)));;
        check_index visible_mask grads;;
        check_index visible_mask acc;;
        modify (set_xys_grad_norm
                  (Some (update_where2 Fadd visible_mask grads acc)))
    end;;
    (* update the max screen size, as a ratio of number of pixels *)
    m2 ← match max_2Dsize s with
         | Some m2 => mret m2
         | None =>
             let z := map (λ _, Fzero) rad in
             modify (set_max_2Dsize (Some z));; mret z
         end;
    check_index visible_mask m2;;
    '(h, w) ← attr last_size;
    let ratio := map (λ r, Fdiv (F_of_Z r) (F_of_Z (Z.max h w))) rad in
    modify (set_max_2Dsize
              (Some (update_where2 (λ r m, Fmaximum m r) visible_mask ratio m2))).

Definition set_background (background : vec3 F) : M (Model F) unit :=
  modify (set_background_color background).

(** *** Culling ([cull_gaussians], lines 560-596) *)

(** Lines 575-585: the size criterion, [toobigs]. *)
Definition too_big : M (Model F) bmask :=
  s ← get;
  let c := config s in
  (* cull huge ones *)
  let toobigs :=
    squeeze (map (λ sc, Fgt (amax3 (map3 Fexp sc)) (Config.cull_scale_thresh c))
                 (scales (gauss_params s))) in
  if step s <? Config.stop_screen_size_at c then
    (* cull big screen space *)
    m2 ← match max_2Dsize s with
         | Some m2 => mret m2
         | None => raise AssertionError
         end;
    lift (mask_op orb toobigs
            (squeeze (map (λ x, Fgt x (Config.cull_screen_size c)) m2)))
  else mret toobigs.

(** Lines 567-587: the mask [culls]. *)
Definition cull_mask (extra_cull_mask : option bmask) : M (Model F) bmask :=
  s ← get;
  let c := config s in
  (* cull transparent ones *)
  let culls :=
    squeeze (map (λ o, Flt (Fsigmoid o) (Config.cull_alpha_thresh c))
                 (opacities (gauss_params s))) in
  culls ← match extra_cull_mask with
          | Some e => lift (mask_op orb culls e)
          | None => mret culls
          end;
  if Config.refine_every c * Config.reset_alpha_every c <? step s then
    toobigs ← too_big;
    lift (mask_op orb culls toobigs)
  else mret culls.

Definition cull_gaussians (extra_cull_mask : option bmask) : M (Model F) bmask :=
  culls ← cull_mask extra_cull_mask;
  for_each_param (λ A param, index_mask param (mask_not culls));;
  mret culls.

(** *** Splitting and duplicating (lines 598-657) *)

(** [size_fac = 1.6]. *)
Definition size_fac : F := Flit (16 # 10).

Definition shrink (sc : vec3 F) : vec3 F :=
  map3 (λ x, Flog (Fdiv (Fexp x) size_fac)) sc.

Definition normalize4 (q : quat F) : quat F :=
  let n := norm4 q in
  let '(a, b, c, d) := q in (Fdiv a n, Fdiv b n, Fdiv c n, Fdiv d n).

Definition dot3 (u v : vec3 F) : F :=
  let '(a, b, c) := u in
  let '(x, y, z) := v in
  Fadd (Fadd (Fmul a x) (Fmul b y)) (Fmul c z).

(** One batch entry of [torch.bmm(rots, v[..., None])]. *)
Definition matvec (r : mat3 F) (v : vec3 F) : vec3 F :=
  let '(r0, r1, r2) := r in (dot3 r0 v, dot3 r1 v, dot3 r2 v).

(** [torch.randn((n, 3))] at position [pos] of the random stream. *)
Definition randn3 (pos n : nat) : list (vec3 F) :=
  map (λ i, (randn (pos + 3 * i), randn (pos + 3 * i + 1), randn (pos + 3 * i + 2))%nat)
      (seq 0 n).

(** [t.repeat(samps, 1)]; a negative count raises. *)
Definition repeat_samps {S A} (samps : Z) (t : list A) : M S (list A) :=
  if samps <? 0 then raise RuntimeError
  else mret (repeat_rows (Z.to_nat samps) t).

Definition split_gaussians (split_mask : bmask) (samps : Z)
    : M (Model F) (GaussParams F) :=
  s ← get;
  let g := gauss_params s in
  let n_splits := mask_sum split_mask in
  (* the f-string of the print divides by self.num_points *)
  (if decide (num_points s = 0%nat) then raise ZeroDivisionError else mret tt);;
  (* torch.randn((samps * n_splits, 3)) *)
  (if samps * Z.of_nat n_splits <? 0 then raise RuntimeError else mret tt);;
  let centered_samples := randn3 (rng s) (Z.to_nat (samps * Z.of_nat n_splits)) in
  modify (set_rng (rng s + 3 * Z.to_nat (samps * Z.of_nat n_splits))%nat);;
  (* self.scales[split_mask].repeat(samps, 1): under a 0-d mask the indexed
     tensor has three axes and repeat is given two counts *)
  bits ← match split_mask with
         | MaskN l => check_index l (scales g);; mret l
         | Mask0 _ => raise RuntimeError
         end;
  sel_scales ← repeat_samps samps (select bits (scales g));
  let scaled_samples := zip_with (zip3 Fmul) (map (map3 Fexp) sel_scales) centered_samples in
  check_index bits (quats g);;
  let quats_n := map normalize4 (select bits (quats g)) in
  q_rep ← repeat_samps samps quats_n;
  let rots := map quat_to_rotmat q_rep in
  let rotated_samples := zip_with matvec rots scaled_samples in
  check_index bits (means g);;
  m_rep ← repeat_samps samps (select bits (means g));
  let new_means := zip_with (zip3 Fadd) rotated_samples m_rep in
  (* step 2, sample new colors *)
  check_index bits (features_dc g);;
  new_features_dc ← repeat_samps samps (select bits (features_dc g));
  check_index bits (features_rest g);;
  new_features_rest ← repeat_samps samps (select bits (features_rest g));
  (* step 3, sample new opacities *)
  check_index bits (opacities g);;
  new_opacities ← repeat_samps samps (select bits (opacities g));
  (* step 4, sample new scales *)
  new_scales ← repeat_samps samps (map shrink (select bits (scales g)));
  modify (λ s, set_gauss_params
                 (set_scales (update_where shrink bits (scales (gauss_params s)))
                             (gauss_params s)) s);;
  (* step 5, sample new quats *)
  new_quats ← repeat_samps samps (select bits (quats g));
  mret {| means := new_means;
          scales := new_scales;
          quats := new_quats;
          features_dc := new_features_dc;
          features_rest := new_features_rest;
          opacities := new_opacities |}.

Definition dup_gaussians (dup_mask : bmask) : M (Model F) (GaussParams F) :=
  s ← get;
  (* the f-string of the print divides by self.num_points *)
  (if decide (num_points s = 0%nat) then raise ZeroDivisionError else mret tt);;
  lift (gather (λ A param, index_mask param dup_mask) (gauss_params s)).

(** *** Optimizer surgery (lines 348-408) *)

(** Runs [c] on the state of [optimizers[group]]; a missing group is a
    [KeyError]. *)
Definition in_optim {A} (getf : Optimizers F → option (option (Adam A)))
    (setf : option (option (Adam A)) → Optimizers F → Optimizers F)
    (c : M (option (Adam A)) unit) : M (Trainer F) unit :=
  λ t, match getf (optimizers t) with
       | None => (t, Raise KeyError)
       | Some o =>
           let '(o', r) := c o in
           (set_optimizers (setf (Some o') (optimizers t)) t, r)
       end.

(** [torch.zeros_like(t[idcs]).repeat(n, 1, ...)]. *)
Definition zero_rows {A} (zl : A → A) (t : list A) (idcs : list nat) (n : Z)
    : result (list A) :=
  r_bind (index_rows t idcs) (λ rows,
    if n <? 0 then Raise RuntimeError
    else Ok (repeat_rows (Z.to_nat n) (map zl rows))).

Definition dup_in_optim {A} (zl : A → A) (dup_mask : list nat) (n : Z)
    : M (option (Adam A)) unit :=
  st ← get;
  match st with
  | None => mret tt
  | Some a =>
      z ← lift (zero_rows zl (exp_avg a) dup_mask n);
      modify (λ _, Some (mkAdam (exp_avg a ++ z) (exp_avg_sq a)));;
      z' ← lift (zero_rows zl (exp_avg_sq a) dup_mask n);
      modify (λ _, Some (mkAdam (exp_avg a ++ z) (exp_avg_sq a ++ z')))
  end.

Definition zeros_rest (r : list (vec3 F)) : list (vec3 F) := map (λ _, zero3) r.

(** The groups are visited in the order of [get_gaussian_param_groups]. *)
Definition dup_in_all_optim (dup_mask : list nat) (n : Z) : M (Trainer F) unit :=
  in_optim opt_means set_opt_means (dup_in_optim (λ _, zero3) dup_mask n);;
  in_optim opt_scales set_opt_scales (dup_in_optim (λ _, zero3) dup_mask n);;
  in_optim opt_quats set_opt_quats (dup_in_optim (λ _, zero4) dup_mask n);;
  in_optim opt_features_dc set_opt_features_dc (dup_in_optim (λ _, zero3) dup_mask n);;
  in_optim opt_features_rest set_opt_features_rest (dup_in_optim zeros_rest dup_mask n);;
  in_optim opt_opacities set_opt_opacities (dup_in_optim (λ _, Fzero) dup_mask n).

Definition remove_from_optim {A} (deleted_mask : bmask) : M (option (Adam A)) unit :=
  st ← get;
  match st with
  | None => mret tt
  | Some a =>
      e ← lift (index_mask (exp_avg a) (mask_not deleted_mask));
      modify (λ _, Some (mkAdam e (exp_avg_sq a)));;
      e' ← lift (index_mask (exp_avg_sq a) (mask_not deleted_mask));
      modify (λ _, Some (mkAdam e e'))
  end.

Definition remove_from_all_optim (deleted_mask : bmask) : M (Trainer F) unit :=
  in_optim opt_means set_opt_means (remove_from_optim deleted_mask);;
  in_optim opt_scales set_opt_scales (remove_from_optim deleted_mask);;
  in_optim opt_quats set_opt_quats (remove_from_optim deleted_mask);;
  in_optim opt_features_dc set_opt_features_dc (remove_from_optim deleted_mask);;
  in_optim opt_features_rest set_opt_features_rest (remove_from_optim deleted_mask);;
  in_optim opt_opacities set_opt_opacities (remove_from_optim deleted_mask).

(** *** Refinement ([refinement_after], lines 444-558) *)

Definition on_model {A} (c : M (Model F) A) : M (Trainer F) A :=
  zoom model set_model c.

Definition cat_params (a b c : GaussParams F) : GaussParams F :=
  {| means := means a ++ means b ++ means c;
     scales := scales a ++ scales b ++ scales c;
     quats := quats a ++ quats b ++ quats c;
     features_dc := features_dc a ++ features_dc b ++ features_dc c;
     features_rest := features_rest a ++ features_rest b ++ features_rest c;
     opacities := opacities a ++ opacities b ++ opacities c |}.

(** Lines 461-471: [high_grads]. *)
Definition high_grads_mask : M (Model F) bmask :=
  s ← get;
  '(gn, vc) ← match xys_grad_norm s, vis_counts s, max_2Dsize s with
              | Some gn, Some vc, Some _ => mret (gn, vc)
              | _, _, _ => raise AssertionError
              end;
  q ← lift (broadcast2 Fdiv gn vc);
  '(h, w) ← attr last_size;
  let avg_grad_norm :=
    map (λ x, Fmul (Fmul x (Flit (1 # 2))) (F_of_Z (Z.max h w))) q in
  mret (squeeze (map (λ a, Fgt a (Config.densify_grad_thresh (config s)))
                     avg_grad_norm)).

(** Lines 472-480: [splits]. *)
Definition split_mask (high_grads : bmask) : M (Model F) bmask :=
  s ← get;
  let c := config s in
  let splits :=
    squeeze (map (λ sc, Fgt (amax3 (map3 Fexp sc)) (Config.densify_size_thresh c))
                 (scales (gauss_params s))) in
  splits ←
    (if step s <? Config.stop_screen_size_at c then
       m2 ← match max_2Dsize s with
            | Some m2 => mret m2
            | None => raise TypeError
            end;
       lift (mask_op_inplace orb splits
               (squeeze (map (λ x, Fgt x (Config.split_screen_size c)) m2)))
     else mret splits);
  lift (mask_op_inplace andb splits high_grads).

(** Lines 484-488: [dups]. *)
Definition dup_mask (high_grads : bmask) : M (Model F) bmask :=
  s ← get;
  let dups :=
    squeeze (map (λ sc, Fle (amax3 (map3 Fexp sc))
                            (Config.densify_size_thresh (config s)))
                 (scales (gauss_params s))) in
  lift (mask_op_inplace andb dups high_grads).

(** Lines 461-506: the two masks, the new primitives and their append to
    the store and to [max_2Dsize].  Returns [(splits, dups)]. *)
Definition grow : M (Model F) (bmask * bmask) :=
  high_grads ← high_grads_mask;
  splits ← split_mask high_grads;
  nsamps ← gets (λ s, Config.n_split_samples (config s));
  split_params ← split_gaussians splits nsamps;
  dups ← dup_mask high_grads;
  dup_params ← dup_gaussians dups;
  modify (λ s, set_gauss_params
                 (cat_params (gauss_params s) split_params dup_params) s);;
  (* append zeros to the max_2Dsize tensor *)
  m2 ← gets max_2Dsize;
  m2 ← match m2 with Some m2 => mret m2 | None => raise TypeError end;
  modify (set_max_2Dsize
            (Some (m2 ++ map (λ _, Fzero) (scales split_params)
                      ++ map (λ _, Fzero) (scales dup_params))));;
  mret (splits, dups).

(** Lines 459-526: the densification branch; returns [deleted_mask]. *)
Definition densify : M (Trainer F) bmask :=
  nsamps ← gets (λ t, Config.n_split_samples (config (model t)));
  '(splits, dups) ← on_model grow;
  dup_in_all_optim (where_true 0 (mask_bits splits)) nsamps;;
  dup_in_all_optim (where_true 0 (mask_bits dups)) 1;;
  (* After a guassian is split into two new gaussians, the original one should also be pruned. *)
  let extra := nsamps * Z.of_nat (mask_sum splits) + Z.of_nat (mask_sum dups) in
  (if extra <? 0 then raise RuntimeError else mret tt);;
  splits_mask ← match splits with
                | MaskN l => mret (MaskN (l ++ replicate (Z.to_nat extra) false))
                | Mask0 _ => raise RuntimeError
                end;
  on_model (cull_gaussians (Some splits_mask)).

(** Lines 539-554: the opacity reset. *)
Definition reset_value (c : Config.t F) : F :=
  Fmul (Config.cull_alpha_thresh c) (Flit 2).

Definition reset_opacities : M (Trainer F) unit :=
  c ← gets (λ t, config (model t));
  (* Reset value is set to be twice of the cull_alpha_thresh *)
  on_model (modify (λ s,
    set_gauss_params
      (set_opacities (map (clamp_max (Flogit (reset_value c)))
                          (opacities (gauss_params s)))
                     (gauss_params s)) s));;
  (* reset the exp of optimizer *)
  in_optim opt_opacities set_opt_opacities
    (st ← get;
     match st with
     | None => raise KeyError
     | Some a =>
         modify (λ _, Some (mkAdam (map (λ _, Fzero) (exp_avg a)) (exp_avg_sq a)));;
         modify (λ _, Some (mkAdam (map (λ _, Fzero) (exp_avg a))
                                    (map (λ _, Fzero) (exp_avg_sq a))))
     end).

Definition refinement_after (step_ : Z) : M (Trainer F) unit :=
  s ← gets model;
  let c := config s in
  assert (step_ =? step s);;
  if step s <=? Config.warmup_length c then mret tt
  else
    (* Offset all the opacity reset logic by refine_every so that we don't
       save checkpoints right when the opacity is reset (saves every 2k)
       then cull
       only split/cull if we've seen every image since opacity reset *)
    let reset_interval := Config.reset_alpha_every c * Config.refine_every c in
    do_densification ←
      (if step s <? Config.stop_split_at c then
         r ← py_mod (step s) reset_interval;
         mret (num_train_data s + Config.refine_every c <? r)
       else mret false);
    deleted_mask ←
      (if do_densification : bool then
         (* then we densify *)
         d ← densify; mret (Some d)
       else if (Config.stop_split_at c <=? step s)
               && Config.continue_cull_post_densification c then
         d ← on_model (cull_gaussians None); mret (Some d)
       else
         (* if we donot allow culling post refinement, no more gaussians will be pruned. *)
         mret None);
    match deleted_mask with
    | Some d => remove_from_all_optim d
    | None => mret tt
    end;;
    do_reset ←
      (if step s <? Config.stop_split_at c then
         r ← py_mod (step s) reset_interval;
         mret (r =? Config.refine_every c)
       else mret false);
    (if do_reset : bool then reset_opacities else mret tt);;
    on_model (modify (set_xys_grad_norm None));;
    on_model (modify (set_vis_counts None));;
    on_model (modify (set_max_2Dsize None)).

(** *** The training callbacks (lines 659-668) *)

Definition step_cb (step_ : Z) : M (Model F) unit := modify (set_step step_).

Definition train_callback_before_iteration (step_ : Z) : M (Model F) unit :=
  step_cb step_.

Definition train_callback_after_iteration (step_ : Z) : M (Trainer F) unit :=
  on_model (after_train step_);;
  r ← (c ← gets (λ t, config (model t)); py_mod step_ (Config.refine_every c));
  if r =? 0 then refinement_after step_ else mret tt.

(** *** Rendering ([get_outputs], lines 694-960) *)

Record Outputs : Type := mkOutputs {
  rgb : image F;
  depth : option (image F);
  accumulation : image F;
  background : vec3 F
}.

Definition _get_downscale_factor : M (Model F) Z :=
  s ← get;
  if training s then
    q ← py_floordiv (step s) (Config.resolution_schedule (config s));
    mret (2 ^ Z.max (Config.num_downscales (config s) - q) 0)
  else mret 1.

Definition has_shape (m : list (list F)) (r c : nat) : bool :=
  bool_decide (length m = r) && forallb (λ row, bool_decide (length row = c)) m.

Definition entry (m : list (list F)) (i j : nat) : F :=
  default Fzero (m !! i ≫= (.!! j)).

Definition list3 (v : vec3 F) : list F := let '(a, b, c) := v in [a; b; c].

(** All [results] of a list, or the first raise. *)
Fixpoint r_all {A} (l : list (result A)) : result (list A) :=
  match l with
  | [] => Ok []
  | r :: l' => r_bind r (λ a, r_bind (r_all l') (λ t, Ok (a :: t)))
  end.

(** Elementwise operation on two [H x W x C] tensors, broadcasting on
    every axis. *)
Definition bzip2 (f : F → F → F) (a b : list (list F)) : result (list (list F)) :=
  r_bind (broadcast2 (broadcast2 f) a b) r_all.
Definition bzip3 (f : F → F → F) (a b : image F) : result (image F) :=
  r_bind (broadcast2 (bzip2 f) a b) r_all.

Definition img_map (f : F → F) (a : image F) : image F := map (map (map f)) a.

(** [t.max()] over all entries; an empty tensor raises. *)
Definition max_all (l : list F) : result F :=
  match l with
  | [] => Raise RuntimeError
  | x :: l' => Ok (fold_left Fmaximum l' x)
  end.

(** [t.repeat(H, W, 1)] for a vector [t]. *)
Definition repeat_hw {S} (h w : Z) (px : list F) : M S (image F) :=
  if (h <? 0) || (w <? 0) then raise RuntimeError
  else mret (replicate (Z.to_nat h) (replicate (Z.to_nat w) px)).

(** The sentinel the empty render puts in the depth image:
    [new_ones(...) * 10]. *)
Definition depth_sentinel : F := Fmul Fone (F_of_Z 10).

(** The world-to-camera matrix (lines 763-774). *)
Definition view_matrix (camera_to_world : list (list F)) : list (list F) :=
  (* analytic matrix inverse to get world2camera matrix *)
  let R_inv (i j : nat) := entry camera_to_world j i in
  let T : vec3 F :=
    (entry camera_to_world 0 3, entry camera_to_world 1 3, entry camera_to_world 2 3) in
  let T_inv (i : nat) := dot3 (Fneg (R_inv i 0), Fneg (R_inv i 1), Fneg (R_inv i 2))%nat T in
  [ [R_inv 0 0; R_inv 0 1; R_inv 0 2; T_inv 0];
    [R_inv 1 0; R_inv 1 1; R_inv 1 2; T_inv 1];
    [R_inv 2 0; R_inv 2 1; R_inv 2 2; T_inv 2];
    [Fzero; Fzero; Fzero; Fone] ]%nat.

(** The intrinsics at the render resolution (lines 740-741, 759, 800). *)
Definition intrinsics (K : list (list F)) (camera_downscale : Z) : list (list F) :=
  let d := F_of_Z camera_downscale in
  let '(fx, fy) := (Fdiv (entry K 0 0) d, Fdiv (entry K 1 1) d) in
  let '(cx, cy) := (Fdiv (entry K 0 2) d, Fdiv (entry K 1 2) d) in
  [ [fx; F_of_Z 0; cx]; [F_of_Z 0; fy; cy]; [F_of_Z 0; F_of_Z 0; F_of_Z 1] ].

(** The projection of the store (lines 801-809). *)
Definition project (g : GaussParams F) (viewmat K : list (list F)) (W H : Z)
    : list Z * list (F * F) * list F * list (list F) :=
  let covars :=
    quat_scale_to_covar_perci (map normalize4 (quats g)) (map (map3 Fexp) (scales g)) in
  projection (means g) covars viewmat K W H.

Definition get_outputs (camera_to_world K : list (list F)) (width height : Z)
    : M (Model F) Outputs :=
  assert (has_shape camera_to_world 4 4 && has_shape K 3 3);;
  s ← get;
  let c := config s in
  (* get the background color *)
  background ←
    (if training s then
       match Config.background_color c with
       | bg_random =>
           modify (set_rng (rng s + 3)%nat);;
           mret (rand (rng s), rand (rng s + 1)%nat, rand (rng s + 2)%nat)
       | bg_white => mret (Fone, Fone, Fone)
       | bg_black => mret (Fzero, Fzero, Fzero)
       end
     else mret (background_color s));
  camera_downscale ← _get_downscale_factor;
  let K := intrinsics K camera_downscale in
  let '(width, height) := (width `div` camera_downscale, height `div` camera_downscale) in
  let viewmat := view_matrix camera_to_world in
  let '(W, H) := (width, height) in
  modify (set_last_size (Some (H, W)));;
  let g := gauss_params s in
  colors_crop ←
    (if decide (length (features_dc g) = length (features_rest g))
     then mret (zip_with cons (features_dc g) (features_rest g))
     else raise RuntimeError);
  let '(radii_, means2d, depths, conics) := project g viewmat K W H in
  modify (set_radii (Some radii_));;
  modify (set_xys (Some (mkXys means2d None)));;
  if foldr Z.add 0 radii_ =? 0 then
    rgb_ ← repeat_hw H W (list3 background);
    mret {| rgb := rgb_;
            depth := Some (map (map (λ _, [depth_sentinel])) rgb_);
            accumulation := map (map (λ _, [Fzero])) rgb_;
            background := background |}
  else
    rgbs ←
      (if 0 <? Config.sh_degree c then
         let cam : vec3 F :=
           (entry camera_to_world 0 3, entry camera_to_world 1 3,
            entry camera_to_world 2 3) in
         let viewdirs :=
           map (λ m, let v := zip3 Fsub m cam in
                     let n := Fsqrt (dot3 v v) in map3 (λ x, Fdiv x n) v) (means g) in
         q ← py_floordiv (step s) (Config.sh_degree_interval c);
         let n := Z.min q (Config.sh_degree c) in
         mret (map (map3 (λ x, clamp_min Fzero (Fadd x (Flit (1 # 2)))))
                   (spherical_harmonics n viewdirs colors_crop))
       else mret (map (map3 Fsigmoid) (features_dc g)));
    let tile_size := 16 in
    let tile_width := - ((- W) `div` tile_size) in
    let tile_height := - ((- H) `div` tile_size) in
    let '(tiles_per_gauss, isect_ids, gauss_ids) :=
      isect_tiles means2d radii_ depths tile_size tile_width tile_height in
    let isect_offsets := isect_offset_encode isect_ids 1 tile_width tile_height in
    assert (existsb (λ t, 0 <? t) tiles_per_gauss);;
    (* apply the compensation of screen space blurring to gaussians *)
    opacities_ ←
      match Config.rasterize_mode c with
      | antialiased => raise TypeError          (* comp is None on this path *)
      | classic => mret (map Fsigmoid (opacities g))
      end;
    feats ←
      (if Config.output_depth_during_training c || negb (training s) then
         if decide (length rgbs = length depths)
         then mret (zip_with (λ col dz, list3 col ++ [dz]) rgbs depths)
         else raise RuntimeError
       else mret (map list3 rgbs));
    let '(chans, rgb_, alpha) :=
      rasterize_to_pixels means2d conics feats opacities_ W H tile_size
                          isect_offsets gauss_ids in
    '(rgb_, depth_im) ←
      (if decide (chans = 4%nat) then
         let depth_im := map (map (drop 3)) rgb_ in
         mx ← lift (max_all (concat (concat depth_im)));
         q ← lift (bzip3 Fdiv depth_im alpha);
         sel ← lift (bzip3 (λ a dq, if Fgt a (F_of_Z 0) then dq else mx) alpha q);
         mret (map (map (take 3)) rgb_, Some sel)
       else mret (rgb_, None));
    let blend := map (map (λ a, map (λ x, Fsub Fone x) a)) alpha in
    bg ← lift (bzip3 Fmul blend [[list3 background]]);
    rgb_ ← lift (bzip3 Fadd rgb_ bg);
    mret {| rgb := img_map (clamp_max Fone) rgb_;
            depth := depth_im;
            accumulation := alpha;
            background := background |}.

(** *** Loss ([get_gt_img], [composite_with_background], [get_loss_dict]) *)

(** [batch["image"]]: uint8 or float pixels. *)
Inductive picture : Type :=
  | U8 (px : list (list (list Z)))
  | F32 (px : image F).

Record Batch : Type := mkBatch {
  batch_image : picture;
  batch_mask : option (image F)
}.

Record LossDict : Type := mkLossDict {
  main_loss : F;
  scale_reg : F
}.

Definition img_width (a : image F) : nat :=
  match a with r :: _ => length r | [] => 0%nat end.
Definition img_channels (a : image F) : nat :=
  match a with (px :: _) :: _ => length px | _ => 0%nat end.

Definition _downscale_if_required (a : image F) : M (Model F) (image F) :=
  d ← _get_downscale_factor;
  if 1 <? d then
    mret (resize a (Z.of_nat (length a) `div` d) (Z.of_nat (img_width a) `div` d))
  else mret a.

Definition get_gt_img (p : picture) : M (Model F) (image F) :=
  let a := match p with
           | U8 px => map (map (map (λ v, Fdiv (F_of_Z v) (Flit 255)))) px
           | F32 px => px
           end in
  _downscale_if_required a.

Definition composite_pixel (bg : vec3 F) (px : list F) : list F :=
  let alpha := default Fzero (last px) in
  zip_with (λ x b, Fadd (Fmul alpha x) (Fmul (Fsub (F_of_Z 1) alpha) b))
           (take 3 px) (list3 bg).

Definition composite_with_background (a : image F) (bg : vec3 F) : image F :=
  if decide (img_channels a = 4%nat) then map (map (composite_pixel bg)) a
  else a.

(** The per-primitive term of the scale regularization:
    [maximum(amax / amin, max_gauss_ratio) - max_gauss_ratio]. *)
Definition scale_ratio (sc : vec3 F) : F :=
  let e := map3 Fexp sc in Fdiv (amax3 e) (amin3 e).
Definition scale_penalty (c : Config.t F) (sc : vec3 F) : F :=
  Fsub (Fmaximum (scale_ratio sc) (Config.max_gauss_ratio c))
       (Config.max_gauss_ratio c).

Definition mean_abs_diff (gt pred : image F) : result F :=
  r_bind (bzip3 Fsub gt pred) (λ d,
    Ok (tmean (map Fabs (concat (concat d))))).

(** Lines 1013-1027: the two images the loss compares. *)
Definition loss_images (outputs : Outputs) (batch : Batch)
    : M (Model F) (image F * image F) :=
  gt ← get_gt_img (batch_image batch);
  let gt_img := composite_with_background gt (background outputs) in
  let pred_img := rgb outputs in
  (* Set masked part of both ground-truth and rendered image to black.
     This is a little bit sketchy for the SSIM loss. *)
  match batch_mask batch with
  | Some m =>
      mask ← _downscale_if_required m;
      assert (bool_decide (length mask = length gt_img
                           ∧ img_width mask = img_width gt_img
                           ∧ length gt_img = length pred_img
                           ∧ img_width gt_img = img_width pred_img));;
      g ← lift (bzip3 Fmul gt_img mask);
      p ← lift (bzip3 Fmul pred_img mask);
      mret (g, p)
  | None => mret (gt_img, pred_img)
  end.

Definition get_loss_dict (outputs : Outputs) (batch : Batch) : M (Model F) LossDict :=
  '(gt_img, pred_img) ← loss_images outputs batch;
  Ll1 ← lift (mean_abs_diff gt_img pred_img);
  let simloss := Fsub (F_of_Z 1) (ssim gt_img pred_img) in
  s ← get;
  let c := config s in
  let scale_reg :=
    if Config.use_scale_regularization c && (step s `mod` 10 =? 0) then
      Fmul (Flit (1 # 10)) (tmean (map (scale_penalty c) (scales (gauss_params s))))
    else Flit 0 in
  mret {| main_loss := Fadd (Fmul (Fsub (F_of_Z 1) (Config.ssim_lambda c)) Ll1)
                            (Fmul (Config.ssim_lambda c) simloss);
          scale_reg := scale_reg |}.


(** *** Checkpoints ([load_state_dict], lines 304-324) *)

Definition flat3 (l : list (vec3 F)) : list F := l ≫= list3.
Definition flat4 (l : list (quat F)) : list F :=
  l ≫= (λ '(a, b, c, d), [a; b; c; d]).

Fixpoint chunk3 (l : list F) : list (vec3 F) :=
  match l with
  | a :: b :: c :: l' => (a, b, c) :: chunk3 l'
  | _ => []
  end.
Fixpoint chunk4 (l : list F) : list (quat F) :=
  match l with
  | a :: b :: c :: d :: l' => (a, b, c, d) :: chunk4 l'
  | _ => []
  end.
(** Splits [l] into [n] consecutive pieces of [k] entries. *)
Fixpoint chunks (n k : nat) (l : list F) : list (list F) :=
  match n with
  | O => []
  | S n' => take k l :: chunks n' k (drop k l)
  end.

(** The six parameters as tensors, as [state_dict()] stores them. *)
Definition means_tensor (l : list (vec3 F)) : tensor F :=
  mkTensor [length l; 3%nat] (flat3 l).
Definition quats_tensor (l : list (quat F)) : tensor F :=
  mkTensor [length l; 4%nat] (flat4 l).
Definition rest_tensor (b : nat) (l : list (list (vec3 F))) : tensor F :=
  mkTensor [length l; b; 3%nat] (l ≫= flat3).
Definition opacities_tensor (l : list F) : tensor F :=
  mkTensor [length l; 1%nat] l.

Definition param_keys : list string :=
  ["means"; "scales"; "quats"; "features_dc"; "features_rest"; "opacities"]%string.

Definition gauss_key (p : string) : string := ("gauss_params." +:+ p)%string.

(** [torch.nn.Module.state_dict()]: the registered parameters and buffers
    under their qualified names. *)
Definition state_dict (s : Model F) : gmap string (tensor F) :=
  let g := gauss_params s in
  <[gauss_key "means" := means_tensor (means g)]>
  (<[gauss_key "scales" := means_tensor (scales g)]>
  (<[gauss_key "quats" := quats_tensor (quats g)]>
  (<[gauss_key "features_dc" := means_tensor (features_dc g)]>
  (<[gauss_key "features_rest" := rest_tensor (rest_bases s) (features_rest g)]>
  (<[gauss_key "opacities" := opacities_tensor (opacities g)]>
  (child_state s)))))).

(** [param.copy_(input_param)] of [Module._load_from_state_dict]: the
    entry is copied when its shape is the shape of the parameter; a wrong
    shape is reported and the parameter is left as it is.  Returns
    whether the key was loaded without complaint. *)
Definition load_param {A} (d : gmap string (tensor F)) (strict : bool)
    (key : string) (shp : list nat) (of_data : list F → A)
    (setf : A → Model F → Model F) : M (Model F) bool :=
  match d !! key with
  | Some t =>
      if decide (shape t = shp) then modify (setf (of_data (data t)));; mret true
      else mret false
  | None => mret (negb strict)
  end.

Definition set_gp {A} (setf : A → GaussParams F → GaussParams F) (v : A)
    (s : Model F) : Model F :=
  set_gauss_params (setf v (gauss_params s)) s.

(** The same for the entries of the child modules. *)
Definition load_child (d : gmap string (tensor F)) (strict : bool)
    (key : string) (cur : tensor F) : M (Model F) bool :=
  load_param d strict key (shape cur) (mkTensor (shape cur))
             (λ t s, set_child_state (<[key := t]> (child_state s)) s).

Fixpoint load_children (d : gmap string (tensor F)) (strict : bool)
    (l : list (string * tensor F)) : M (Model F) bool :=
  match l with
  | [] => mret true
  | (k, cur) :: l' =>
      ok ← load_child d strict k cur;
      ok' ← load_children d strict l';
      mret (ok && ok')
  end.

(** The six entries of the [gauss_params] module; returns whether all of
    them were loaded without complaint. *)
Definition load_gauss_params (d : gmap string (tensor F)) (strict : bool)
    : M (Model F) bool :=
  s ← get;
  let n (f : GaussParams F → nat) := f (gauss_params s) in
  ok1 ← load_param d strict (gauss_key "means")
          [n (λ g, length (means g)); 3%nat] chunk3 (set_gp set_means);
  ok2 ← load_param d strict (gauss_key "scales")
          [n (λ g, length (scales g)); 3%nat] chunk3 (set_gp set_scales);
  ok3 ← load_param d strict (gauss_key "quats")
          [n (λ g, length (quats g)); 4%nat] chunk4 (set_gp set_quats);
  ok4 ← load_param d strict (gauss_key "features_dc")
          [n (λ g, length (features_dc g)); 3%nat] chunk3 (set_gp set_features_dc);
  ok5 ← load_param d strict (gauss_key "features_rest")
          [n (λ g, length (features_rest g)); rest_bases s; 3%nat]
          (λ l, map chunk3 (chunks (n (λ g, length (features_rest g)))
                                   (3 * rest_bases s) l))
          (set_gp set_features_rest);
  ok6 ← load_param d strict (gauss_key "opacities")
          [n (λ g, length (opacities g)); 1%nat] id (set_gp set_opacities);
  mret (ok1 && ok2 && ok3 && ok4 && ok5 && ok6).

(** [torch.nn.Module.load_state_dict(dict, strict)]: every parameter that
    can be loaded is; missing keys, unexpected keys (both only when
    [strict]) and shape mismatches are collected and raised at the end. *)
Definition module_load_state_dict (d : gmap string (tensor F)) (strict : bool)
    : M (Model F) unit :=
  s ← get;
  ok ← load_gauss_params d strict;
  ok' ← load_children d strict (map_to_list (child_state s));
  let expected : gset string :=
    list_to_set (map gauss_key param_keys) ∪ dom (child_state s) in
  let no_unexpected := bool_decide (dom d ⊆ expected) in
  if ok && ok' && (negb strict || no_unexpected)
  then mret tt else raise RuntimeError.

(** [dict[f"gauss_params.{p}"] = dict[p]] for the six names. *)
Fixpoint remap (ps : list string) (d : gmap string (tensor F))
    : result (gmap string (tensor F)) :=
  match ps with
  | [] => Ok d
  | p :: ps' =>
      match d !! p with
      | Some t => remap ps' (<[gauss_key p := t]> d)
      | None => Raise KeyError
      end
  end.

(** Lines 320-323: every parameter becomes a zero tensor with [newp] rows
    and the trailing shape it had. *)
Definition resize_params (newp : nat) : M (Model F) unit :=
  b ← gets rest_bases;
  modify (set_gp set_means (replicate newp zero3));;
  modify (set_gp set_scales (replicate newp zero3));;
  modify (set_gp set_quats (replicate newp zero4));;
  modify (set_gp set_features_dc (replicate newp zero3));;
  modify (set_gp set_features_rest (replicate newp (replicate b zero3)));;
  modify (set_gp set_opacities (replicate newp Fzero)).

(** Returns the dict, which the method updates in place. *)
Definition load_state_dict (dict : gmap string (tensor F)) (strict : bool)
    : M (Model F) (gmap string (tensor F)) :=
  (* resize the parameters to match the new number of points *)
  modify (set_step 30000);;
  dict ← (if bool_decide (is_Some (dict !! "means"%string))
          (* For backwards compatibility, we remap the names of parameters from
             means->gauss_params.means since old checkpoints have that format *)
          then lift (remap param_keys dict)
          else mret dict);
  t ← match dict !! gauss_key "means" with
      | Some t => mret t
      | None => raise KeyError
      end;
  newp ← match shape t with
         | n :: _ => mret n
         | [] => raise IndexError
         end;
  resize_params newp;;
  module_load_state_dict dict strict;;
  mret dict.
End Splatfacto.

(** ** The construction of the model ([__init__], [populate_modules],
    lines 67-98, 174-254 and 326-346)

    Devices are not modelled: the construction asks for CUDA. *)

Section Construction.
Context {F : Type} `{!Scalar F} `{!Env F} `{!Library F}.

(** [torch.rand((n, 3))] at position [pos] of the random stream. *)
Definition rand3 (pos n : nat) : list (vec3 F) :=
  map (λ i, (rand (pos + 3 * i), rand (pos + 3 * i + 1), rand (pos + 3 * i + 2))%nat)
      (seq 0 n).

(** A draw of [k] values: the generator moves on. *)
Definition draws (k : nat) : M nat nat :=
  pos ← get; modify (λ p, p + k)%nat;; mret pos.

(** The rows of [random_quat_tensor(N)] when [u], [v] and [w] are drawn
    from position [pos] on. *)
Definition random_quats (pos N : nat) : list (quat F) :=
  let u i := rand (pos + i)%nat in
  let v i := rand (pos + N + i)%nat in
  let w i := rand (pos + 2 * N + i)%nat in
  let two_pi := Fmul (F_of_Z 2) Fpi in
  map (λ i,
    (Fmul (Fsqrt (Fsub (F_of_Z 1) (u i))) (Fsin (Fmul two_pi (v i))),
     Fmul (Fsqrt (Fsub (F_of_Z 1) (u i))) (Fcos (Fmul two_pi (v i))),
     Fmul (Fsqrt (u i)) (Fsin (Fmul two_pi (w i))),
     Fmul (Fsqrt (u i)) (Fcos (Fmul two_pi (w i)))))
    (seq 0 N).

(** Defines a random quaternion tensor of shape (N, 4) (lines 67-82). *)
Definition random_quat_tensor (N : nat) : M nat (list (quat F)) :=
  pos ← draws (3 * N); mret (random_quats pos N).

Definition C0 : Q := 28209479177387814 # 100000000000000000.

(** Converts from RGB values [0,1] to the 0th spherical harmonic
    coefficient. *)
Definition RGB2SH (rgb : F) : F := Fdiv (Fsub rgb (Flit (5 # 10))) (Flit C0).

(** Converts from the 0th spherical harmonic coefficient to RGB values
    [0,1]. *)
Definition SH2RGB (sh : F) : F := Fadd (Fmul sh (Flit C0)) (Flit (5 # 10)).

(** Lines 326-346: the neighbours of each point but the point itself. *)
Definition k_nearest_sklearn (x : list (vec3 F)) (k : nat)
    : result (list (list F) * list (list F)) :=
  r_bind (kneighbors (k + 1) x) (λ '(distances, indices),
    (* Exclude the point itself from the result and return *)
    Ok (map (drop 1) distances,
        map (λ r, map (λ i, F_of_Z (Z.of_nat i)) (drop 1 r)) indices)).

(** The seed points the construction uses: none with [random_init]. *)
Definition seeds_used (c : Config.t F)
    (seed_points : option (list (vec3 F) * list (vec3 F)))
    : option (list (vec3 F) * list (vec3 F)) :=
  match seed_points with
  | Some sp => if Config.random_init c then None else Some sp
  | None => None
  end.

(** [(torch.rand((n, 3)) - 0.5) * extent + center] for the box
    [aabb = minimums ++ maximums]. *)
Definition box_points (aabb : vec3 F * vec3 F) (pos n : nat) : list (vec3 F) :=
  let '(minimums, maximums) := aabb in
  let center := map3 (λ x, Fdiv x (F_of_Z 2)) (zip3 Fadd minimums maximums) in
  let extent := map3 (λ x, Fdiv x (F_of_Z 2)) (zip3 Fsub maximums minimums) in
  map (λ r, zip3 Fadd (zip3 Fmul (map3 (λ x, Fsub x (Flit (5 # 10))) r) extent) center)
      (rand3 pos n).

(** The opacity every primitive starts with:
    [torch.logit(0.1 * torch.ones(num_points, 1))]. *)
Definition initial_opacity : F := Flogit (Fmul (Flit (1 # 10)) Fone).

(** Lines 174-254: [__init__] keeps its four arguments and calls
    [populate_modules].  The state is the position of the random
    generator; the model that is returned records where it stands.
    [aabb] is a tensor of six entries, the corner of the minimums and the
    corner of the maximums. *)
Definition populate_modules (num_train_data : Z) (c : Config.t F)
    (seed_points : option (list (vec3 F) * list (vec3 F)))
    (aabb : option (vec3 F * vec3 F)) : M nat (Model F) :=
  means ← match seeds_used c seed_points with
          | Some (points, _) => mret points  (* (Location, Color) *)
          | None =>
              match aabb with
              | None => raise AssertionError
              | Some box =>
                  if Config.num_random c <? 0 then raise RuntimeError
                  else
                    let n := Z.to_nat (Config.num_random c) in
                    pos ← draws (3 * n); mret (box_points box pos n)
              end
          end;
  '(distances, _) ← lift (k_nearest_sklearn means 3);
  (* find the average of the three nearest neighbors for each point and
     use that as the scale *)
  let avg_dist := map tmean distances in
  let scales := map (λ a, (Flog a, Flog a, Flog a)) avg_dist in
  let num_points := length means in
  quats ← random_quat_tensor num_points;
  let dim_sh := num_sh_bases (Config.sh_degree c) in
  '(features_dc, features_rest) ←
    match seeds_used c seed_points with
    | Some (_, (_ :: _) as colors) =>
        (* We can have colors without points. *)
        if dim_sh <? 0 then raise RuntimeError        (* torch.zeros *)
        else if dim_sh =? 0 then raise IndexError     (* shs[:, 0, :3] *)
        else
          let dc :=
            if 0 <? Config.sh_degree c then
              map (map3 (λ x, RGB2SH (Fdiv x (F_of_Z 255)))) colors
            else
              map (map3 (λ x, Flogit_eps (1 # 10000000000) (Fdiv x (F_of_Z 255))))
                  colors in
          mret (dc, map (λ _, replicate (Z.to_nat (dim_sh - 1)) zero3) colors)
    | _ =>
        pos ← draws (3 * num_points);
        if dim_sh - 1 <? 0 then raise RuntimeError    (* torch.zeros *)
        else mret (rand3 pos num_points,
                   replicate num_points (replicate (Z.to_nat (dim_sh - 1)) zero3))
    end;
  let opacities := replicate num_points initial_opacity in
  pos ← get;
  mret {|
    config := c;
    num_train_data := num_train_data;
    gauss_params := {|
      means := means;
      scales := scales;
      quats := quats;
      features_dc := features_dc;
      features_rest := features_rest;
      opacities := opacities
    |};
    rest_bases := Z.to_nat (dim_sh - 1);
    child_state := metrics_state;
    step := 0;
    training := true;
    background_color :=
      match Config.background_color c with
      | bg_random => (Flit (1490 # 10000), Flit (1647 # 10000), Flit (2157 # 10000))
      | bg_white => (Fone, Fone, Fone)
      | bg_black => (Fzero, Fzero, Fzero)
      end;
    xys_grad_norm := None;
    vis_counts := None;
    max_2Dsize := None;
    radii := None;
    xys := None;
    last_size := None;
    rng := pos
  |}.
End Construction.

(** ** A reference backend: IEEE binary32

    Used to run the model on concrete inputs.  The arithmetic is the one
    [SpecFloat] specifies, at 24 bits of precision.  [exp] and [log] are
    computed by range reduction and a truncated series; they are exact at
    the points the runs below rely on ([exp 0 = 1], [log 1 = 0]). *)

Module Binary32.
Definition prec : Z := 24.
Definition emax : Z := 128.

Definition of_Z (z : Z) : spec_float := binary_normalize prec emax z 0 false.
Definition add : spec_float → spec_float → spec_float := SFadd prec emax.
Definition sub : spec_float → spec_float → spec_float := SFsub prec emax.
Definition mul : spec_float → spec_float → spec_float := SFmul prec emax.
Definition div : spec_float → spec_float → spec_float := SFdiv prec emax.
Definition sqrt : spec_float → spec_float := SFsqrt prec emax.

(** The binary32 value nearest to a rational with small numerator and
    denominator. *)
Definition of_Q (q : Q) : spec_float := div (of_Z (Qnum q)) (of_Z (Zpos (Qden q))).

Definition one : spec_float := of_Z 1.

(** [1 + y/1 (1 + y/2 (1 + ... (1 + y/n)))], the Taylor polynomial of exp. *)
Fixpoint exp_poly (n : nat) (k : Z) (y : spec_float) : spec_float :=
  match n with
  | O => one
  | S n' => add one (mul (div y (of_Z k)) (exp_poly n' (k + 1) y))
  end.

Definition exp (x : spec_float) : spec_float :=
  match x with
  | S754_nan => S754_nan
  | S754_infinity false => S754_infinity false
  | S754_infinity true => S754_zero false
  | S754_zero _ => one
  | S754_finite _ _ _ =>
      (* exp x = (exp (x / 2^8)) ^ (2^8) *)
      Nat.iter 8 (λ r, mul r r) (exp_poly 8 1 (SFldexp prec emax x (-8)))
  end.

(** [z (1 + z^2/3 + z^4/5 + ...)], the series of atanh. *)
Fixpoint atanh_poly (n : nat) (k : Z) (z2 : spec_float) : spec_float :=
  match n with
  | O => div one (of_Z k)
  | S n' => add (div one (of_Z k)) (mul z2 (atanh_poly n' (k + 2) z2))
  end.

Definition ln2 : spec_float := of_Q (11629080 # 16777216).

Definition log (x : spec_float) : spec_float :=
  match x with
  | S754_nan => S754_nan
  | S754_infinity false => S754_infinity false
  | S754_infinity true => S754_nan
  | S754_zero _ => S754_infinity true
  | S754_finite true _ _ => S754_nan
  | S754_finite false _ _ =>
      (* x = m * 2^e with m in [1/2, 1); m is moved to [3/4, 3/2) *)
      let '(m, e) := SFfrexp prec emax x in
      let '(m, e) := if SFltb m (of_Q (3 # 4)) then (mul m (of_Z 2), e - 1) else (m, e) in
      let z := div (sub m one) (add m one) in
      add (mul (of_Z e) ln2)
          (mul (of_Z 2) (mul z (atanh_poly 8 1 (mul z z))))
  end.

Definition sigmoid (x : spec_float) : spec_float :=
  div one (add one (exp (SFopp x))).
Definition logit (p : spec_float) : spec_float :=
  log (div p (sub one p)).

#[export] Instance scalar : Scalar spec_float := {|
  Flit := of_Q;
  F_of_Z := of_Z;
  Fnan := S754_nan;
  Fadd := add;
  Fsub := sub;
  Fmul := mul;
  Fdiv := div;
  Fneg := SFopp;
  Fabs := SFabs;
  Fsqrt := sqrt;
  Fexp := exp;
  Flog := log;
  Fsigmoid := sigmoid;
  Flogit := logit;
  Fcompare := SFcompare
|}.
End Binary32.


(** ** A stand-in for the external kernels

    Used with [Binary32] to run the model on concrete inputs.  The random
    streams are fixed sequences, [quat_to_rotmat] is the usual rotation
    matrix of a quaternion, and the projection finds no primitive on screen:
    every radius is zero. *)

Module Offscreen.
Import Binary32.

Definition rotmat (q : quat spec_float) : mat3 spec_float :=
  let '(w, x, y, z) := q in
  let two := of_Z 2 in
  let m a b := mul two (mul a b) in
  ((sub one (add (m y y) (m z z)), sub (m x y) (m w z), add (m x z) (m w y)),
   (add (m x y) (m w z), sub one (add (m x x) (m z z)), sub (m y z) (m w x)),
   (sub (m x z) (m w y), add (m y z) (m w x), sub one (add (m x x) (m y y)))).

#[export] Instance env : Env spec_float := {|
  randn := λ i, of_Q (Z.of_nat (i `mod` 5) - 2 # 4);
  rand := λ i, of_Q (Z.of_nat (i `mod` 4) # 4);
  quat_to_rotmat := rotmat;
  quat_scale_to_covar_perci := λ qs _, map (λ _, []) qs;
  projection := λ ms _ _ _ _ _,
    (map (λ _, 0) ms, map (λ _, (of_Z 0, of_Z 0)) ms, map (λ _, of_Z 0) ms,
     map (λ _, []) ms);
  spherical_harmonics := λ _ dirs _, map (λ _, (of_Z 0, of_Z 0, of_Z 0)) dirs;
  isect_tiles := λ xs _ _ _ _ _, (map (λ _, 0) xs, [], []);
  isect_offset_encode := λ _ _ _ _, [];
  rasterize_to_pixels := λ _ _ _ _ W H _ _ _,
    (3%nat,
     replicate (Z.to_nat H) (replicate (Z.to_nat W) [of_Z 0; of_Z 0; of_Z 0]),
     replicate (Z.to_nat H) (replicate (Z.to_nat W) [of_Z 0]));
  ssim := λ _ _, of_Z 1;
  resize := λ a h w, take (Z.to_nat h) (map (take (Z.to_nat w)) a)
|}.
End Offscreen.


(** ** A stand-in with every primitive on screen

    As [Offscreen], but the projection gives every primitive a radius of
    one and a tile, and the rasterization returns the black image. *)

Module Onscreen.
Import Binary32.

#[export] Instance env : Env spec_float := {|
  randn := randn (Env := Offscreen.env);
  rand := rand (Env := Offscreen.env);
  quat_to_rotmat := Offscreen.rotmat;
  quat_scale_to_covar_perci := λ qs _, map (λ _, []) qs;
  projection := λ ms _ _ _ _ _,
    (map (λ _, 1) ms, map (λ _, (of_Z 0, of_Z 0)) ms, map (λ _, of_Z 1) ms,
     map (λ _, []) ms);
  spherical_harmonics := λ _ dirs _, map (λ _, (of_Z 0, of_Z 0, of_Z 0)) dirs;
  isect_tiles := λ xs _ _ _ _ _, (map (λ _, 1) xs, [], []);
  isect_offset_encode := λ _ _ _ _, [];
  rasterize_to_pixels := λ _ _ _ _ W H _ _ _,
    (3%nat,
     replicate (Z.to_nat H) (replicate (Z.to_nat W) [of_Z 0; of_Z 0; of_Z 0]),
     replicate (Z.to_nat H) (replicate (Z.to_nat W) [of_Z 0]));
  ssim := λ _ _, of_Z 1;
  resize := λ a h w, take (Z.to_nat h) (map (take (Z.to_nat w)) a)
|}.
End Onscreen.


(** ** A stand-in for the libraries of the construction

    The sine and the cosine are truncated series about zero, [logit] with
    [eps] clamps its argument first, [num_sh_bases] is the table of gsplat
    and the neighbours are found by comparing all pairs. *)

Module Library32.
Import Binary32.

(** [1 - x2/(k (k+1)) (1 - x2/((k+2) (k+3)) (1 - ...))], the series of
    the cosine ([k = 1]) and of [sin x / x] ([k = 2]). *)
Fixpoint trig_poly (n : nat) (k : Z) (x2 : spec_float) : spec_float :=
  match n with
  | O => one
  | S n' => sub one (mul (div x2 (of_Z (k * (k + 1)))) (trig_poly n' (k + 2) x2))
  end.
Definition cos (x : spec_float) : spec_float := trig_poly 12 1 (mul x x).
Definition sin (x : spec_float) : spec_float := mul x (trig_poly 12 2 (mul x x)).

Definition logit_eps (eps : Q) (x : spec_float) : spec_float :=
  let lo := of_Q eps in
  let hi := sub one lo in
  logit (if SFltb x lo then lo else if SFltb hi x then hi else x).

Definition dist (p q : vec3 spec_float) : spec_float :=
  let '(a, b, c) := p in
  let '(x, y, z) := q in
  let sq d := mul d d in
  sqrt (add (add (sq (sub a x)) (sq (sub b y))) (sq (sub c z))).

Fixpoint insert_by (x : spec_float * nat) (l : list (spec_float * nat))
    : list (spec_float * nat) :=
  match l with
  | [] => [x]
  | y :: l' => if SFltb y.1 x.1 then y :: insert_by x l' else x :: y :: l'
  end.

(** The search by comparison of all pairs; fewer points than neighbours
    asked for is a [ValueError]. *)
Definition brute_force (k : nat) (x : list (vec3 spec_float))
    : result (list (list spec_float) * list (list nat)) :=
  if decide (length x < k)%nat then Raise ValueError
  else
    let rows := map (λ p, take k (foldr insert_by [] (imap (λ i q, (dist p q, i)) x))) x in
    Ok (map (map fst) rows, map (map snd) rows).

#[export] Instance library : Library spec_float := {|
  Fsin := sin;
  Fcos := cos;
  Fpi := of_Q (13176795 # 4194304);
  Flogit_eps := logit_eps;
  num_sh_bases := λ degree,
    if degree =? 0 then 1 else if degree =? 1 then 4 else if degree =? 2 then 9
    else if degree =? 3 then 16 else 25;
  kneighbors := brute_force;
  metrics_state := ∅
|}.
End Library32.

(** ** Concrete inputs *)

Module Examples.
Import Binary32 Offscreen.

Definition f (q : Q) : spec_float := of_Q q.

(** Three primitives with unit scale ([exp 0 = 1]), opacity one half
    ([sigmoid 0]) and identity rotation. *)
Definition store3 : GaussParams spec_float := {|
  means := [(f 0, f 0, f 0); (f 1, f 0, f 0); (f 0, f 1, f 0)];
  scales := [(f 0, f 0, f 0); (f 0, f 0, f 0); (f 0, f 0, f 0)];
  quats := [(f 1, f 0, f 0, f 0); (f 1, f 0, f 0, f 0); (f 1, f 0, f 0, f 0)];
  features_dc := [(f 0, f 0, f 0); (f 1, f 1, f 1); (f 0, f 1, f 0)];
  features_rest := [[]; []; []];
  opacities := [f 0; f 0; f 0]
|}.

Definition model0 (c : Config.t spec_float) (g : GaussParams spec_float)
    (step_ : Z) : Model spec_float := {|
  config := c;
  num_train_data := 21;
  gauss_params := g;
  rest_bases := 0;
  child_state := ∅;
  step := step_;
  training := true;
  background_color := (f (149 # 1000), f (1647 # 10000), f (2157 # 10000));
  xys_grad_norm := None;
  vis_counts := None;
  max_2Dsize := None;
  radii := None;
  xys := None;
  last_size := None;
  rng := 0
|}.

Definition adam0 {A} (z : A) (n : nat) : option (option (Adam A)) :=
  Some (Some (mkAdam (replicate n z) (replicate n z))).

Definition optimizers0 (n : nat) : Optimizers spec_float := {|
  opt_means := adam0 zero3 n;
  opt_scales := adam0 zero3 n;
  opt_quats := adam0 zero4 n;
  opt_features_dc := adam0 zero3 n;
  opt_features_rest := adam0 [] n;
  opt_opacities := adam0 Fzero n
|}.

Definition trainer0 (c : Config.t spec_float) (g : GaussParams spec_float)
    (step_ : Z) : Trainer spec_float :=
  mkTrainer (model0 c g step_) (optimizers0 (length (means g))).
End Examples.


(** ** Notions used to state the properties *)

(** Every run of [c] takes a state to one related to it by [R], whether it
    returns or raises. *)
Definition steps {S A} (R : relation S) (c : M S A) : Prop := ∀ s, R s (c s).1.

(** The weakest precondition of [c]: [Q] holds of the value and state of a
    return, [E] of the state of a raise. *)
Definition wp {S A} (c : M S A) (Q : A → S → Prop) (E : S → Prop) (s : S) : Prop :=
  match c s with
  | (s', Ok a) => Q a s'
  | (s', Raise _) => E s'
  end.

(** The component [p] of the state is the same. *)
Definition same {S B} (p : S → B) : relation S := λ s s', p s' = p s.

Abbreviation preserves p := (steps (same p)).

Section Notions.
Context {F : Type} `{!Scalar F} `{!Env F}.

(** Index alignment: each of the six tensors has [n] rows. *)
Definition aligned (g : GaussParams F) (n : nat) : Prop :=
  length (means g) = n ∧ length (scales g) = n ∧ length (quats g) = n
  ∧ length (features_dc g) = n ∧ length (features_rest g) = n
  ∧ length (opacities g) = n.

(** The primitive at index [i]: its row in each of the six tensors. *)
Definition primitive (g : GaussParams F) (i : nat)
    : option (vec3 F * vec3 F * quat F * vec3 F * list (vec3 F) * F) :=
  m ← means g !! i;
  sc ← scales g !! i;
  q ← quats g !! i;
  dc ← features_dc g !! i;
  fr ← features_rest g !! i;
  o ← opacities g !! i;
  Some (m, sc, q, dc, fr, o).

(** The rows of every tensor picked by the same flags. *)
Definition select_params (m : list bool) (g : GaussParams F) : GaussParams F :=
  {| means := select m (means g);
     scales := select m (scales g);
     quats := select m (quats g);
     features_dc := select m (features_dc g);
     features_rest := select m (features_rest g);
     opacities := select m (opacities g) |}.

(** What [split_gaussians] returns for the flags [l]: [samps] children per
    selected primitive, drawn at position [pos] of the random stream. *)
Definition split_children (l : list bool) (samps pos : nat) (g : GaussParams F)
    : GaussParams F :=
  let scaled_samples :=
    zip_with (zip3 Fmul)
      (map (map3 Fexp) (repeat_rows samps (select l (scales g))))
      (randn3 pos (samps * count_true l)) in
  let rots :=
    map quat_to_rotmat (repeat_rows samps (map normalize4 (select l (quats g)))) in
  {| means := zip_with (zip3 Fadd) (zip_with matvec rots scaled_samples)
                       (repeat_rows samps (select l (means g)));
     scales := repeat_rows samps (map shrink (select l (scales g)));
     quats := repeat_rows samps (select l (quats g));
     features_dc := repeat_rows samps (select l (features_dc g));
     features_rest := repeat_rows samps (select l (features_rest g));
     opacities := repeat_rows samps (select l (opacities g)) |}.

(** The state [split_gaussians] leaves: the selected scales shrunk in
    place and the random stream advanced. *)
Definition split_state (l : list bool) (samps : nat) (s : Model F) : Model F :=
  set_gauss_params
    (set_scales (update_where shrink l (scales (gauss_params s))) (gauss_params s))
    (set_rng (rng s + 3 * (samps * count_true l)) s).

(** The flags of [high_grads], of [splits] and of [dups] as the source
    computes them when every tensor has the length of the store. *)
Definition high_grad_flags (s : Model F) : list bool :=
  match xys_grad_norm s, vis_counts s, last_size s with
  | Some gn, Some vc, Some (h, w) =>
      map (λ a, Fgt a (Config.densify_grad_thresh (config s)))
          (map (λ x, Fmul (Fmul x (Flit (1 # 2))) (F_of_Z (Z.max h w)))
               (zip_with Fdiv gn vc))
  | _, _, _ => []
  end.

Definition size_flags (s : Model F) : list bool :=
  map (λ sc, Fgt (amax3 (map3 Fexp sc)) (Config.densify_size_thresh (config s)))
      (scales (gauss_params s)).

Definition screen_flags (s : Model F) : list bool :=
  map (λ x, Fgt x (Config.split_screen_size (config s)))
      (default [] (max_2Dsize s)).

Definition split_flags (s : Model F) (hg : list bool) : list bool :=
  zip_with andb
    (if step s <? Config.stop_screen_size_at (config s)
     then zip_with orb (size_flags s) (screen_flags s)
     else size_flags s)
    hg.

Definition dup_flags (s : Model F) (hg : list bool) : list bool :=
  zip_with andb
    (map (λ sc, Fle (amax3 (map3 Fexp sc)) (Config.densify_size_thresh (config s)))
         (scales (gauss_params s)))
    hg.

(** The state [grow] leaves: the children of the split and the
    duplicates appended, in this order, and a zero slot of [max_2Dsize]
    for each. *)
Definition grown (s : Model F) : Model F :=
  let hg := high_grad_flags s in
  let sb := split_flags s hg in
  let samps := Z.to_nat (Config.n_split_samples (config s)) in
  let s1 := split_state sb samps s in
  let children := split_children sb samps (rng s) (gauss_params s) in
  let copies := select_params (dup_flags s1 hg) (gauss_params s1) in
  set_max_2Dsize
    (Some (default [] (max_2Dsize s)
           ++ map (λ _, Fzero) (scales children)
           ++ map (λ _, Fzero) (scales copies)))
    (set_gauss_params (cat_params (gauss_params s1) children copies) s1).

(** What the densification branch needs to run to its end: an aligned
    store of at least two primitives, statistics of the same length, the
    size of the last render and a split count that is not negative. *)
Definition ready_to_densify (s : Model F) (n : nat) : Prop :=
  aligned (gauss_params s) n ∧ (2 ≤ n)%nat
  ∧ (∃ gn, xys_grad_norm s = Some gn ∧ length gn = n)
  ∧ (∃ vc, vis_counts s = Some vc ∧ length vc = n)
  ∧ (∃ m2, max_2Dsize s = Some m2 ∧ length m2 = n)
  ∧ is_Some (last_size s)
  ∧ 0 ≤ Config.n_split_samples (config s).

(** Optimizer synchronisation: every group is in the dict and its
    moments, once they exist, have one row per primitive. *)
Definition synced_group {A} (o : option (option (Adam A))) (n : nat) : Prop :=
  ∃ st, o = Some st
        ∧ match st with
          | Some a => length (exp_avg a) = n ∧ length (exp_avg_sq a) = n
          | None => True
          end.

Definition synced (o : Optimizers F) (n : nat) : Prop :=
  synced_group (opt_means o) n ∧ synced_group (opt_scales o) n
  ∧ synced_group (opt_quats o) n ∧ synced_group (opt_features_dc o) n
  ∧ synced_group (opt_features_rest o) n ∧ synced_group (opt_opacities o) n.

(** No opacity is rewritten: every opacity of the later store is the
    opacity of a primitive of the earlier one. *)
Definition opacities_kept : relation (Model F) := λ s s',
  opacities (gauss_params s') ⊆ opacities (gauss_params s).

Definition opacities_kept_in : relation (Trainer F) := λ t t',
  opacities_kept (model t) (model t').

(** The opacity reset is due (lines 446 and 539-542). *)
Definition reset_due (s : Model F) : Prop :=
  let c := config s in
  Config.warmup_length c < step s
  ∧ step s < Config.stop_split_at c
  ∧ Config.reset_alpha_every c * Config.refine_every c ≠ 0
  ∧ step s `mod` (Config.reset_alpha_every c * Config.refine_every c)
    = Config.refine_every c.

(** The value of [_get_downscale_factor] when it returns. *)
Definition downscale_factor (s : Model F) : Z :=
  if training s then
    2 ^ Z.max (Config.num_downscales (config s)
               - step s `div` Config.resolution_schedule (config s)) 0
  else 1.

(** A well-formed store: aligned, and every row of [features_rest] has
    the [rest_bases] entries of the tensor's second axis. *)
Definition store_wf (s : Model F) : Prop :=
  aligned (gauss_params s) (num_points s)
  ∧ Forall (λ r, length r = rest_bases s) (features_rest (gauss_params s)).

(** The keys of the child modules are not the names of the six
    parameters, qualified or not. *)
Definition child_keys_ok (s : Model F) : Prop :=
  child_state s !! "means"%string = None
  ∧ Forall (λ p, child_state s !! gauss_key p = None) param_keys.

(** The live model has the modules and trailing shapes of the saved one. *)
Definition same_modules (saved live : Model F) : Prop :=
  rest_bases live = rest_bases saved
  ∧ ∀ k, shape <$> child_state live !! k = shape <$> child_state saved !! k.

(** The store [resize_params] leaves: zero tensors of [n] rows. *)
Definition zero_params (n b : nat) : GaussParams F :=
  {| means := replicate n zero3;
     scales := replicate n zero3;
     quats := replicate n zero4;
     features_dc := replicate n zero3;
     features_rest := replicate n (replicate b zero3);
     opacities := replicate n Fzero |}.

(** The state [load_state_dict] passes to the generic loader: the step set
    and every parameter a zero tensor with the rows of the checkpoint. *)
Definition resized (saved live : Model F) : Model F :=
  set_gauss_params (zero_params (num_points saved) (rest_bases live))
                   (set_step 30000 live).

(** A mask with an axis: what [.squeeze()] leaves of two flags or more, or of
    none. *)
Definition one_dim (m : bmask) : Prop :=
  match m with MaskN _ => True | Mask0 _ => False end.

(** The mask of [cull_gaussians] has an axis: the store does not hold
    exactly one primitive, or the extra mask has one. *)
Definition cull_mask_1d (n : nat) (extra : option bmask) : Prop :=
  n ≠ 1%nat ∨ ∃ e, extra = Some e ∧ one_dim e.

(** The model with the three accumulators unset. *)
Definition cleared (s : Model F) : Model F :=
  set_max_2Dsize None (set_vis_counts None (set_xys_grad_norm None s)).

(** No tensor of the later store has a row that the earlier one lacks, and
    the rows keep their order. *)
Definition no_growth : relation (Model F) := λ s s',
  let g := gauss_params s in
  let g' := gauss_params s' in
  means g' `sublist_of` means g ∧ scales g' `sublist_of` scales g
  ∧ quats g' `sublist_of` quats g ∧ features_dc g' `sublist_of` features_dc g
  ∧ features_rest g' `sublist_of` features_rest g
  ∧ opacities g' `sublist_of` opacities g.

Definition in_model (R : relation (Model F)) : relation (Trainer F) :=
  λ t t', R (model t) (model t').

(** The densification branch is taken (lines 446-457). *)
Definition densify_due (s : Model F) : Prop :=
  let c := config s in
  Config.warmup_length c < step s
  ∧ step s < Config.stop_split_at c
  ∧ Config.reset_alpha_every c * Config.refine_every c ≠ 0
  ∧ num_train_data s + Config.refine_every c
    < step s `mod` (Config.reset_alpha_every c * Config.refine_every c).

(** The store with every opacity clamped to the reset ceiling. *)
Definition clamped (s : Model F) : Model F :=
  set_gauss_params
    (set_opacities
       (map (clamp_max (Flogit (reset_value (config s)))) (opacities (gauss_params s)))
       (gauss_params s)) s.

(** Every entry of an image is at most [c]. *)
Definition bounded_by (c : F) (a : image F) : Prop :=
  Forall (Forall (Forall (λ x, Fgt x c = false))) a.

(** The dict holds the six tensors of the store under their qualified
    names. *)
Definition holds_params (d : gmap string (tensor F)) (s : Model F) : Prop :=
  let g := gauss_params s in
  d !! gauss_key "means" = Some (means_tensor (means g))
  ∧ d !! gauss_key "scales" = Some (means_tensor (scales g))
  ∧ d !! gauss_key "quats" = Some (quats_tensor (quats g))
  ∧ d !! gauss_key "features_dc" = Some (means_tensor (features_dc g))
  ∧ d !! gauss_key "features_rest"
    = Some (rest_tensor (rest_bases s) (features_rest g))
  ∧ d !! gauss_key "opacities" = Some (opacities_tensor (opacities g)).

(** A checkpoint in the old format: the six tensors under their bare
    names, beside the state of the child modules. *)
Definition legacy_dict (s : Model F) : gmap string (tensor F) :=
  let g := gauss_params s in
  <["means"%string := means_tensor (means g)]>
  (<["scales"%string := means_tensor (scales g)]>
  (<["quats"%string := quats_tensor (quats g)]>
  (<["features_dc"%string := means_tensor (features_dc g)]>
  (<["features_rest"%string := rest_tensor (rest_bases s) (features_rest g)]>
  (<["opacities"%string := opacities_tensor (opacities g)]>
  (child_state s)))))).

(** The keys of the child modules are not the names of the six parameters,
    bare or qualified. *)
Definition legacy_keys_ok (s : Model F) : Prop :=
  Forall (λ p, child_state s !! p = None ∧ child_state s !! gauss_key p = None)
         param_keys.

(** What the remapping of lines 307-318 makes of [legacy_dict]. *)
Definition remapped (s : Model F) : gmap string (tensor F) :=
  let g := gauss_params s in
  <[gauss_key "opacities" := opacities_tensor (opacities g)]>
  (<[gauss_key "features_rest" := rest_tensor (rest_bases s) (features_rest g)]>
  (<[gauss_key "features_dc" := means_tensor (features_dc g)]>
  (<[gauss_key "quats" := quats_tensor (quats g)]>
  (<[gauss_key "scales" := means_tensor (scales g)]>
  (<[gauss_key "means" := means_tensor (means g)]>
  (legacy_dict s)))))).


(** The model renders at full resolution: it is in evaluation, or the
    resolution schedule has run through all of its [num_downscales]
    periods. *)
Definition full_resolution (s : Model F) : Prop :=
  training s = false
  ∨ (Config.resolution_schedule (config s) ≠ 0
     ∧ Config.num_downscales (config s)
       ≤ step s `div` Config.resolution_schedule (config s)).

(** The number of flags set before position [i]. *)
Definition rank (m : list bool) (i : nat) : nat := count_true (take i m).

Definition flag_at (m : list bool) (i : nat) : bool := default false (m !! i).

(** The size criterion, flag by flag. *)
Definition too_big_flag (s : Model F) (i : nat) : bool :=
  default false ((λ sc, Fgt (amax3 (map3 Fexp sc)) (Config.cull_scale_thresh (config s)))
                   <$> scales (gauss_params s) !! i)
  || ((step s <? Config.stop_screen_size_at (config s))
      && default false ((λ x, Fgt x (Config.cull_screen_size (config s)))
                          <$> (max_2Dsize s ≫= (.!! i)))).

(** The cull decision for primitive [i] in the words of the
    specification: the base criterion, or the extra mask when one is
    given, or - only once [step > refine_every * reset_alpha_every] - the
    size criterion: too large a scale, or, while
    [step < stop_screen_size_at], too large a screen footprint. *)
Definition spec_cull_flag (s : Model F) (extra : option bmask) (i : nat) : bool :=
  let c := config s in
  let g := gauss_params s in
  let base :=
    default false ((λ o, Flt (Fsigmoid o) (Config.cull_alpha_thresh c))
                     <$> opacities g !! i) in
  let given :=
    match extra with
    | Some e => flag_at (mask_bits e) i
    | None => false
    end in
  let too_big :=
    default false ((λ sc, Fgt (amax3 (map3 Fexp sc)) (Config.cull_scale_thresh c))
                     <$> scales g !! i) in
  let on_screen :=
    default false ((λ x, Fgt x (Config.cull_screen_size c))
                     <$> (max_2Dsize s ≫= (.!! i))) in
  base || given
  || ((Config.refine_every c * Config.reset_alpha_every c <? step s)
      && (too_big || ((step s <? Config.stop_screen_size_at c) && on_screen))).
End Notions.

(** ** Concrete runs *)

Module Runs.
Import Binary32 Offscreen Library32 Examples.

Definition cfg : Config.t spec_float := Config.default.

(** Two small primitives ([exp (-5)] is below [densify_size_thresh]); the
    first has a large accumulated gradient and has covered half of the
    screen.  The step is a densification step of the default schedule. *)
Definition small2 : GaussParams spec_float := {|
  means := [(f 0, f 0, f 0); (f 1, f 0, f 0)];
  scales := [(f (-5), f (-5), f (-5)); (f (-5), f (-5), f (-5))];
  quats := [(f 1, f 0, f 0, f 0); (f 1, f 0, f 0, f 0)];
  features_dc := [(f 0, f 0, f 0); (f 1, f 1, f 1)];
  features_rest := [[]; []];
  opacities := [f 0; f 0]
|}.

Definition with_stats (gn vc m2 : list spec_float) (hw : Z * Z)
    (s : Model spec_float) : Model spec_float :=
  set_last_size (Some hw)
    (set_max_2Dsize (Some m2) (set_vis_counts (Some vc) (set_xys_grad_norm (Some gn) s))).

(** The first step of the default schedule at which
    [step % (reset_alpha_every * refine_every) == refine_every]; it lies
    in the warm-up. *)
Definition warmup_trainer : Trainer spec_float := trainer0 cfg store3 100.

(** The first reset step after the warm-up. *)
Definition reset_trainer : Trainer spec_float := trainer0 cfg store3 3100.

(** A step after [stop_split_at], with statistics still in place. *)
Definition late_model : Model spec_float :=
  with_stats [f 1; f 0; f 1] [f 1; f 1; f 1] [f 0; f 0; f 0] (2, 2)
             (model0 cfg store3 15000).


(** A densification step of the default schedule: the first and the third
    primitive have a large accumulated gradient and the size of a split. *)
Definition densify_trainer : Trainer spec_float :=
  mkTrainer
    (with_stats [f 1; f 0; f 1] [f 1; f 1; f 1] [f 0; f 0; f 0] (2, 2)
                (model0 cfg store3 600))
    (optimizers0 3).


(** A camera at the origin with unit focal lengths. *)
Definition pose : list (list spec_float) :=
  [[f 1; f 0; f 0; f 0]; [f 0; f 1; f 0; f 0]; [f 0; f 0; f 1; f 0];
   [f 0; f 0; f 0; f 1]].
Definition pinhole : list (list spec_float) :=
  [[f 1; f 0; f 4]; [f 0; f 1; f 2]; [f 0; f 0; f 1]].

(** A checkpoint of three primitives and a live model of two. *)
Definition saved_model : Model spec_float := model0 cfg store3 7000.
Definition live_model : Model spec_float := model0 cfg small2 0.

(** A render of one row of two pixels and the image it is compared to. *)
Definition render2 : Outputs (F:=spec_float) := {|
  rgb := [[[f 0; f 0; f 0]; [f 1; f 1; f 1]]];
  depth := None;
  accumulation := [[[f 0]; [f 0]]];
  background := (f 0, f 0, f 0)
|}.

(** The first primitive is just above [densify_size_thresh] along one axis
    ([exp (-4.5)] is about 0.0111) and below it once divided by 1.6; the
    step is past [stop_screen_size_at]. *)
Definition shrunk_model : Model spec_float :=
  with_stats [f 1; f 0] [f 1; f 1] [f 0; f 0] (2, 2)
    (model0 cfg
       (set_scales [(f (-9 # 2), f (-5), f (-5)); (f (-5), f (-5), f (-5))] small2)
       4200).

(** A model that has just rendered and back-propagated at step 600: the
    first and the third primitive are on screen. *)
Definition rendered_model : Model spec_float :=
  set_last_size (Some (10, 20))
    (set_xys (Some (mkXys [(f 1, f 1); (f 0, f 0); (f 5, f 2)]
                          (Some [(f 3, f 4); (f 0, f 0); (f 1, f 0)])))
       (set_radii (Some [3; 0; 2]) (model0 cfg store3 600))).

(** The same with accumulators from earlier steps. *)
Definition tracked_model : Model spec_float :=
  set_max_2Dsize (Some [f (1 # 2); f 0; f 0])
    (set_vis_counts (Some [f 1; f 1; f 1])
       (set_xys_grad_norm (Some [f 5; f 0; f 1]) rendered_model)).

(** The default configuration with another refinement schedule. *)
Definition with_schedule (refine reset_alpha : Z) (continue_cull : bool)
    (c : Config.t spec_float) : Config.t spec_float := {|
  Config.warmup_length := Config.warmup_length c;
  Config.refine_every := refine;
  Config.resolution_schedule := Config.resolution_schedule c;
  Config.background_color := Config.background_color c;
  Config.num_downscales := Config.num_downscales c;
  Config.cull_alpha_thresh := Config.cull_alpha_thresh c;
  Config.cull_scale_thresh := Config.cull_scale_thresh c;
  Config.continue_cull_post_densification := continue_cull;
  Config.reset_alpha_every := reset_alpha;
  Config.densify_grad_thresh := Config.densify_grad_thresh c;
  Config.densify_size_thresh := Config.densify_size_thresh c;
  Config.n_split_samples := Config.n_split_samples c;
  Config.sh_degree_interval := Config.sh_degree_interval c;
  Config.cull_screen_size := Config.cull_screen_size c;
  Config.split_screen_size := Config.split_screen_size c;
  Config.stop_screen_size_at := Config.stop_screen_size_at c;
  Config.random_init := Config.random_init c;
  Config.num_random := Config.num_random c;
  Config.ssim_lambda := Config.ssim_lambda c;
  Config.stop_split_at := Config.stop_split_at c;
  Config.sh_degree := Config.sh_degree c;
  Config.use_scale_regularization := Config.use_scale_regularization c;
  Config.max_gauss_ratio := Config.max_gauss_ratio c;
  Config.output_depth_during_training := Config.output_depth_during_training c;
  Config.rasterize_mode := Config.rasterize_mode c
|}.

(** Step 600 with [reset_alpha_every = 0]. *)
Definition no_interval_trainer : Trainer spec_float :=
  trainer0 (with_schedule 100 0 true cfg) store3 600.


(** A trainer that does not cull after the densification. *)
Definition no_cull_trainer : Trainer spec_float :=
  trainer0 (with_schedule 100 30 false cfg) store3 0.

(** Step 15000 with [refine_every = 0]. *)
Definition no_refine_trainer : Trainer spec_float :=
  trainer0 (with_schedule 0 30 true cfg) store3 15000.

(** The first reset step after the warm-up, before the opacity optimizer
    has taken a step. *)
Definition fresh_trainer : Trainer spec_float :=
  mkTrainer (model0 cfg store3 3100)
            (set_opt_opacities (Some None) (optimizers0 3)).

(** A store without primitives and a store of one, at a densification
    step. *)
Definition empty_model : Model spec_float :=
  with_stats [] [] [] (2, 2) (model0 cfg (mkGaussParams [] [] [] [] [] []) 600).
Definition single_model : Model spec_float :=
  with_stats [f 1] [f 1] [f 0] (2, 2)
    (model0 cfg
       (mkGaussParams [(f 0, f 0, f 0)] [(f 0, f 0, f 0)] [(f 1, f 0, f 0, f 0)]
                      [(f 0, f 0, f 0)] [[]] [f 0])
       600).

(** A model in training at step 4500, between the first and the second
    halving of the downscale factor, and one at step 7000. *)
Definition mid_model : Model spec_float := model0 cfg store3 4500.

(** A live model with fifteen further spherical-harmonics bases. *)
Definition wide_model : Model spec_float := {|
  config := cfg;
  num_train_data := 21;
  gauss_params :=
    set_features_rest [replicate 15 zero3; replicate 15 zero3] small2;
  rest_bases := 15;
  child_state := ∅;
  step := 0;
  training := true;
  background_color := (f 0, f 0, f 0);
  xys_grad_norm := None;
  vis_counts := None;
  max_2Dsize := None;
  radii := None;
  xys := None;
  last_size := None;
  rng := 0
|}.

(** The saved and the live model with a buffer of a child module. *)
Definition with_buffer (data_ : list spec_float) (s : Model spec_float)
    : Model spec_float :=
  set_child_state {[ "lpips.scale"%string := mkTensor [2%nat] data_ ]} s.
Definition saved_module : Model spec_float := with_buffer [f 1; f 2] saved_model.
Definition live_module : Model spec_float := with_buffer [f 0; f 0] live_model.
(** Four seed points and the unit box. *)
Definition points4 : list (vec3 spec_float) :=
  [(f 0, f 0, f 0); (f 1, f 0, f 0); (f 0, f 1, f 0); (f 0, f 0, f 2)].
Definition colors4 : list (vec3 spec_float) :=
  [(f 255, f 0, f 0); (f 0, f 255, f 0); (f 0, f 0, f 255); (f 51, f 51, f 51)].
Definition unit_box : vec3 spec_float * vec3 spec_float :=
  ((f (-1), f (-1), f (-1)), (f 1, f 1, f 1)).
(** The defaults with [random_init] and five random primitives. *)
Definition random_cfg : Config.t spec_float :=
  Config.mk 500 100 3000 bg_random 2 (f (1 # 10)) (f (5 # 10)) true 30
    (f (2 # 10000)) (f (1 # 100)) 2 1000 (f (15 # 100)) (f (5 # 100)) 4000
    true 5 (f (2 # 10)) 15000 3 false (f 10) false classic.

(** What the search returns for [x], four neighbours asked for. *)
Definition neighbours (x : list (vec3 spec_float))
    : list (list spec_float) * list (list nat) :=
  match brute_force 4 x with Ok r => r | Raise _ => ([], []) end.
End Runs.
(** * Properties *)

(** ** Frame reasoning for method bodies *)

Section Frame.
Context {S : Type} (R : relation S) `{!PreOrder R}.

Lemma steps_ret {A} (a : A) : steps R (mret a : M S A).
Proof. intros s. reflexivity. Qed.
Lemma steps_raise {A} e : steps R (raise e : M S A).
Proof. intros s. reflexivity. Qed.
Lemma steps_lift {A} (r : result A) : steps R (lift r : M S A).
Proof. intros s. reflexivity. Qed.
Lemma steps_get : steps R (get : M S S).
Proof. intros s. reflexivity. Qed.
Lemma steps_gets {A} (f : S → A) : steps R (gets f).
Proof. intros s. reflexivity. Qed.
Lemma steps_assert b : steps R (assert b : M S unit).
Proof. intros s. destruct b; reflexivity. Qed.
Lemma steps_attr {A} (f : S → option A) : steps R (attr f).
Proof. intros s. unfold attr. destruct (f s); reflexivity. Qed.
Lemma steps_modify (f : S → S) : (∀ s, R s (f s)) → steps R (modify f).
Proof. intros Hf s. apply Hf. Qed.
Lemma steps_bind {A C} (c : M S A) (k : A → M S C) :
  steps R c → (∀ a, steps R (k a)) → steps R (c ≫= k).
Proof.
  intros Hc Hk s. unfold mbind, M_bind. specialize (Hc s).
  destruct (c s) as [s' [a|e]]; simpl in *; [|done].
  etrans; [done|]. apply Hk.
Qed.
Lemma steps_py_mod a b : steps R (py_mod a b : M S Z).
Proof. intros s. unfold py_mod. destruct (b =? 0); reflexivity. Qed.
Lemma steps_py_floordiv a b : steps R (py_floordiv a b : M S Z).
Proof. intros s. unfold py_floordiv. destruct (b =? 0); reflexivity. Qed.
End Frame.

#[global] Instance same_preorder {S B} (p : S → B) : PreOrder (same p).
Proof. split; [done|]. intros x y z Hxy Hyz. unfold same in *. congruence. Qed.

Ltac frame_step :=
  lazymatch goal with
  | |- steps _ (mbind _ _) => apply steps_bind; [tc_solve| |intros]
  | |- steps _ (mret _) => apply steps_ret; tc_solve
  | |- steps _ (raise _) => apply steps_raise; tc_solve
  | |- steps _ (lift _) => apply steps_lift; tc_solve
  | |- steps _ get => apply steps_get; tc_solve
  | |- steps _ (gets _) => apply steps_gets; tc_solve
  | |- steps _ (assert _) => apply steps_assert; tc_solve
  | |- steps _ (attr _) => apply steps_attr; tc_solve
  | |- steps _ (py_mod _ _) => apply steps_py_mod; tc_solve
  | |- steps _ (py_floordiv _ _) => apply steps_py_floordiv; tc_solve
  | |- steps (same _) (modify _) => apply steps_modify; intros; reflexivity
  | |- steps _ (match ?x with _ => _ end) => destruct x
  end.
Ltac frame := repeat frame_step.

Section Proofs.
Context {F : Type} `{!Scalar F} `{!Env F}.

Lemma load_param_step {A} d strict key shp (of_data : list F → A)
    (setf : A → Model F → Model F) :
  (∀ v s, step (setf v s) = step s) →
  preserves (@step F) (load_param d strict key shp of_data setf).
Proof. intros Hs. unfold load_param. frame. apply steps_modify. intros; apply Hs. Qed.

Lemma load_children_step d strict l :
  preserves (@step F) (load_children d strict l).
Proof.
  induction l as [|[k cur] l IH]; simpl; frame; [|done].
  unfold load_child. by apply load_param_step.
Qed.

Lemma module_load_state_dict_step d strict :
  preserves (@step F) (module_load_state_dict d strict).
Proof.
  unfold module_load_state_dict, load_gauss_params. frame;
    try (apply load_param_step; intros; reflexivity).
  apply load_children_step.
Qed.
End Proofs.

(** ** Lists: selection by flags *)

Section Select.
Context {A : Type}.
Implicit Types (m : list bool) (t : list A).

Lemma count_true_cons b m :
  count_true (b :: m) = ((if b then 1 else 0) + count_true m)%nat.
Proof. unfold count_true. simpl. by destruct b. Qed.

Lemma count_true_app m m' :
  count_true (m ++ m') = (count_true m + count_true m')%nat.
Proof.
  induction m as [|b m IH]; [done|].
  rewrite <- app_comm_cons, !count_true_cons, IH. lia.
Qed.

Lemma count_true_replicate_false n : count_true (replicate n false) = 0%nat.
Proof. induction n; [done|]. simpl. by rewrite count_true_cons. Qed.

Lemma count_true_le m : (count_true m ≤ length m)%nat.
Proof.
  induction m as [|b m IH]; [done|]. rewrite count_true_cons. simpl.
  destruct b; lia.
Qed.

Lemma count_true_negb m :
  (count_true (map negb m) + count_true m = length m)%nat.
Proof.
  induction m as [|b m IH]; [done|]. simpl. rewrite !count_true_cons.
  destruct b; simpl; lia.
Qed.

Lemma select_length m t :
  length m = length t → length (select m t) = count_true m.
Proof.
  revert t. induction m as [|b m IH]; intros [|x t] Hl; try done.
  simpl in *. rewrite count_true_cons. destruct b; simpl; rewrite IH; lia.
Qed.

Lemma select_app m m' t t' :
  length m = length t → select (m ++ m') (t ++ t') = select m t ++ select m' t'.
Proof.
  revert t. induction m as [|b m IH]; intros [|x t] Hl; try done.
  simpl in *. rewrite IH by lia. by destruct b.
Qed.

Lemma select_replicate_false n t : select (replicate n false) t = [].
Proof. revert t. induction n; intros [|x t]; simpl; auto. Qed.

Lemma select_sublist m t : select m t `sublist_of` t.
Proof.
  revert t. induction m as [|b m IH]; intros [|x t]; simpl;
    try apply sublist_nil_l.
  destruct b; [by apply sublist_skip | by apply sublist_cons].
Qed.

Lemma select_elem_of m t x : x ∈ select m t → x ∈ t.
Proof. intros Hx. eapply elem_of_sublist; [done|apply select_sublist]. Qed.

(** A selected row keeps its value and moves to the position given by the
    number of selected rows in front of it. *)
Lemma select_lookup m t i :
  m !! i = Some true → select m t !! rank m i = t !! i.
Proof.
  revert t i. induction m as [|b m IH]; intros t i Hi; [done|].
  destruct t as [|x t].
  - rewrite !lookup_nil. destruct b; simpl; by rewrite ?lookup_nil.
  - destruct i as [|i]; simpl in *.
    + by simplify_eq.
    + unfold rank in *. simpl. rewrite count_true_cons.
      destruct b; simpl; by apply IH.
Qed.
End Select.

Lemma map_fmap {A B} (f : A → B) (l : list A) : map f l = f <$> l.
Proof. reflexivity. Qed.

(** ** Masks seen through their flags *)

Lemma mask_bits_squeeze l : mask_bits (squeeze l) = l.
Proof. by destruct l as [|b [|]]. Qed.

Lemma mask_bits_not m : mask_bits (mask_not m) = map negb (mask_bits m).
Proof. by destruct m. Qed.

Lemma broadcast2_same {A B C} (f : A → B → C) l l' :
  length l = length l' → broadcast2 f l l' = Ok (zip_with f l l').
Proof. intros Hl. unfold broadcast2. by rewrite decide_True. Qed.

Lemma mask_op_bits op a b :
  length (mask_bits a) = length (mask_bits b) →
  ∃ r, mask_op op a b = Ok r
       ∧ mask_bits r = zip_with op (mask_bits a) (mask_bits b).
Proof.
  destruct a as [x|l], b as [y|l']; simpl; intros Hl.
  - by eexists.
  - destruct l' as [|y [|]]; try done. by eexists.
  - destruct l as [|x [|]]; try done. by eexists.
  - rewrite broadcast2_same by done. by eexists.
Qed.

Lemma mask_op_inplace_squeeze op l l' :
  length l = length l' →
  mask_op_inplace op (squeeze l) (squeeze l') = Ok (squeeze (zip_with op l l')).
Proof.
  intros Hl.
  destruct l as [|x [|x' l]], l' as [|y [|y' l']]; simplify_eq/=; try done.
  rewrite decide_True; [done|]. simpl. by rewrite Hl.
Qed.

Lemma index_mask_bits {A} (t : list A) m :
  one_dim m → length (mask_bits m) = length t →
  index_mask t m = Ok (select (mask_bits m) t).
Proof. destruct m as [b|l]; simpl; intros H1 Hl; [done|]. by rewrite decide_True. Qed.

Lemma one_dim_not m : one_dim m → one_dim (mask_not m).
Proof. by destruct m. Qed.

Lemma one_dim_squeeze l : length l ≠ 1%nat → one_dim (squeeze l).
Proof. by destruct l as [|b [|]]. Qed.

Lemma mask_op_one_dim op a b r :
  mask_op op a b = Ok r → one_dim a ∨ one_dim b → one_dim r.
Proof.
  destruct a as [x|l], b as [y|l']; simpl; intros Hr [H1|H1]; try done;
    try (by injection Hr as <-).
  all: by destruct (broadcast2 op l l'); simplify_eq/=.
Qed.


(** ** Stepping through a method body *)

Section Steps.
Context {S A B : Type}.
Implicit Types (k : A → M S B) (s : S).

Lemma bind_ok (c : M S A) k s s' a : c s = (s', Ok a) → (c ≫= k) s = k a s'.
Proof. unfold mbind, M_bind. by intros ->. Qed.
Lemma bind_raise (c : M S A) k s s' e :
  c s = (s', Raise e) → (c ≫= k) s = (s', Raise e).
Proof. unfold mbind, M_bind. by intros ->. Qed.
Lemma bind_ret a k s : (mret a ≫= k) s = k a s.
Proof. done. Qed.
Lemma bind_gets (f : S → A) k s : (gets f ≫= k) s = k (f s) s.
Proof. done. Qed.
Lemma bind_lift_ok a k s : (lift (Ok a) ≫= k) s = k a s.
Proof. done. Qed.
End Steps.

Lemma bind_get {S B} (k : S → M S B) s : (get ≫= k) s = k s s.
Proof. done. Qed.
Lemma bind_modify {S B} (f : S → S) (k : unit → M S B) s :
  (modify f ≫= k) s = k tt (f s).
Proof. done. Qed.

Section Cull.
Context {F : Type} `{!Scalar F} `{!Env F}.

Lemma for_each_param_gather (f : ∀ A, list A → result (list A)) (s : Model F) g' :
  gather f (gauss_params s) = Ok g' →
  for_each_param f s = (set_gauss_params g' s, Ok tt).
Proof.
  unfold gather, for_each_param, set_param.
  cbv [mbind M_bind mret M_ret gets get modify lift]. simpl.
  destruct (f _ (means _)) as [m|]; [simpl|done].
  destruct (f _ (scales _)) as [sc|]; [simpl|done].
  destruct (f _ (quats _)) as [q|]; [simpl|done].
  destruct (f _ (features_dc _)) as [dc|]; [simpl|done].
  destruct (f _ (features_rest _)) as [fr|]; [simpl|done].
  destruct (f _ (opacities _)) as [o|]; [simpl|done].
  intros [= <-]. done.
Qed.

Lemma gather_select (m : bmask) (g : GaussParams F) n :
  aligned g n → one_dim m → length (mask_bits m) = n →
  gather (λ A t, index_mask t m) g = Ok (select_params (mask_bits m) g).
Proof.
  intros (H1 & H2 & H3 & H4 & H5 & H6) Hd Hm. unfold gather.
  rewrite !index_mask_bits by (done || congruence). done.
Qed.

Lemma select_params_aligned m (g : GaussParams F) n :
  aligned g n → length m = n → aligned (select_params m g) (count_true m).
Proof.
  intros (H1 & H2 & H3 & H4 & H5 & H6) Hm.
  repeat split; simpl; apply select_length; congruence.
Qed.

Lemma select_params_primitive m (g : GaussParams F) i :
  m !! i = Some true →
  primitive (select_params m g) (rank m i) = primitive g i.
Proof.
  intros Hi. unfold primitive. simpl. by rewrite !select_lookup.
Qed.

Lemma too_big_run (s : Model F) n :
  length (scales (gauss_params s)) = n →
  (step s < Config.stop_screen_size_at (config s) →
   ∃ m2, max_2Dsize s = Some m2 ∧ length m2 = n) →
  ∃ tb, too_big s = (s, Ok tb)
        ∧ length (mask_bits tb) = n
        ∧ ∀ i, (i < n)%nat → mask_bits tb !! i = Some (too_big_flag s i).
Proof.
  intros Hs Hm2. unfold too_big. rewrite bind_get. cbv zeta.
  set (big := map _ (scales _)).
  assert (Hbig : length big = n) by (subst big; by rewrite length_map).
  assert (Hbigi : ∀ i, (i < n)%nat →
            big !! i = Some (default false
              ((λ sc, Fgt (amax3 (map3 Fexp sc)) (Config.cull_scale_thresh (config s)))
                 <$> scales (gauss_params s) !! i))).
  { intros i Hi. subst big. rewrite map_fmap, list_lookup_fmap.
    destruct (scales _ !! i) eqn:E; [done|]. apply lookup_ge_None in E. lia. }
  unfold too_big_flag.
  destruct (step s <? Config.stop_screen_size_at (config s)) eqn:Hscr.
  - destruct Hm2 as (m2 & -> & Hlen); [lia|]. rewrite bind_ret.
    set (scr := map _ m2).
    assert (Hscr' : length scr = n) by (subst scr; by rewrite length_map).
    destruct (mask_op_bits orb (squeeze big) (squeeze scr)) as (r & Hr & Hbits).
    { rewrite !mask_bits_squeeze. congruence. }
    rewrite !mask_bits_squeeze in Hbits.
    exists r. unfold lift. rewrite Hr. split; [done|]. split.
    + rewrite Hbits, length_zip_with. lia.
    + intros i Hi. rewrite Hbits, lookup_zip_with, Hbigi by done. simpl.
      subst scr. rewrite map_fmap, list_lookup_fmap.
      destruct (m2 !! i) as [x|] eqn:Hx; [done|].
      apply lookup_ge_None in Hx. lia.
  - exists (squeeze big). rewrite mask_bits_squeeze.
    split; [done|]. split; [done|]. intros i Hi.
    rewrite Hbigi by done. by rewrite orb_false_r.
Qed.

Lemma cull_mask_run (s : Model F) (extra : option bmask) (n : nat) :
  length (opacities (gauss_params s)) = n →
  length (scales (gauss_params s)) = n →
  (∀ e, extra = Some e → length (mask_bits e) = n) →
  (Config.refine_every (config s) * Config.reset_alpha_every (config s) < step s →
   step s < Config.stop_screen_size_at (config s) →
   ∃ m2, max_2Dsize s = Some m2 ∧ length m2 = n) →
  cull_mask_1d n extra →
  ∃ culls, cull_mask extra s = (s, Ok culls)
    ∧ one_dim culls
    ∧ length (mask_bits culls) = n
    ∧ ∀ i, (i < n)%nat → mask_bits culls !! i = Some (spec_cull_flag s extra i).
Proof.
  intros Ho Hs He Hm2 H1d. unfold cull_mask. rewrite bind_get. cbv zeta.
  set (base := map _ (opacities _)).
  assert (Hbase : length base = n) by (subst base; by rewrite length_map).
  assert (Hbasei : ∀ i, (i < n)%nat →
            base !! i = Some (default false
              ((λ o, Flt (Fsigmoid o) (Config.cull_alpha_thresh (config s)))
                 <$> opacities (gauss_params s) !! i))).
  { intros i Hi. subst base. rewrite map_fmap, list_lookup_fmap.
    destruct (opacities _ !! i) eqn:E; [done|]. apply lookup_ge_None in E. lia. }
  (* the base criterion and the extra mask *)
  assert (∃ c1, (match extra with
                 | Some e => lift (mask_op orb (squeeze base) e)
                 | None => mret (squeeze base)
                 end : M (Model F) bmask) s = (s, Ok c1)
                ∧ one_dim c1
                ∧ length (mask_bits c1) = n
                ∧ ∀ i, (i < n)%nat → mask_bits c1 !! i
                       = (b ← base !! i;
                          Some (b || match extra with
                                     | Some e => flag_at (mask_bits e) i
                                     | None => false
                                     end))) as (c1 & Hrun & Hd1 & Hc1 & Hc1i).
  { destruct extra as [e|].
    - destruct (mask_op_bits orb (squeeze base) e) as (r & Hr & Hbits).
      { rewrite mask_bits_squeeze, Hbase. symmetry. by apply He. }
      rewrite mask_bits_squeeze in Hbits.
      exists r. unfold lift. rewrite Hr. split; [done|]. split; [|split].
      + apply (mask_op_one_dim _ _ _ _ Hr).
        destruct H1d as [Hn|(e' & [= <-] & He')]; [left|by right].
        apply one_dim_squeeze. congruence.
      + rewrite Hbits, length_zip_with, Hbase, (He e) by done. lia.
      + intros i Hi. rewrite Hbits, lookup_zip_with. unfold flag_at.
        destruct (base !! i) as [b|] eqn:Hb; [simpl|done].
        destruct (mask_bits e !! i) as [b'|] eqn:Hb'; [done|].
        apply lookup_ge_None in Hb'. rewrite (He e) in Hb' by done. lia.
    - exists (squeeze base). rewrite mask_bits_squeeze.
      split; [done|]. split.
      { destruct H1d as [Hn|(e' & [=] & _)]. apply one_dim_squeeze. congruence. }
      split; [done|]. intros i Hi.
      destruct (base !! i); simpl; [|done]. by rewrite orb_false_r. }
  rewrite (bind_ok _ _ _ _ _ Hrun).
  unfold spec_cull_flag.
  destruct (Config.refine_every (config s) * Config.reset_alpha_every (config s)
            <? step s) eqn:Hgate.
  - destruct (too_big_run s n) as (tb & Htb & Hlen & Htbi); [done| |].
    { intros ?. apply Hm2; lia. }
    rewrite (bind_ok _ _ _ _ _ Htb).
    destruct (mask_op_bits orb c1 tb) as (culls & Hr & Hbits); [congruence|].
    exists culls. unfold lift. rewrite Hr. split; [done|]. split.
    { apply (mask_op_one_dim _ _ _ _ Hr). by left. }
    split.
    { rewrite Hbits, length_zip_with. lia. }
    intros i Hi.
    rewrite Hbits, lookup_zip_with, Hc1i, Htbi, Hbasei by done. done.
  - exists c1. split; [done|]. split; [done|]. split; [done|]. intros i Hi.
    rewrite Hc1i, Hbasei by done. simpl. by rewrite orb_false_r.
Qed.

Lemma cull_gaussians_run (s : Model F) (extra : option bmask) (n : nat) :
  aligned (gauss_params s) n →
  (∀ e, extra = Some e → length (mask_bits e) = n) →
  (Config.refine_every (config s) * Config.reset_alpha_every (config s) < step s →
   step s < Config.stop_screen_size_at (config s) →
   ∃ m2, max_2Dsize s = Some m2 ∧ length m2 = n) →
  cull_mask_1d n extra →
  ∃ culls,
    cull_gaussians extra s
    = (set_gauss_params
         (select_params (map negb (mask_bits culls)) (gauss_params s)) s, Ok culls)
    ∧ length (mask_bits culls) = n
    ∧ ∀ i, (i < n)%nat → mask_bits culls !! i = Some (spec_cull_flag s extra i).
Proof.
  intros Ha He Hm2 H1d.
  pose proof Ha as (H1 & H2 & H3 & H4 & H5 & H6).
  destruct (cull_mask_run s extra n) as (culls & Hrun & Hd & Hlen & Hi); try done.
  exists culls. split; [|done].
  unfold cull_gaussians. rewrite (bind_ok _ _ _ _ _ Hrun).
  erewrite bind_ok; last first.
  { apply for_each_param_gather, gather_select with (n := n);
      [done|by apply one_dim_not|].
    by rewrite mask_bits_not, length_map. }
  by rewrite mask_bits_not.
Qed.
End Cull.

Lemma length_repeat_rows {A} n (t : list A) :
  length (repeat_rows n t) = (n * length t)%nat.
Proof.
  unfold repeat_rows. induction n as [|n IH]; [done|].
  simpl. rewrite length_app, IH. lia.
Qed.

Lemma length_update_where {A} (f : A → A) m t :
  length (update_where f m t) = length t.
Proof.
  revert t. induction m as [|b m IH]; intros [|x t]; simpl; auto.
Qed.

Lemma bind_assoc {S A B C} (c : M S A) (k1 : A → M S B) (k2 : B → M S C) s :
  ((c ≫= k1) ≫= k2) s = (c ≫= λ a, k1 a ≫= k2) s.
Proof. unfold mbind, M_bind. by destruct (c s) as [s' [a|e]]. Qed.

Lemma bind_attr {S A B} (f : S → option A) (k : A → M S B) s a :
  f s = Some a → (attr f ≫= k) s = k a s.
Proof. unfold mbind, M_bind, attr. by intros ->. Qed.

Ltac mstep_with tac :=
  repeat (first [ rewrite bind_assoc | rewrite bind_get | rewrite bind_gets
                | rewrite bind_modify | rewrite bind_ret | rewrite bind_lift_ok
                | progress tac ];
          cbv beta zeta).

Section Grow.
Context {F : Type} `{!Scalar F} `{!Env F}.

Lemma length_randn3 pos n : length (randn3 (F:=F) pos n) = n.
Proof. unfold randn3. by rewrite length_map, length_seq. Qed.

Lemma split_children_aligned l samps pos (g : GaussParams F) n :
  aligned g n → length l = n →
  aligned (split_children l samps pos g) (samps * count_true l).
Proof.
  intros (H1 & H2 & H3 & H4 & H5 & H6) Hl.
  repeat split; simpl;
    rewrite ?length_zip_with, ?length_map, ?length_repeat_rows, ?length_map,
      ?length_randn3, ?select_length by congruence; lia.
Qed.

Lemma split_gaussians_run (s : Model F) l samps n :
  aligned (gauss_params s) n → n ≠ 0%nat → length l = n → 0 ≤ samps →
  split_gaussians (MaskN l) samps s
  = (split_state l (Z.to_nat samps) s,
     Ok (split_children l (Z.to_nat samps) (rng s) (gauss_params s))).
Proof.
  intros Ha Hn Hl Hs. pose proof Ha as (H1 & H2 & H3 & H4 & H5 & H6).
  assert (Hneg : (samps <? 0) = false) by (apply Z.ltb_ge; lia).
  assert (Hneg' : (samps * Z.of_nat (mask_sum (MaskN l)) <? 0) = false)
    by (apply Z.ltb_ge; nia).
  assert (Hk : Z.to_nat (samps * Z.of_nat (mask_sum (MaskN l)))
               = (Z.to_nat samps * count_true l)%nat)
    by (unfold mask_sum; simpl; lia).
  unfold split_gaussians, check_index, repeat_samps, num_points.
  mstep_with ltac:(first [ rewrite decide_True by congruence
                         | rewrite decide_False by congruence
                         | rewrite Hneg | rewrite Hneg' | rewrite Hk ]).
  reflexivity.
Qed.

Lemma dup_gaussians_run (s : Model F) m n :
  aligned (gauss_params s) n → n ≠ 0%nat → one_dim m → length (mask_bits m) = n →
  dup_gaussians m s = (s, Ok (select_params (mask_bits m) (gauss_params s))).
Proof.
  intros Ha Hn Hd Hm. pose proof Ha as (H1 & _).
  unfold dup_gaussians, num_points.
  mstep_with ltac:(rewrite decide_False by congruence).
  unfold lift. by erewrite gather_select.
Qed.

Lemma squeeze_MaskN l : (2 ≤ length l)%nat → squeeze l = MaskN l.
Proof. destruct l as [|b [|b' l]]; simpl; [lia..|done]. Qed.

Lemma high_grads_mask_run (s : Model F) gn vc m2 hw :
  xys_grad_norm s = Some gn → vis_counts s = Some vc → max_2Dsize s = Some m2 →
  last_size s = Some hw → length gn = length vc →
  high_grads_mask s = (s, Ok (squeeze (high_grad_flags s))).
Proof.
  intros Hgn Hvc Hm2 Hls Hlen. unfold high_grads_mask, high_grad_flags.
  rewrite bind_get, Hgn, Hvc, Hm2, Hls. destruct hw as [h w].
  mstep_with ltac:(rewrite broadcast2_same by done).
  by rewrite (bind_attr _ _ _ _ Hls).
Qed.

Lemma length_high_grad_flags (s : Model F) gn vc hw :
  xys_grad_norm s = Some gn → vis_counts s = Some vc → last_size s = Some hw →
  length (high_grad_flags s) = (length gn `min` length vc)%nat.
Proof.
  intros Hgn Hvc Hls. unfold high_grad_flags. rewrite Hgn, Hvc, Hls.
  destruct hw. by rewrite !length_map, length_zip_with.
Qed.

Lemma split_mask_run (s : Model F) hg m2 n :
  length (scales (gauss_params s)) = n → max_2Dsize s = Some m2 →
  length m2 = n → length hg = n →
  split_mask (squeeze hg) s = (s, Ok (squeeze (split_flags s hg))).
Proof.
  intros Hs Hm2 Hl Hhg. unfold split_mask, split_flags, size_flags, screen_flags.
  rewrite bind_get, Hm2. cbv beta zeta. simpl default.
  destruct (step s <? _).
  - mstep_with idtac. unfold lift at 1.
    rewrite mask_op_inplace_squeeze by (rewrite !length_map; congruence).
    rewrite bind_lift_ok. unfold lift.
    rewrite mask_op_inplace_squeeze; [done|].
    rewrite length_zip_with, !length_map. lia.
  - mstep_with idtac. unfold lift.
    rewrite mask_op_inplace_squeeze; [done|].
    rewrite !length_map. lia.
Qed.

Lemma dup_mask_run (s : Model F) hg n :
  length (scales (gauss_params s)) = n → length hg = n →
  dup_mask (squeeze hg) s = (s, Ok (squeeze (dup_flags s hg))).
Proof.
  intros Hs Hhg. unfold dup_mask, dup_flags.
  rewrite bind_get. cbv beta zeta. unfold lift.
  rewrite mask_op_inplace_squeeze; [done|].
  rewrite !length_map. lia.
Qed.

Lemma split_state_aligned l samps (s : Model F) n :
  aligned (gauss_params s) n → aligned (gauss_params (split_state l samps s)) n.
Proof.
  intros (H1 & H2 & H3 & H4 & H5 & H6).
  repeat split; simpl; rewrite ?length_update_where; done.
Qed.

Lemma length_split_flags (s : Model F) hg n :
  length (scales (gauss_params s)) = n →
  (∃ m2, max_2Dsize s = Some m2 ∧ length m2 = n) → length hg = n →
  length (split_flags s hg) = n.
Proof.
  intros Hs (m2 & Hm2 & Hl) Hhg. unfold split_flags, size_flags, screen_flags.
  rewrite Hm2. simpl. destruct (_ <? _);
    rewrite ?length_zip_with, ?length_map; lia.
Qed.

Lemma length_dup_flags (s : Model F) hg n :
  length (scales (gauss_params s)) = n → length hg = n →
  length (dup_flags s hg) = n.
Proof.
  intros Hs Hhg. unfold dup_flags. rewrite length_zip_with, length_map. lia.
Qed.

Lemma grow_run (s : Model F) n :
  ready_to_densify s n →
  let hg := high_grad_flags s in
  let sb := split_flags s hg in
  let s1 := split_state sb (Z.to_nat (Config.n_split_samples (config s))) s in
  grow s = (grown s, Ok (MaskN sb, MaskN (dup_flags s1 hg))).
Proof.
  intros (Ha & Hn & (gn & Hgn & Hlgn) & (vc & Hvc & Hlvc) & (m2 & Hm2 & Hlm2)
          & [hw Hls] & Hsamps) hg sb s1.
  pose proof Ha as (H1 & H2 & H3 & H4 & H5 & H6).
  assert (Hhg : length hg = n).
  { subst hg. erewrite length_high_grad_flags by done. lia. }
  assert (Hsb : length sb = n) by (apply length_split_flags; eauto).
  assert (Ha1 : aligned (gauss_params s1) n) by by apply split_state_aligned.
  assert (Hdb : length (dup_flags s1 hg) = n).
  { apply length_dup_flags; [|done]. apply Ha1. }
  unfold grow.
  erewrite bind_ok; [|eapply high_grads_mask_run; eauto; congruence].
  erewrite bind_ok; [|eapply split_mask_run; eauto].
  fold hg. fold sb. rewrite (squeeze_MaskN sb) by lia.
  rewrite bind_gets.
  erewrite bind_ok; [|eapply split_gaussians_run; eauto; lia].
  fold s1.
  erewrite bind_ok; [|eapply dup_mask_run; [apply Ha1|done]].
  rewrite (squeeze_MaskN (dup_flags s1 hg)) by lia.
  erewrite bind_ok; [|eapply dup_gaussians_run; [apply Ha1|lia|done|done]].
  rewrite bind_modify, bind_gets. simpl max_2Dsize. rewrite Hm2.
  rewrite bind_ret, bind_modify.
  unfold grown. rewrite Hm2. reflexivity.
Qed.
End Grow.

Lemma index_rows_ok {A} (t : list A) idcs :
  Forall (λ i, (i < length t)%nat) idcs →
  ∃ rows, index_rows t idcs = Ok rows ∧ length rows = length idcs.
Proof.
  intros Hi. unfold index_rows.
  destruct (mapM_is_Some_2 (λ i, t !! i) idcs) as [rows Hrows].
  { eapply Forall_impl; [done|]. intros i. apply lookup_lt_is_Some_2. }
  rewrite Hrows. exists rows. split; [done|].
  symmetry. by eapply length_mapM.
Qed.

Lemma where_true_lt k m : Forall (λ i, (i < k + length m)%nat) (where_true k m).
Proof.
  revert k. induction m as [|b m IH]; intros k; simpl; [constructor|].
  specialize (IH (S k)).
  assert (Forall (λ i, (i < k + S (length m))%nat) (where_true (S k) m)).
  { eapply Forall_impl; [done|]. simpl. intros; lia. }
  destruct b; [constructor; [lia|done]|done].
Qed.

Lemma length_where_true k m : length (where_true k m) = count_true m.
Proof.
  revert k. induction m as [|b m IH]; intros k; [done|].
  simpl. rewrite count_true_cons. destruct b; simpl; rewrite IH; lia.
Qed.

Section Optim.
Context {F : Type} `{!Scalar F} `{!Env F}.

Lemma on_model_run {A} (c : M (Model F) A) (t : Trainer F) m' r :
  c (model t) = (m', r) → on_model c t = (set_model m' t, r).
Proof. unfold on_model, zoom. by intros ->. Qed.

Lemma in_optim_run {A} getf setf (c : M (option (Adam A)) unit) (t : Trainer F) o o' r :
  getf (optimizers t) = Some o → c o = (o', r) →
  in_optim getf setf c t = (set_optimizers (setf (Some o') (optimizers t)) t, r).
Proof. unfold in_optim. by intros -> ->. Qed.

Lemma dup_in_optim_run {A} (zl : A → A) idcs k (o : option (option (Adam A))) n :
  synced_group o n → Forall (λ i, (i < n)%nat) idcs → 0 ≤ k →
  ∃ st st', o = Some st ∧ dup_in_optim zl idcs k st = (st', Ok tt)
    ∧ synced_group (Some st') (n + Z.to_nat k * length idcs).
Proof.
  intros (st & -> & Hst) Hi Hk. exists st.
  assert (Hneg : (k <? 0) = false) by (apply Z.ltb_ge; lia).
  unfold dup_in_optim. rewrite bind_get. destruct st as [a|].
  - destruct Hst as [H1 H2].
    destruct (index_rows_ok (exp_avg a) idcs) as (r1 & Hr1 & Hl1);
      [by rewrite H1|].
    destruct (index_rows_ok (exp_avg_sq a) idcs) as (r2 & Hr2 & Hl2);
      [by rewrite H2|].
    unfold zero_rows. rewrite Hr1, Hr2. simpl. rewrite Hneg.
    rewrite bind_lift_ok, bind_modify, bind_lift_ok.
    eexists. split; [done|]. split; [done|].
    eexists. split; [done|]. simpl.
    rewrite !length_app, !length_repeat_rows, !length_map. lia.
  - eexists. split; [done|]. split; [done|]. by eexists.
Qed.

Lemma dup_in_all_optim_run (t : Trainer F) idcs k n :
  synced (optimizers t) n → Forall (λ i, (i < n)%nat) idcs → 0 ≤ k →
  ∃ o', dup_in_all_optim idcs k t = (set_optimizers o' t, Ok tt)
        ∧ synced o' (n + Z.to_nat k * length idcs).
Proof.
  intros (S1 & S2 & S3 & S4 & S5 & S6) Hi Hk.
  destruct (dup_in_optim_run (λ _, zero3) idcs k _ n S1 Hi Hk) as (a1 & b1 & G1 & R1 & T1).
  destruct (dup_in_optim_run (λ _, zero3) idcs k _ n S2 Hi Hk) as (a2 & b2 & G2 & R2 & T2).
  destruct (dup_in_optim_run (λ _, zero4) idcs k _ n S3 Hi Hk) as (a3 & b3 & G3 & R3 & T3).
  destruct (dup_in_optim_run (λ _, zero3) idcs k _ n S4 Hi Hk) as (a4 & b4 & G4 & R4 & T4).
  destruct (dup_in_optim_run zeros_rest idcs k _ n S5 Hi Hk) as (a5 & b5 & G5 & R5 & T5).
  destruct (dup_in_optim_run (λ _, Fzero) idcs k _ n S6 Hi Hk) as (a6 & b6 & G6 & R6 & T6).
  exists (mkOptimizers (Some b1) (Some b2) (Some b3) (Some b4) (Some b5) (Some b6)).
  split; [|done].
  unfold dup_in_all_optim.
  erewrite bind_ok; [|eapply in_optim_run; [exact G1|exact R1]].
  erewrite bind_ok; [|eapply in_optim_run; [exact G2|exact R2]].
  erewrite bind_ok; [|eapply in_optim_run; [exact G3|exact R3]].
  erewrite bind_ok; [|eapply in_optim_run; [exact G4|exact R4]].
  erewrite bind_ok; [|eapply in_optim_run; [exact G5|exact R5]].
  erewrite in_optim_run; [|exact G6|exact R6].
  reflexivity.
Qed.

Lemma grown_aligned (s : Model F) n :
  ready_to_densify s n →
  let hg := high_grad_flags s in
  let sb := split_flags s hg in
  let samps := Z.to_nat (Config.n_split_samples (config s)) in
  let s1 := split_state sb samps s in
  let total := (n + samps * count_true sb + count_true (dup_flags s1 hg))%nat in
  aligned (gauss_params (grown s)) total
  ∧ ∃ m2, max_2Dsize (grown s) = Some m2 ∧ length m2 = total.
Proof.
  intros (Ha & Hn & (gn & Hgn & Hlgn) & (vc & Hvc & Hlvc) & (m2 & Hm2 & Hlm2)
          & [hw Hls] & Hsamps) hg sb samps s1 total.
  assert (Hhg : length hg = n).
  { subst hg. erewrite length_high_grad_flags by done. lia. }
  assert (Hsb : length sb = n) by (apply length_split_flags; [apply Ha|eauto|done]).
  assert (Ha1 : aligned (gauss_params s1) n) by by apply split_state_aligned.
  assert (Hdb : length (dup_flags s1 hg) = n).
  { apply length_dup_flags; [|done]. apply Ha1. }
  pose proof (split_children_aligned sb samps (rng s) _ n Ha Hsb) as Hc.
  pose proof (select_params_aligned _ _ n Ha1 Hdb) as Hd.
  destruct Ha1 as (A1 & A2 & A3 & A4 & A5 & A6).
  destruct Hc as (C1 & C2 & C3 & C4 & C5 & C6).
  destruct Hd as (D1 & D2 & D3 & D4 & D5 & D6).
  split.
  - change (gauss_params (grown s))
      with (cat_params (gauss_params s1)
              (split_children sb samps (rng s) (gauss_params s))
              (select_params (dup_flags s1 hg) (gauss_params s1))).
    unfold aligned, cat_params.
    cbn [means scales quats features_dc features_rest opacities].
    rewrite !length_app. subst total. lia.
  - change (max_2Dsize (grown s))
      with (Some (default [] (max_2Dsize s)
             ++ map (λ _, Fzero)
                  (scales (split_children sb samps (rng s) (gauss_params s)))
             ++ map (λ _, Fzero)
                  (scales (select_params (dup_flags s1 hg) (gauss_params s1))))).
    rewrite Hm2. eexists. split; [done|].
    cbn [default]. unfold id. rewrite !length_app, !length_map. subst total. lia.
Qed.

Lemma densify_run (t : Trainer F) n :
  ready_to_densify (model t) n → synced (optimizers t) n →
  let s := model t in
  let hg := high_grad_flags s in
  let sb := split_flags s hg in
  let samps := Z.to_nat (Config.n_split_samples (config s)) in
  let db := dup_flags (split_state sb samps s) hg in
  let total := (n + samps * count_true sb + count_true db)%nat in
  let extra := MaskN (sb ++ replicate (samps * count_true sb + count_true db) false) in
  ∃ o' culls,
    densify t
    = (mkTrainer
         (set_gauss_params
            (select_params (map negb (mask_bits culls)) (gauss_params (grown s)))
            (grown s)) o', Ok culls)
    ∧ synced o' total
    ∧ length (mask_bits culls) = total
    ∧ ∀ i, (i < total)%nat →
           mask_bits culls !! i = Some (spec_cull_flag (grown s) (Some extra) i).
Proof.
  intros Hready Hsync s hg sb samps db total extra.
  pose proof (grow_run s n Hready) as Hgrow.
  pose proof (grown_aligned s n Hready) as [Hal Hm2].
  cbv zeta in Hgrow, Hal, Hm2. fold hg sb samps db total in Hgrow, Hal, Hm2.
  destruct Hready as (Ha & Hn & (gn & Hgn & Hlgn) & (vc & Hvc & Hlvc)
                      & (m2 & Hm2' & Hlm2) & [hw Hls] & Hsamps).
  assert (Hhg : length hg = n).
  { subst hg. erewrite length_high_grad_flags by done. lia. }
  assert (Hsb : length sb = n) by (apply length_split_flags; [apply Ha|eauto|done]).
  assert (Hdb : length db = n).
  { apply length_dup_flags; [|done]. by apply split_state_aligned. }
  assert (Hs0 : 0 ≤ Config.n_split_samples (config s)) by exact Hsamps.
  unfold densify. rewrite bind_gets. fold s.
  erewrite bind_ok; [|apply on_model_run; exact Hgrow].
  cbv beta iota zeta.
  destruct (dup_in_all_optim_run (set_model (grown s) t) (where_true 0 sb)
              (Config.n_split_samples (config s)) n) as (o1 & Hr1 & Hs1);
    [done| |done|].
  { rewrite <- Hsb. apply (where_true_lt 0). }
  erewrite bind_ok; [|exact Hr1].
  destruct (dup_in_all_optim_run (set_optimizers o1 (set_model (grown s) t))
              (where_true 0 db) 1 _ Hs1) as (o2 & Hr2 & Hs2); [|done|].
  { eapply Forall_impl; [apply (where_true_lt 0)|]. cbv beta. rewrite Hdb. intros; lia. }
  erewrite bind_ok; [|exact Hr2].
  rewrite !length_where_true in *.
  assert (Hex : (Config.n_split_samples (config s) * Z.of_nat (mask_sum (MaskN sb))
                 + Z.of_nat (mask_sum (MaskN db)) <? 0) = false).
  { apply Z.ltb_ge. unfold mask_sum. cbn [mask_bits]. nia. }
  rewrite Hex, bind_ret, bind_ret.
  assert (Hext : Z.to_nat (Config.n_split_samples (config s)
                           * Z.of_nat (mask_sum (MaskN sb))
                           + Z.of_nat (mask_sum (MaskN db)))
                 = (samps * count_true sb + count_true db)%nat).
  { unfold mask_sum. cbn [mask_bits]. subst samps. nia. }
  rewrite Hext. fold extra.
  destruct (cull_gaussians_run (grown s) (Some extra) total) as (culls & Hc & Hl & Hi).
  { done. }
  { intros e [= <-]. simpl. rewrite length_app, length_replicate. subst total. lia. }
  { intros _ _. done. }
  { right. by exists extra. }
  exists o2, culls. split.
  - erewrite on_model_run; [|exact Hc]. reflexivity.
  - split; [|done]. replace total with (n + samps * count_true sb + Z.to_nat 1 * count_true db)%nat by (subst total; lia).
    exact Hs2.
Qed.
End Optim.

(** ** Scalars and flags *)

Section Scalars.
Context {F : Type} `{!Scalar F}.

Lemma Fle_not_Fgt (a b : F) : Fle a b = true → Fgt a b = false.
Proof. unfold Fle, Fgt. by destruct (Fcompare a b) as [[]|]. Qed.


End Scalars.

(** ** Weakest preconditions *)

Section Wp.
Context {S : Type}.
Implicit Types (E : S → Prop) (s : S).

Lemma wp_ret {A} (a : A) (Q : A → S → Prop) E s : Q a s → wp (mret a) Q E s.
Proof. done. Qed.
Lemma wp_raise {A} e (Q : A → S → Prop) E s : E s → wp (raise e) Q E s.
Proof. done. Qed.
Lemma wp_get (Q : S → S → Prop) E s : Q s s → wp get Q E s.
Proof. done. Qed.
Lemma wp_gets {A} (f : S → A) (Q : A → S → Prop) E s : Q (f s) s → wp (gets f) Q E s.
Proof. done. Qed.
Lemma wp_modify (f : S → S) (Q : unit → S → Prop) E s : Q tt (f s) → wp (modify f) Q E s.
Proof. done. Qed.
Lemma wp_lift {A} (r : result A) (Q : A → S → Prop) E s :
  (∀ a, r = Ok a → Q a s) → E s → wp (lift r) Q E s.
Proof. intros HQ HE. unfold wp, lift. destruct r; auto. Qed.
Lemma wp_assert b (Q : unit → S → Prop) E s :
  (b = true → Q tt s) → E s → wp (assert b) Q E s.
Proof. intros HQ HE. destruct b; [by apply HQ|done]. Qed.
Lemma wp_attr {A} (f : S → option A) (Q : A → S → Prop) E s :
  (∀ a, f s = Some a → Q a s) → E s → wp (attr f) Q E s.
Proof. intros HQ HE. unfold wp, attr. destruct (f s); auto. Qed.
Lemma wp_py_mod a b (Q : Z → S → Prop) E s :
  (b ≠ 0 → Q (a `mod` b) s) → E s → wp (py_mod a b) Q E s.
Proof.
  intros HQ HE. unfold py_mod. destruct (Z.eqb_spec b 0); [done|]. by apply HQ.
Qed.
Lemma wp_bind {A B} (c : M S A) (k : A → M S B) (Q : B → S → Prop) E s :
  wp c (λ a s', wp (k a) Q E s') E s → wp (c ≫= k) Q E s.
Proof. unfold wp, mbind, M_bind. by destruct (c s) as [s' [a|e]]. Qed.
Lemma wp_mono {A} (c : M S A) (Q Q' : A → S → Prop) E E' s :
  wp c Q E s → (∀ a s', Q a s' → Q' a s') → (∀ s', E s' → E' s') → wp c Q' E' s.
Proof. unfold wp. destruct (c s) as [s' [a|e]]; auto. Qed.
Lemma wp_steps {A} (R : relation S) (c : M S A) s :
  steps R c → wp c (λ _ s', R s s') (R s) s.
Proof. intros Hc. specialize (Hc s). unfold wp. by destruct (c s) as [s' [a|e]]. Qed.
Lemma steps_wp {A} (R : relation S) (c : M S A) :
  (∀ s, wp c (λ _ s', R s s') (R s) s) → steps R c.
Proof. intros Hc s. specialize (Hc s). unfold wp in Hc. by destruct (c s) as [s' [a|e]]. Qed.
End Wp.

Lemma wp_zoom {S T A} (rd : T → S) (wr : S → T → T) (c : M S A)
    (Q : A → T → Prop) (E : T → Prop) t :
  wp c (λ a s', Q a (wr s' t)) (λ s', E (wr s' t)) (rd t) → wp (zoom rd wr c) Q E t.
Proof. unfold wp, zoom. by destruct (c (rd t)) as [s' [a|e]]. Qed.

Ltac wp_step :=
  lazymatch goal with
  | |- wp (mbind _ _) _ _ _ => apply wp_bind
  | |- wp (mret _) _ _ _ => apply wp_ret
  | |- wp (raise _) _ _ _ => apply wp_raise
  | |- wp get _ _ _ => apply wp_get
  | |- wp (gets _) _ _ _ => apply wp_gets
  | |- wp (modify _) _ _ _ => apply wp_modify
  | |- wp (lift _) _ _ _ => apply wp_lift; [intros ? ?|]
  | |- wp (assert _) _ _ _ => apply wp_assert; [intros ?|]
  | |- wp (attr _) _ _ _ => apply wp_attr; [intros ? ?|]
  | |- wp (py_mod _ _) _ _ _ => apply wp_py_mod; [intros ?|]
  | |- wp (zoom _ _ _) _ _ _ => apply wp_zoom
  | |- wp (on_model _) _ _ _ => apply wp_zoom
  | |- wp (match ?x with _ => _ end) _ _ _ => destruct x eqn:?
  end.

Lemma index_mask_subseteq {A} (t r : list A) m : index_mask t m = Ok r → r ⊆ t.
Proof.
  destruct m as [b|l]; simpl.
  - destruct b; intros [= <-]. apply list_subseteq_nil.
  - case_decide; [|done]. intros [= <-]. apply sublist_subseteq, select_sublist.
Qed.


Lemma update_where_lookup {A} (f : A → A) m t i :
  update_where f m t !! i = (λ x, if flag_at m i then f x else x) <$> t !! i.
Proof.
  revert t i. induction m as [|b m IH]; intros t i.
  - assert (Hf : flag_at [] i = false) by (unfold flag_at; by rewrite lookup_nil).
    rewrite Hf. replace (update_where f [] t) with t by by destruct t.
    by destruct (t !! i).
  - destruct t as [|x t]; [done|]. destruct i as [|i]; [done|]. exact (IH t i).
Qed.

Section Reset.
Context {F : Type} `{!Scalar F} `{!Env F}.

#[global] Instance opacities_kept_preorder : PreOrder (opacities_kept (F:=F)).
Proof.
  split.
  - intros s. unfold opacities_kept. reflexivity.
  - intros x y z Hxy Hyz. unfold opacities_kept in *.
    etrans; [exact Hyz|exact Hxy].
Qed.

Lemma cull_mask_same extra : preserves (@id (Model F)) (cull_mask extra).
Proof. unfold cull_mask, too_big. frame. Qed.

Lemma for_each_param_index_kept m :
  steps opacities_kept (for_each_param (F:=F) (λ A t, index_mask t m)).
Proof.
  intros s. unfold for_each_param, set_param, opacities_kept.
  cbv [mbind M_bind mret M_ret gets get modify lift]. simpl.
  repeat (match goal with
          | |- context [index_mask ?t m] =>
              let E := fresh "E" in destruct (index_mask t m) eqn:E; simpl; try done
          end).
  by eapply index_mask_subseteq.
Qed.

Lemma cull_gaussians_kept extra : steps opacities_kept (cull_gaussians (F:=F) extra).
Proof.
  unfold cull_gaussians. apply steps_bind; [tc_solve| |intros culls].
  - intros s. pose proof (cull_mask_same extra s) as Hs. unfold same, id in Hs.
    rewrite Hs. reflexivity.
  - apply steps_bind; [tc_solve| |intros; apply steps_ret; tc_solve].
    apply for_each_param_index_kept.
Qed.

Lemma wp_same {A} (c : M (Model F) A) (Q : A → Model F → Prop) E s :
  preserves (@id (Model F)) c → (∀ a, Q a s) → E s → wp c Q E s.
Proof.
  intros Hc HQ HE. specialize (Hc s). unfold same, id, wp in *.
  destruct (c s) as [s' [a|e]]; simpl in *; subst; auto.
Qed.

Lemma repeat_rows_subseteq {A} n (t : list A) : repeat_rows n t ⊆ t.
Proof.
  unfold repeat_rows. induction n as [|n IH]; simpl.
  - apply list_subseteq_nil.
  - intros x [?|?]%elem_of_app; auto.
Qed.

Lemma split_gaussians_wp m samps (s : Model F) :
  wp (split_gaussians m samps)
     (λ sp s', opacities (gauss_params s') = opacities (gauss_params s)
               ∧ opacities sp ⊆ opacities (gauss_params s))
     (λ s', opacities (gauss_params s') = opacities (gauss_params s)) s.
Proof.
  unfold split_gaussians, check_index, repeat_samps.
  repeat (first [wp_step | progress cbv beta zeta]); try done.
  cbn [opacities]. split; [done|].
  etrans; [apply repeat_rows_subseteq|]. apply sublist_subseteq, select_sublist.
Qed.

Lemma gather_opacities m (g dp : GaussParams F) :
  gather (λ A t, index_mask t m) g = Ok dp → opacities dp ⊆ opacities g.
Proof.
  unfold gather.
  destruct (index_mask (means g) m); [simpl|done].
  destruct (index_mask (scales g) m); [simpl|done].
  destruct (index_mask (quats g) m); [simpl|done].
  destruct (index_mask (features_dc g) m); [simpl|done].
  destruct (index_mask (features_rest g) m); [simpl|done].
  destruct (index_mask (opacities g) m) eqn:E; [simpl|done].
  intros [= <-]. simpl. by eapply index_mask_subseteq.
Qed.

Lemma dup_gaussians_wp m (s : Model F) :
  wp (dup_gaussians m)
     (λ dp s', s' = s ∧ opacities dp ⊆ opacities (gauss_params s))
     (λ s', s' = s) s.
Proof.
  unfold dup_gaussians.
  repeat (first [wp_step | progress cbv beta zeta]); try done.
  split; [done|]. by eapply gather_opacities.
Qed.

Lemma high_grads_mask_same : preserves (@id (Model F)) high_grads_mask.
Proof. unfold high_grads_mask. frame. Qed.
Lemma split_mask_same hg : preserves (@id (Model F)) (split_mask hg).
Proof. unfold split_mask. frame. Qed.
Lemma dup_mask_same hg : preserves (@id (Model F)) (dup_mask hg).
Proof. unfold dup_mask. frame. Qed.

Lemma grow_kept : steps opacities_kept (grow (F:=F)).
Proof.
  apply steps_wp. intros s. unfold grow, opacities_kept.
  wp_step. apply wp_same; [apply high_grads_mask_same| |done]. intros hg.
  wp_step. apply wp_same; [apply split_mask_same| |done]. intros splits.
  wp_step. wp_step.
  wp_step. eapply wp_mono; [apply split_gaussians_wp| |].
  2:{ intros s1 ->. done. }
  intros sp s1 [Ho Hsp]. cbv beta.
  wp_step. apply wp_same; [apply dup_mask_same| |by rewrite Ho]. intros dups.
  wp_step. eapply wp_mono; [apply dup_gaussians_wp| |].
  2:{ intros s2 ->. by rewrite Ho. }
  intros dp s2 [-> Hdp]. cbv beta.
  assert (Hcat : opacities (cat_params (gauss_params s1) sp dp)
                 ⊆ opacities (gauss_params s)).
  { cbn [cat_params opacities]. rewrite Ho in Hdp.
    intros x [?|[?|?]%elem_of_app]%elem_of_app; [by rewrite <- Ho|auto..]. }
  repeat (first [wp_step | progress cbv beta zeta]); done.
Qed.

#[global] Instance opacities_kept_in_preorder : PreOrder (opacities_kept_in (F:=F)).
Proof.
  split.
  - intros t. unfold opacities_kept_in. reflexivity.
  - intros x y z Hxy Hyz. unfold opacities_kept_in in *. by etrans.
Qed.

Lemma on_model_kept {A} (c : M (Model F) A) :
  steps opacities_kept c → steps opacities_kept_in (on_model c).
Proof.
  intros Hc t. specialize (Hc (model t)). unfold on_model, zoom, opacities_kept_in.
  by destruct (c (model t)) as [s' r].
Qed.

Lemma model_kept {A} (c : M (Trainer F) A) :
  preserves (@model F) c → steps opacities_kept_in c.
Proof.
  intros Hc t. specialize (Hc t). unfold same, opacities_kept_in in *.
  rewrite Hc. reflexivity.
Qed.

Lemma in_optim_model {A} getf setf (c : M (option (Adam A)) unit) :
  preserves (@model F) (in_optim getf setf c).
Proof.
  intros t. unfold in_optim, same. destruct (getf (optimizers t)); [|done].
  by destruct (c o).
Qed.

Lemma dup_in_all_optim_model idcs n : preserves (@model F) (dup_in_all_optim idcs n).
Proof. unfold dup_in_all_optim. frame; apply in_optim_model. Qed.

Lemma remove_from_all_optim_model m : preserves (@model F) (remove_from_all_optim m).
Proof. unfold remove_from_all_optim. frame; apply in_optim_model. Qed.

Lemma densify_kept : steps opacities_kept_in (densify (F:=F)).
Proof.
  unfold densify.
  apply steps_bind; [tc_solve|apply steps_gets; tc_solve|intros nsamps].
  apply steps_bind; [tc_solve|apply on_model_kept, grow_kept|intros [splits dups]].
  apply steps_bind; [tc_solve|apply model_kept, dup_in_all_optim_model|intros _].
  apply steps_bind; [tc_solve|apply model_kept, dup_in_all_optim_model|intros _].
  apply steps_bind; [tc_solve| |intros _].
  { destruct (_ <? _); [apply steps_raise|apply steps_ret]; tc_solve. }
  apply steps_bind; [tc_solve| |intros m].
  { destruct splits; [apply steps_raise|apply steps_ret]; tc_solve. }
  apply on_model_kept, cull_gaussians_kept.
Qed.

(** Outside the steps at which the reset is due, [refinement_after]
    rewrites no opacity. *)
Lemma refinement_after_kept (t : Trainer F) step_ :
  ¬ reset_due (model t) →
  opacities_kept_in t (refinement_after step_ t).1.
Proof.
  intros Hnot.
  enough (wp (refinement_after step_) (λ _ t', opacities_kept_in t t')
             (opacities_kept_in t) t) as Hwp.
  { unfold wp in Hwp. by destruct (refinement_after step_ t) as [t' [[]|e]]. }
  unfold refinement_after.
  wp_step. wp_step. cbv beta zeta.
  wp_step. wp_step; [|reflexivity].
  destruct (Z.leb_spec (step (model t)) (Config.warmup_length (config (model t))))
    as [Hw|Hw]; [wp_step; reflexivity|].
  (* do_densification *)
  wp_step.
  eapply wp_mono with (Q := λ _ t', t' = t) (E := λ t', t' = t);
    [|intros do_densification t' ->|intros t' ->; reflexivity].
  { destruct (_ <? _); repeat wp_step; done. }
  (* deleted_mask *)
  wp_step.
  eapply wp_mono with (Q := λ _ t', opacities_kept_in t t')
                      (E := opacities_kept_in t);
    [|intros deleted t1 H1|done].
  { destruct do_densification.
    - wp_step. eapply wp_mono; [apply wp_steps, densify_kept| |done].
      intros d t1 H1. by wp_step.
    - destruct (_ && _).
      + wp_step. eapply wp_mono;
          [apply wp_steps, on_model_kept, cull_gaussians_kept| |done].
        intros d t1 H1. by wp_step.
      + wp_step. reflexivity. }
  wp_step.
  eapply wp_mono with (Q := λ _ t', opacities_kept_in t t')
                      (E := opacities_kept_in t);
    [|intros _ t2 H2|done].
  { destruct deleted as [d|]; [|by wp_step].
    eapply wp_mono; [apply wp_steps, model_kept, remove_from_all_optim_model|..];
      intros; by etrans. }
  (* do_reset *)
  wp_step.
  eapply wp_mono with (Q := λ b t', b = false ∧ opacities_kept_in t t')
                      (E := opacities_kept_in t);
    [|intros b t3 [-> H3]|done].
  { destruct (Z.ltb_spec (step (model t)) (Config.stop_split_at (config (model t))))
      as [Hs|Hs]; [|by wp_step].
    wp_step. wp_step; [|done]. wp_step. split; [|done].
    apply Z.eqb_neq. intros Heq. apply Hnot. unfold reset_due. auto. }
  wp_step. wp_step.
  repeat (first [wp_step | progress cbv beta zeta]).
  etrans; [exact H3|]. unfold opacities_kept_in, opacities_kept. reflexivity.
Qed.

Lemma gauss_params_set (g : GaussParams F) (s : Model F) :
  gauss_params (set_gauss_params g s) = g.
Proof. done. Qed.

Lemma clamp_max_idemp (c x : F) :
  Fgt c c = false → clamp_max c (clamp_max c x) = clamp_max c x.
Proof.
  intros Hc. unfold clamp_max. destruct (Fgt x c) eqn:E; [by rewrite Hc|by rewrite E].
Qed.

Lemma clamp_max_below (c x : F) : Fle x c = true → clamp_max c x = x.
Proof. intros Hle. unfold clamp_max. by rewrite Fle_not_Fgt. Qed.

Lemma clamp_max_bound (c x : F) : Fgt c c = false → Fgt (clamp_max c x) c = false.
Proof. intros Hc. unfold clamp_max. by destruct (Fgt x c) eqn:E. Qed.

Lemma reset_opacities_run (t : Trainer F) a :
  opt_opacities (optimizers t) = Some (Some a) →
  ∃ o' a',
    opt_opacities o' = Some (Some a')
    ∧ reset_opacities t
      = (mkTrainer
           (set_gauss_params
              (set_opacities
                 (map (clamp_max (Flogit (reset_value (config (model t)))))
                      (opacities (gauss_params (model t))))
                 (gauss_params (model t))) (model t)) o', Ok tt).
Proof.
  intros Ho. unfold reset_opacities. rewrite bind_gets.
  erewrite bind_ok; [|apply on_model_run; reflexivity].
  erewrite in_optim_run; [|exact Ho|reflexivity].
  eexists _, _. split; [|reflexivity]. reflexivity.
Qed.

Lemma refinement_after_reset (t : Trainer F) a :
  reset_due (model t) → 0 ≤ num_train_data (model t) →
  opt_opacities (optimizers t) = Some (Some a) →
  ∃ t',
    refinement_after (step (model t)) t = (t', Ok tt)
    ∧ gauss_params (model t')
      = set_opacities
          (map (clamp_max (Flogit (reset_value (config (model t)))))
               (opacities (gauss_params (model t))))
          (gauss_params (model t)).
Proof.
  intros (Hw & Hs & Hi & Hmod) Hn Ho.
  destruct (reset_opacities_run t a Ho) as (o' & a' & _ & Hreset).
  unfold refinement_after. rewrite bind_gets. cbv zeta.
  rewrite Z.eqb_refl. unfold assert. rewrite bind_ret.
  rewrite (proj2 (Z.leb_gt _ _) Hw).
  rewrite (proj2 (Z.ltb_lt _ _) Hs).
  unfold py_mod. rewrite (proj2 (Z.eqb_neq _ _) Hi).
  rewrite bind_assoc, bind_ret, bind_ret, Hmod.
  rewrite (proj2 (Z.ltb_ge _ _)) by lia.
  rewrite (proj2 (Z.leb_gt _ _) Hs). cbn [andb].
  rewrite bind_ret. cbv beta iota. rewrite bind_ret.
  rewrite bind_assoc, bind_ret, bind_ret, Z.eqb_refl.
  erewrite bind_ok; [|exact Hreset].
  eexists. split; [reflexivity|]. reflexivity.
Qed.

Lemma reset_opacities_twice (t : Trainer F) a :
  (∀ x : F, Fgt x x = false) →
  opt_opacities (optimizers t) = Some (Some a) →
  gauss_params (model ((reset_opacities ≫= λ _, reset_opacities) t).1)
  = gauss_params (model (reset_opacities t).1).
Proof.
  intros Hirr Ho.
  destruct (reset_opacities_run t a Ho) as (o1 & a1 & Ho1 & Hr1).
  erewrite bind_ok; [|exact Hr1]. rewrite Hr1.
  match goal with
  | |- context [reset_opacities ?t1] =>
      destruct (reset_opacities_run t1 a1 Ho1) as (o2 & a2 & _ & Hr2)
  end.
  rewrite Hr2. cbn [fst model]. rewrite !gauss_params_set.
  unfold set_opacities.
  cbn [means scales quats features_dc features_rest opacities config
       set_gauss_params].
  f_equal.
  rewrite !map_fmap, <- list_fmap_compose. apply list_fmap_ext.
  intros i x _. simpl. by apply clamp_max_idemp.
Qed.
End Reset.

(** ** The duplicate mask after the split *)

Section Overlap.
Context {F : Type} `{!Scalar F} `{!Env F}.


End Overlap.

(** ** Rendering *)


Section Render.
Context {F : Type} `{!Scalar F} `{!Env F}.

Lemma downscale_factor_pos (s : Model F) : 0 < downscale_factor s.
Proof.
  unfold downscale_factor. destruct (training s); [|done].
  apply Z.pow_pos_nonneg; lia.
Qed.

Lemma _get_downscale_factor_run (s : Model F) :
  (training s = true → Config.resolution_schedule (config s) ≠ 0) →
  _get_downscale_factor s = (s, Ok (downscale_factor s)).
Proof.
  intros Hr. unfold _get_downscale_factor, downscale_factor.
  rewrite bind_get. destruct (training s); [|done].
  unfold py_floordiv. rewrite (proj2 (Z.eqb_neq _ _)) by auto.
  by rewrite bind_ret.
Qed.

End Render.

(** ** Loss *)

Lemma bind_inv_ok {S A B} (c : M S A) (k : A → M S B) s s' b :
  (c ≫= k) s = (s', Ok b) → ∃ s1 a, c s = (s1, Ok a) ∧ k a s1 = (s', Ok b).
Proof.
  unfold mbind, M_bind. destruct (c s) as [s1 [a|e]]; [|done]. by exists s1, a.
Qed.

Section Loss.
Context {F : Type} `{!Scalar F} `{!Env F}.






End Loss.

(** ** Checkpoints *)

Section Checkpoint.
Context {F : Type} `{!Scalar F} `{!Env F}.

Lemma flat3_cons a b c (l : list (vec3 F)) :
  flat3 ((a, b, c) :: l) = a :: b :: c :: flat3 l.
Proof. done. Qed.
Lemma flat4_cons a b c d (l : list (quat F)) :
  flat4 ((a, b, c, d) :: l) = a :: b :: c :: d :: flat4 l.
Proof. done. Qed.

Lemma chunk3_flat3 (l : list (vec3 F)) : chunk3 (flat3 l) = l.
Proof.
  induction l as [|[[a b] c] l IH]; [done|].
  rewrite flat3_cons. cbn [chunk3]. by rewrite IH.
Qed.

Lemma chunk4_flat4 (l : list (quat F)) : chunk4 (flat4 l) = l.
Proof.
  induction l as [|[[[a b] c] d] l IH]; [done|].
  rewrite flat4_cons. cbn [chunk4]. by rewrite IH.
Qed.

Lemma length_flat3 (l : list (vec3 F)) : length (flat3 l) = (3 * length l)%nat.
Proof.
  induction l as [|[[a b] c] l IH]; [done|].
  rewrite flat3_cons. cbn [length]. rewrite IH. lia.
Qed.

Lemma chunks_flat (b : nat) (l : list (list (vec3 F))) :
  Forall (λ r, length r = b) l →
  map chunk3 (chunks (length l) (3 * b) (l ≫= flat3)) = l.
Proof.
  induction 1 as [|r l Hr _ IH]; [done|].
  cbn [length chunks mbind list_bind]. 
  change ((r :: l) ≫= flat3) with (flat3 r ++ (l ≫= flat3)).
  rewrite take_app_length', drop_app_length' by (rewrite length_flat3; lia).
  cbn [map]. by rewrite chunk3_flat3, IH.
Qed.

Lemma gauss_key_ne (p q : string) : p ≠ q → gauss_key p ≠ gauss_key q.
Proof. unfold gauss_key. intros Hne [=]. done. Qed.

Ltac key_ne := let Hk := fresh in intros Hk; vm_compute in Hk; discriminate.

Lemma state_dict_means (s : Model F) :
  state_dict s !! gauss_key "means" = Some (means_tensor (means (gauss_params s))).
Proof. unfold state_dict. by rewrite lookup_insert_eq. Qed.
Lemma state_dict_scales (s : Model F) :
  state_dict s !! gauss_key "scales" = Some (means_tensor (scales (gauss_params s))).
Proof.
  unfold state_dict. rewrite lookup_insert_ne by key_ne. by rewrite lookup_insert_eq.
Qed.
Lemma state_dict_quats (s : Model F) :
  state_dict s !! gauss_key "quats" = Some (quats_tensor (quats (gauss_params s))).
Proof.
  unfold state_dict. rewrite !lookup_insert_ne by key_ne. by rewrite lookup_insert_eq.
Qed.
Lemma state_dict_features_dc (s : Model F) :
  state_dict s !! gauss_key "features_dc"
  = Some (means_tensor (features_dc (gauss_params s))).
Proof.
  unfold state_dict. rewrite !lookup_insert_ne by key_ne. by rewrite lookup_insert_eq.
Qed.
Lemma state_dict_features_rest (s : Model F) :
  state_dict s !! gauss_key "features_rest"
  = Some (rest_tensor (rest_bases s) (features_rest (gauss_params s))).
Proof.
  unfold state_dict. rewrite !lookup_insert_ne by key_ne. by rewrite lookup_insert_eq.
Qed.
Lemma state_dict_opacities (s : Model F) :
  state_dict s !! gauss_key "opacities"
  = Some (opacities_tensor (opacities (gauss_params s))).
Proof.
  unfold state_dict. rewrite !lookup_insert_ne by key_ne. by rewrite lookup_insert_eq.
Qed.

Lemma state_dict_other (s : Model F) k :
  Forall (λ p, k ≠ gauss_key p) param_keys → state_dict s !! k = child_state s !! k.
Proof.
  intros Hk. unfold param_keys in Hk.
  repeat (apply Forall_cons in Hk as [? Hk]).
  unfold state_dict. by rewrite !lookup_insert_ne by done.
Qed.

Lemma state_dict_plain_means (s : Model F) :
  state_dict s !! "means"%string = child_state s !! "means"%string.
Proof.
  apply state_dict_other. unfold param_keys. repeat constructor; key_ne.
Qed.

Lemma resize_params_run (n : nat) (s : Model F) :
  resize_params n s = (set_gauss_params (zero_params n (rest_bases s)) s, Ok tt).
Proof. reflexivity. Qed.

(** Loading the six entries of a saved model into a store resized to its
    count: all is copied when the trailing shape of [features_rest] agrees. *)
Lemma load_gauss_params_saved (saved mid : Model F) strict :
  store_wf saved →
  gauss_params mid = zero_params (num_points saved) (rest_bases mid) →
  load_gauss_params (state_dict saved) strict mid
  = if decide (rest_bases saved = rest_bases mid)
    then (set_gauss_params (gauss_params saved) mid, Ok true)
    else (set_gauss_params
            (set_features_rest
               (replicate (num_points saved) (replicate (rest_bases mid) zero3))
               (gauss_params saved))
            mid, Ok false).
Proof.
  intros [(H1 & H2 & H3 & H4 & H5 & H6) Hrows] Hmid.
  unfold load_gauss_params, load_param. rewrite bind_get. cbv zeta.
  rewrite state_dict_means, state_dict_scales, state_dict_quats,
    state_dict_features_dc, state_dict_features_rest, state_dict_opacities.
  rewrite Hmid. cbn [zero_params means scales quats features_dc features_rest
                     opacities shape data means_tensor quats_tensor rest_tensor
                     opacities_tensor].
  rewrite !length_replicate, H2, H3, H4, H5, H6.
  change (length (means (gauss_params saved))) with (num_points saved).
  rewrite !(decide_True (P := [num_points saved; _] = _)) by done.
  repeat (rewrite bind_assoc || rewrite bind_modify || rewrite bind_ret).
  destruct (decide (rest_bases saved = rest_bases mid)) as [Hb|Hb].
  - rewrite decide_True by (by rewrite Hb).
    repeat (rewrite bind_assoc || rewrite bind_modify || rewrite bind_ret).
    rewrite !chunk3_flat3, chunk4_flat4. rewrite <- Hb, <- H5.
    rewrite chunks_flat by done.
    unfold mret, M_ret, set_gp. clear.
    generalize (gauss_params saved). intros [a1 a2 a3 a4 a5 a6].
    by destruct mid as [c0 n0 [b1 b2 b3 b4 b5 b6] rb cs st tr bg x1 x2 x3 x4 x5 x6 x7].
  - rewrite decide_False by congruence.
    repeat (rewrite bind_assoc || rewrite bind_modify || rewrite bind_ret).
    rewrite !chunk3_flat3, chunk4_flat4.
    unfold mret, M_ret, set_gp. clear -Hmid. revert Hmid.
    generalize (gauss_params saved). intros [a1 a2 a3 a4 a5 a6].
    destruct mid as [c0 n0 [b1 b2 b3 b4 b5 b6] rb cs st tr bg x1 x2 x3 x4 x5 x6 x7].
    cbn. intros [= -> -> -> -> -> ->]. done.
Qed.

Lemma load_children_gauss_params d strict l :
  preserves (@gauss_params F) (load_children d strict l).
Proof.
  induction l as [|[k cur] l IH]; cbn [load_children]; frame; [|done].
  unfold load_child, load_param. frame.
Qed.

Lemma load_children_ok d strict (l : list (string * tensor F)) (s : Model F) :
  Forall (λ kc, ∃ t, d !! kc.1 = Some t ∧ shape t = shape kc.2) l →
  (load_children d strict l s).2 = Ok true.
Proof.
  intros Hl. revert s.
  induction Hl as [|[k cur] l (t & Hk & Hsh) _ IH]; intros s; [done|].
  cbn [load_children fst snd] in *.
  unfold load_child at 1, load_param. rewrite Hk, decide_True by done.
  repeat (rewrite bind_assoc || rewrite bind_modify || rewrite bind_ret).
  match goal with |- ((load_children d strict l ≫= _) ?s1).2 = _ =>
    specialize (IH s1); destruct (load_children d strict l s1) as [s2 r] eqn:Hrun
  end.
  cbn [snd] in IH. subst r. by rewrite (bind_ok _ _ _ _ _ Hrun).
Qed.

Lemma dom_state_dict (s : Model F) :
  dom (state_dict s) = list_to_set (map gauss_key param_keys) ∪ dom (child_state s).
Proof.
  unfold state_dict, param_keys. rewrite !dom_insert_L. cbn [map list_to_set].
  rewrite !(assoc_L (∪)). by rewrite (right_id_L ∅ (∪)).
Qed.

Lemma same_modules_dom (saved live : Model F) :
  same_modules saved live → dom (child_state live) = dom (child_state saved).
Proof.
  intros [_ Hk]. apply set_eq. intros k. rewrite !elem_of_dom.
  specialize (Hk k). rewrite <- !fmap_is_Some with (f := shape). by rewrite Hk.
Qed.

Lemma child_keys_other (s : Model F) k :
  child_keys_ok s → is_Some (child_state s !! k) →
  Forall (λ p, k ≠ gauss_key p) param_keys.
Proof.
  intros [_ Hs] Hk. eapply Forall_impl; [exact Hs|].
  intros p Hp ->. rewrite Hp in Hk. by destruct Hk.
Qed.

Lemma load_state_dict_resize (saved live : Model F) strict :
  child_keys_ok saved →
  load_state_dict (state_dict saved) strict live
  = (module_load_state_dict (state_dict saved) strict;; mret (state_dict saved))
      (resized saved live).
Proof.
  intros [Hm _]. unfold load_state_dict. rewrite bind_modify.
  rewrite state_dict_plain_means, Hm.
  rewrite bool_decide_eq_false_2 by (by intros [? ?]).
  rewrite bind_ret, state_dict_means, bind_ret.
  unfold means_tensor. cbv beta iota delta [shape]. rewrite bind_ret.
  by rewrite (bind_ok _ _ _ _ _ (resize_params_run _ _)).
Qed.

Lemma module_load_state_dict_saved (saved mid : Model F) strict s' :
  store_wf saved →
  gauss_params mid = zero_params (num_points saved) (rest_bases mid) →
  module_load_state_dict (state_dict saved) strict mid = (s', Ok tt) →
  gauss_params s' = gauss_params saved.
Proof.
  intros Hwf Hmid. unfold module_load_state_dict. rewrite bind_get.
  pose proof (load_gauss_params_saved saved mid strict Hwf Hmid) as Hg.
  destruct (decide (rest_bases saved = rest_bases mid)) as [Hb|Hb].
  - rewrite (bind_ok _ _ _ _ _ Hg).
    pose proof (load_children_gauss_params (state_dict saved) strict
                  (map_to_list (child_state mid))
                  (set_gauss_params (gauss_params saved) mid)) as Hc.
    destruct (load_children _ _ _ _) as [s1 [ok'|e]] eqn:Hrun.
    + rewrite (bind_ok _ _ _ _ _ Hrun). unfold same in Hc. cbn [fst] in Hc.
      destruct (_ && _ && _); intros [= <-]. by rewrite Hc, gauss_params_set.
    + by rewrite (bind_raise _ _ _ _ _ Hrun).
  - rewrite (bind_ok _ _ _ _ _ Hg).
    match goal with |- (load_children ?d ?st ?l ≫= _) ?s0 = _ → _ =>
      destruct (load_children d st l s0) as [s1 [ok'|e]] eqn:Hrun
    end.
    + by rewrite (bind_ok _ _ _ _ _ Hrun).
    + by rewrite (bind_raise _ _ _ _ _ Hrun).
Qed.

Lemma module_load_state_dict_run (saved mid : Model F) strict :
  store_wf saved → child_keys_ok saved → same_modules saved mid →
  gauss_params mid = zero_params (num_points saved) (rest_bases mid) →
  (module_load_state_dict (state_dict saved) strict mid).2 = Ok tt.
Proof.
  intros Hwf Hkeys Hsame Hmid. unfold module_load_state_dict. rewrite bind_get.
  pose proof (load_gauss_params_saved saved mid strict Hwf Hmid) as Hg.
  rewrite decide_True in Hg by (symmetry; apply Hsame).
  rewrite (bind_ok _ _ _ _ _ Hg).
  match goal with |- ((load_children ?d _ ?l ≫= _) ?s1).2 = _ =>
    pose proof (load_children_ok d strict l s1) as Hc;
    destruct (load_children d strict l s1) as [s2 r] eqn:Hrun
  end.
  cbn [snd] in Hc. rewrite Hc in Hrun.
  - rewrite (bind_ok _ _ _ _ _ Hrun).
    rewrite dom_state_dict, (same_modules_dom _ _ Hsame).
    rewrite bool_decide_eq_true_2 by done. by rewrite orb_true_r.
  - apply Forall_forall. intros [k cur] Hin%elem_of_map_to_list. cbn [fst snd].
    destruct Hsame as [_ Hsh]. specialize (Hsh k). rewrite Hin in Hsh.
    destruct (child_state saved !! k) as [t|] eqn:Ht; [|done].
    exists t. split; [|by injection Hsh].
    rewrite state_dict_other; [done|]. by eapply child_keys_other.
Qed.
End Checkpoint.

(** ** Binary32 *)

Lemma Fgt_irrefl (x : spec_float) : Fgt (Scalar0 := Binary32.scalar) x x = false.
Proof.
  unfold Fgt. cbn [Fcompare Binary32.scalar].
  destruct x as [s|s| |s m e]; [by destruct s|by destruct s|done|].
  unfold SFcompare. destruct s; by rewrite Z.compare_refl, Pos.compare_refl.
Qed.

(** * The claims *)

Section Claims.
Context {F : Type} `{!Scalar F} `{!Env F}.

Lemma spec_cull_flag_extra (s : Model F) e i :
  spec_cull_flag s (Some e) i
  = flag_at (mask_bits e) i || spec_cull_flag s None i.
Proof.
  unfold spec_cull_flag.
  destruct (default false (_ <$> opacities _ !! i)), (flag_at _ i); done.
Qed.


(** C3.  One densification event on a store of [n] primitives whose
    optimizer state is in step with it: with [k] primitives selected for
    the split and [d] for duplication, [k * n_split_samples] children and
    [d] copies are appended, the mask handed to the cull marks exactly the
    [k] parents, and - when no other primitive meets the alpha or size
    criteria - the event returns with [n + k * (n_split_samples - 1) + d]
    primitives: the parents are gone, and every other primitive, the
    duplicated originals included, is kept in order. *)
Theorem split_conservation (t : Trainer F) (n : nat) :
  ready_to_densify (model t) n → synced (optimizers t) n →
  let s := model t in
  let hg := high_grad_flags s in
  let sb := split_flags s hg in
  let nsamps := Config.n_split_samples (config s) in
  let db := dup_flags (split_state sb (Z.to_nat nsamps) s) hg in
  let k := count_true sb in
  let d := count_true db in
  let marks := sb ++ replicate (Z.to_nat nsamps * k + d) false in
  (∀ i, (i < length marks)%nat → flag_at marks i = false →
        spec_cull_flag (grown s) None i = false) →
  ∃ t' deleted,
    densify t = (t', Ok deleted)
    ∧ Z.of_nat (num_points (grown s)) = Z.of_nat n + Z.of_nat k * nsamps + Z.of_nat d
    ∧ mask_bits deleted = marks
    ∧ Z.of_nat (num_points (model t'))
      = Z.of_nat n + Z.of_nat k * (nsamps - 1) + Z.of_nat d
    ∧ (∀ i, (i < length marks)%nat → flag_at marks i = false →
            primitive (gauss_params (model t')) (rank (map negb marks) i)
            = primitive (gauss_params (grown s)) i).
Proof.
  intros Hready Hsync s hg sb nsamps db k d marks Hno.
  destruct (densify_run t n Hready Hsync) as (o' & culls & Hrun & _ & Hlen & Hi).
  pose proof (grown_aligned s n Hready) as [Hal _].
  cbv zeta in Hrun, Hlen, Hi, Hal.
  fold s hg sb nsamps db k d marks in Hrun, Hlen, Hi, Hal.
  destruct Hready as (Ha & Hn & (gn & Hgn & Hlgn) & (vc & Hvc & Hlvc)
                      & (m2 & Hm2' & Hlm2) & [hw Hls] & Hsamps).
  assert (Hs0 : 0 ≤ nsamps) by exact Hsamps.
  assert (Hhg : length hg = n).
  { subst hg. erewrite length_high_grad_flags by done. lia. }
  assert (Hsb : length sb = n) by (apply length_split_flags; [apply Ha|eauto|done]).
  assert (Hmarks : length marks = (n + Z.to_nat nsamps * k + d)%nat).
  { subst marks. rewrite length_app, length_replicate. lia. }
  assert (Hbits : mask_bits culls = marks).
  { apply list_eq_same_length with (n := length marks); [done|congruence|].
    intros i x y Hlt Hx Hy. rewrite Hi in Hx by lia.
    rewrite spec_cull_flag_extra in Hx. cbn [mask_bits] in Hx.
    unfold flag_at in Hx at 1. specialize (Hno i Hlt). unfold flag_at in Hno at 1.
    rewrite Hy in Hx, Hno. cbn [default] in Hx, Hno.
    destruct y; [by simplify_eq/=|]. rewrite Hno in Hx by done. by simplify_eq/=. }
  assert (Hk : (k ≤ n)%nat) by (rewrite <- Hsb; apply count_true_le).
  assert (Hcount : count_true (map negb marks) = (n - k + Z.to_nat nsamps * k + d)%nat).
  { pose proof (count_true_negb marks) as Hc. rewrite Hmarks in Hc.
    subst marks. rewrite count_true_app, count_true_replicate_false in Hc. lia. }
  eexists _, culls. split; [exact Hrun|].
  split.
  { unfold num_points. destruct Hal as [-> _]. nia. }
  split; [done|]. split.
  - cbn [model]. unfold num_points. rewrite gauss_params_set, Hbits.
    cbn [select_params means]. rewrite select_length.
    + rewrite Hcount. nia.
    + rewrite length_map, Hmarks. symmetry. apply Hal.
  - intros i Hlt Hflag. cbn [model]. rewrite gauss_params_set, Hbits.
    apply select_params_primitive.
    rewrite map_fmap, list_lookup_fmap. unfold flag_at in Hflag.
    destruct (marks !! i) as [b|] eqn:E; [by simplify_eq/=|].
    apply lookup_ge_None in E. lia.
Qed.


(** C2.  While [step <= warmup_length], [refinement_after] changes nothing at
    all: the trainer after the call is the trainer before it, so the count
    and the six tensors are the same, and the call returns when it is given
    the step of the model. *)
Theorem refinement_after_warmup (t : Trainer F) (step_ : Z) :
  step (model t) ≤ Config.warmup_length (config (model t)) →
  (refinement_after step_ t).1 = t
  ∧ (step_ = step (model t) → (refinement_after step_ t).2 = Ok tt).
Proof.
  intros Hw. unfold refinement_after.
  cbv [mbind M_bind mret M_ret gets assert raise].
  destruct (Z.eqb_spec step_ (step (model t))) as [->|Hne]; simpl.
  - apply Z.leb_le in Hw. rewrite Hw. simpl. split; done.
  - split; [done|]. intros ?; contradiction.
Qed.

(** C10.  Once [step >= stop_split_at], [after_train] changes nothing: the
    model after the call is the model before it, so the gradient-norm
    accumulator, the visibility counts and the screen-size buffer are the
    same, and the call returns when it is given the step of the model. *)
Theorem after_train_stop (s : Model F) (step_ : Z) :
  Config.stop_split_at (config s) ≤ step s →
  (after_train step_ s).1 = s
  ∧ (step_ = step s → (after_train step_ s).2 = Ok tt).
Proof.
  intros Hw. unfold after_train.
  cbv [mbind M_bind mret M_ret get assert raise].
  destruct (Z.eqb_spec step_ (step s)) as [->|Hne]; simpl.
  - apply Z.leb_le in Hw. rewrite Hw. simpl. split; done.
  - split; [done|]. intros ?; contradiction.
Qed.

(** C9.  Whatever the dict, the flag and the live model, and whether the
    load returns or raises, the step of the model after [load_state_dict]
    is 30000. *)
Theorem load_state_dict_step (dict : gmap string (tensor F)) (strict : bool)
    (s : Model F) :
  step (load_state_dict dict strict s).1 = 30000.
Proof.
  unfold load_state_dict.
  change (step ((modify (set_step 30000) ≫= λ _, ?k) s).1 = 30000)
    with (step (k (set_step 30000 s)).1 = 30000).
  match goal with |- step (?k _).1 = _ => assert (Hk : preserves (@step F) k) end.
  { unfold resize_params. frame. apply module_load_state_dict_step. }
  by rewrite (Hk _).
Qed.

(** C5, amended.  When the reset is due - [step > warmup_length],
    [step < stop_split_at] and
    [step % (reset_alpha_every * refine_every) = refine_every] -
    [refinement_after] returns and every opacity is clamped to at most
    [logit (2 * cull_alpha_thresh)], nothing else of the store being
    touched; when it is not due, no opacity is rewritten.  The clamp never
    exceeds the ceiling, is idempotent, leaves a value at or below the
    ceiling as it is, and two resets in a row leave the store of one. *)
Theorem opacity_reset_clamp (t : Trainer F) (a : Adam F) :
  (∀ x : F, Fgt x x = false) →
  0 ≤ num_train_data (model t) →
  opt_opacities (optimizers t) = Some (Some a) →
  let s := model t in
  let ceiling := Flogit (reset_value (config s)) in
  (reset_due s →
   ∃ t', refinement_after (step s) t = (t', Ok tt)
         ∧ gauss_params (model t')
           = set_opacities (map (clamp_max ceiling) (opacities (gauss_params s)))
                           (gauss_params s))
  ∧ (¬ reset_due s → ∀ step_, opacities_kept_in t (refinement_after step_ t).1)
  ∧ (∀ x, Fgt (clamp_max ceiling x) ceiling = false)
  ∧ (∀ x, clamp_max ceiling (clamp_max ceiling x) = clamp_max ceiling x)
  ∧ (∀ x, Fle x ceiling = true → clamp_max ceiling x = x)
  ∧ gauss_params (model ((reset_opacities ≫= λ _, reset_opacities) t).1)
    = gauss_params (model (reset_opacities t).1).
Proof.
  intros Hirr Hn Ho s ceiling. split; [|split; [|split; [|split; [|split]]]].
  - intros Hdue. by eapply refinement_after_reset.
  - intros Hnot step_. by apply refinement_after_kept.
  - intros x. by apply clamp_max_bound.
  - intros x. by apply clamp_max_idemp.
  - intros x. by apply clamp_max_below.
  - by eapply reset_opacities_twice.
Qed.


(** C7.  Loading the state dict of a saved model of [N] primitives into a
    live model of any count: [load_state_dict] is the generic loader run on
    the store resized to [N] zero rows in each of the six tensors; every
    load that returns leaves the six tensors of the saved model, so the
    count is [N]; and the load returns whenever the live model has the
    modules and trailing shapes of the saved one. *)
Theorem checkpoint_round_trip (saved live : Model F) (strict : bool) :
  store_wf saved → child_keys_ok saved →
  let d := state_dict saved in
  load_state_dict d strict live
  = (module_load_state_dict d strict;; mret d) (resized saved live)
  ∧ gauss_params (resized saved live)
    = zero_params (num_points saved) (rest_bases live)
  ∧ (∀ s' r, load_state_dict d strict live = (s', Ok r) →
             gauss_params s' = gauss_params saved
             ∧ num_points s' = num_points saved)
  ∧ (same_modules saved live →
     ∃ s', load_state_dict d strict live = (s', Ok d)).
Proof.
  intros Hwf Hkeys d.
  pose proof (load_state_dict_resize saved live strict Hkeys) as Hload. fold d in Hload.
  assert (Hmid : gauss_params (resized saved live)
                 = zero_params (num_points saved) (rest_bases (resized saved live)))
    by done.
  split; [done|]. split; [done|]. split.
  - intros s' r Hrun. rewrite Hload in Hrun.
    apply bind_inv_ok in Hrun as (s1 & [] & Hrun & Hret).
    unfold mret, M_ret in Hret. injection Hret as <- <-.
    pose proof (module_load_state_dict_saved saved _ strict s1 Hwf Hmid Hrun) as Hg.
    split; [done|]. unfold num_points. by rewrite Hg.
  - intros Hsame.
    assert (Hsame' : same_modules saved (resized saved live)) by exact Hsame.
    pose proof (module_load_state_dict_run saved _ strict Hwf Hkeys Hsame' Hmid) as Hok.
    fold d in Hok.
    destruct (module_load_state_dict d strict (resized saved live)) as [s1 r] eqn:Hrun.
    cbn [snd] in Hok. subst r. exists s1. rewrite Hload.
    by rewrite (bind_ok _ _ _ _ _ Hrun).
Qed.
End Claims.

(** ** Concrete runs

    The properties above at inputs of [Runs], in binary32 arithmetic. *)

Section Concrete.
Import Binary32 Offscreen Examples Runs.


(** C5 fails: step 100 of the default schedule satisfies
    [step % (reset_alpha_every * refine_every) = refine_every] and
    [step < stop_split_at], yet [refinement_after] returns with the trainer
    as it was, an opacity above the ceiling included. *)
Lemma reset_skipped_in_warmup :
  let t := warmup_trainer in
  let c := config (model t) in
  step (model t) `mod` (Config.reset_alpha_every c * Config.refine_every c)
  = Config.refine_every c
  ∧ step (model t) < Config.stop_split_at c
  ∧ refinement_after (step (model t)) t = (t, Ok tt)
  ∧ Exists (λ o, Fgt o (Flogit (reset_value c)) = true)
           (opacities (gauss_params (model t))).
Proof.
  split; [reflexivity|]. split; [reflexivity|]. split; [vm_compute; reflexivity|].
  apply Exists_cons_hd. vm_compute. reflexivity.
Qed.

(** A split parent whose scales, divided by 1.6 in place, fall to the
    threshold is selected for duplication as well, with the screen test
    off. *)
Lemma split_dup_overlap_after_shrink :
  ∃ s' splits dups,
    grow shrunk_model = (s', Ok (splits, dups))
    ∧ flag_at (mask_bits splits) 0 = true
    ∧ flag_at (mask_bits dups) 0 = true.
Proof.
  eexists _, _, _. split; [vm_compute; reflexivity|]. split; reflexivity.
Qed.

(** Step 100 of the default schedule lies in the warm-up. *)
Lemma refinement_after_warmup_witness :
  (refinement_after 100 warmup_trainer).1 = warmup_trainer
  ∧ (refinement_after 100 warmup_trainer).2 = Ok tt.
Proof.
  destruct (refinement_after_warmup warmup_trainer 100) as [Hsame Hret];
    [by vm_compute|].
  split; [exact Hsame|]. by apply Hret.
Defined.

(** Step 15000 of the default schedule: the statistics are left alone. *)
Lemma after_train_stop_witness :
  (after_train 15000 late_model).1 = late_model
  ∧ (after_train 15000 late_model).2 = Ok tt.
Proof.
  destruct (after_train_stop late_model 15000) as [Hsame Hret]; [by vm_compute|].
  split; [exact Hsame|]. by apply Hret.
Defined.


(** Two of three primitives are split in two: five remain. *)
Lemma split_conservation_witness :
  ∃ t' deleted,
    densify densify_trainer = (t', Ok deleted)
    ∧ mask_bits deleted = [true; false; true; false; false; false; false]
    ∧ num_points (model t') = 5%nat.
Proof.
  destruct (split_conservation densify_trainer 3)
    as (t' & deleted & Hrun & _ & Hbits & Hn & _).
  - split; [by repeat split|]. split; [lia|].
    split; [by eexists|]. split; [by eexists|]. split; [by eexists|].
    split; [by eexists|]. by vm_compute.
  - by repeat split; eexists.
  - intros i Hi _. vm_compute in Hi. apply Nat.leb_le in Hi.
    do 7 (destruct i as [|i]; [by vm_compute|]). done.
  - exists t', deleted. split; [exact Hrun|]. split; [by rewrite Hbits|].
    apply Nat2Z.inj. by rewrite Hn.
Defined.


(** Step 3100 of the default schedule: every opacity of [store3] is above
    the ceiling and is set to it. *)
Lemma opacity_reset_clamp_witness :
  ∃ t', refinement_after 3100 reset_trainer = (t', Ok tt)
        ∧ opacities (gauss_params (model t'))
          = replicate 3 (Flogit (reset_value cfg)).
Proof.
  destruct (opacity_reset_clamp reset_trainer (mkAdam (replicate 3 Fzero) (replicate 3 Fzero)))
    as [Hreset _].
  - exact Fgt_irrefl.
  - by vm_compute.
  - reflexivity.
  - destruct Hreset as (t' & Hrun & Hg).
    + split; [by vm_compute|]. split; [by vm_compute|]. split; by vm_compute.
    + exists t'. split; [exact Hrun|]. rewrite Hg. by vm_compute.
Defined.


(** A checkpoint of three primitives loaded into a model of two. *)
Lemma checkpoint_round_trip_witness :
  num_points live_model = 2%nat
  ∧ ∃ s', load_state_dict (state_dict saved_model) true live_model
          = (s', Ok (state_dict saved_model))
          ∧ gauss_params s' = store3 ∧ num_points s' = 3%nat.
Proof.
  split; [reflexivity|].
  destruct (checkpoint_round_trip saved_model live_model true)
    as (_ & _ & Hload & Hret).
  - split; [by repeat split|]. by repeat constructor.
  - split; [reflexivity|]. by repeat constructor.
  - destruct Hret as [s' Hrun]; [by split|].
    exists s'. split; [exact Hrun|]. exact (Hload _ _ Hrun).
Defined.

End Concrete.


(** * Further properties of the code

    Statistics, callbacks, optimizer surgery, rendering, checkpoints, the
    loss and the construction of the model, beyond the properties above. *)

(** ** Statistics ([after_train]) *)

Lemma update_where2_lookup {A B} (f : B → A → A) (m : list bool) u t i (b : bool) y x :
  m !! i = Some b → u !! i = Some y → t !! i = Some x →
  update_where2 f m u t !! i = Some (if b then f y x else x).
Proof.
  revert u t i. induction m as [|b' m IH]; intros u t i Hm Hu Ht; [done|].
  destruct u as [|y' u]; [done|]. destruct t as [|x' t]; [done|].
  destruct i as [|i]; [by simplify_eq/=|]. exact (IH u t i Hm Hu Ht).
Qed.

Lemma length_update_where2 {A B} (f : B → A → A) (m : list bool) u t :
  length (update_where2 f m u t) = length t.
Proof.
  revert u t. induction m as [|b m IH]; intros u t; [done|].
  destruct u as [|y u]; [done|]. destruct t as [|x t]; [done|].
  simpl. by rewrite IH.
Qed.

Lemma map_const {A B} (c : B) (l : list A) : map (λ _, c) l = replicate (length l) c.
Proof. induction l; [done|]. simpl. by f_equal. Qed.

Section Stats.
Context {F : Type} `{!Scalar F} `{!Env F}.

Lemma after_train_same {B} (p : Model F → B) step_ :
  (∀ v s, p (set_xys_grad_norm v s) = p s) →
  (∀ v s, p (set_vis_counts v s) = p s) →
  (∀ v s, p (set_max_2Dsize v s) = p s) →
  preserves p (after_train step_).
Proof.
  intros H1 H2 H3. unfold after_train, check_index.
  repeat (frame_step || (apply steps_modify; intros; unfold same; auto)).
Qed.

Lemma after_train_run (s : Model F) (n : nat) rad x g acc vc m2 h w :
  step s < Config.stop_split_at (config s) →
  radii s = Some rad → xys s = Some x → xys_grad x = Some g →
  xys_grad_norm s = Some acc → vis_counts s = Some vc → max_2Dsize s = Some m2 →
  last_size s = Some (h, w) →
  length rad = n → length g = n → length acc = n → length vc = n → length m2 = n →
  let visible := map (λ r, 0 <? r) rad in
  after_train (step s) s
  = (set_max_2Dsize
       (Some (update_where2 (λ r m, Fmaximum m r) visible
                (map (λ r, Fdiv (F_of_Z r) (F_of_Z (Z.max h w))) rad) m2))
       (set_xys_grad_norm (Some (update_where2 Fadd visible (map norm2 g) acc))
          (set_vis_counts
             (Some (update_where (λ v, Fadd v (F_of_Z 1)) visible vc)) s)),
     Ok tt).
Proof.
  intros Hs Hrad Hx Hg Hacc Hvc Hm2 Hls L1 L2 L3 L4 L5 visible.
  unfold after_train, check_index. rewrite bind_get.
  rewrite Z.eqb_refl. unfold assert. rewrite bind_ret.
  rewrite (proj2 (Z.leb_gt _ _) Hs).
  rewrite (bind_attr _ _ _ _ Hrad), (bind_attr _ _ _ _ Hx), Hg, bind_ret.
  fold visible. rewrite Hacc, Hvc, Hm2.
  assert (Hv : length visible = n) by (subst visible; by rewrite length_map).
  repeat (rewrite bind_assoc || rewrite bind_ret || rewrite bind_modify
          || rewrite decide_True by (rewrite ?length_map; congruence)).
  erewrite bind_attr; [|exact Hls]. reflexivity.
Qed.

Lemma after_train_first_run (s : Model F) rad x g h w :
  step s < Config.stop_split_at (config s) →
  radii s = Some rad → xys s = Some x → xys_grad x = Some g →
  xys_grad_norm s = None → max_2Dsize s = None →
  last_size s = Some (h, w) →
  let visible := map (λ r, 0 <? r) rad in
  after_train (step s) s
  = (set_max_2Dsize
       (Some (update_where2 (λ r m, Fmaximum m r) visible
                (map (λ r, Fdiv (F_of_Z r) (F_of_Z (Z.max h w))) rad)
                (map (λ _, Fzero) rad)))
       (set_vis_counts (Some (map (λ _, Fone) (map norm2 g)))
          (set_xys_grad_norm (Some (map norm2 g)) s)),
     Ok tt).
Proof.
  intros Hs Hrad Hx Hg Hacc Hm2 Hls visible.
  unfold after_train, check_index. rewrite bind_get.
  rewrite Z.eqb_refl. unfold assert. rewrite bind_ret.
  rewrite (proj2 (Z.leb_gt _ _) Hs).
  rewrite (bind_attr _ _ _ _ Hrad), (bind_attr _ _ _ _ Hx), Hg, bind_ret.
  fold visible. rewrite Hacc, Hm2.
  repeat (rewrite bind_assoc || rewrite bind_ret || rewrite bind_modify
          || rewrite decide_True by (subst visible; by rewrite !length_map)).
  erewrite bind_attr; [|exact Hls]. reflexivity.
Qed.

(** X1.  The first [after_train] after a refinement (the accumulators are
    unset) returns and starts them: the gradient norms of this step, a
    visibility count of one for every primitive, and for [max_2Dsize] the
    radius over the longer side of the render for a visible primitive and
    zero for the others.  Nothing else of the model changes. *)
Theorem after_train_starts (s : Model F) rad x g h w :
  step s < Config.stop_split_at (config s) →
  radii s = Some rad → xys s = Some x → xys_grad x = Some g →
  xys_grad_norm s = None → max_2Dsize s = None →
  last_size s = Some (h, w) →
  ∃ m2',
    after_train (step s) s
    = (set_max_2Dsize (Some m2')
         (set_vis_counts (Some (replicate (length g) Fone))
            (set_xys_grad_norm (Some (map norm2 g)) s)), Ok tt)
    ∧ length m2' = length rad
    ∧ ∀ i r, rad !! i = Some r →
        m2' !! i
        = Some (if 0 <? r
                then Fmaximum Fzero (Fdiv (F_of_Z r) (F_of_Z (Z.max h w)))
                else Fzero).
Proof.
  intros Hs Hrad Hx Hg Hacc Hm2 Hls.
  pose proof (after_train_first_run s rad x g h w Hs Hrad Hx Hg Hacc Hm2 Hls) as Hrun.
  cbv zeta in Hrun. eexists. split; [|split].
  - rewrite Hrun. by rewrite (map_const Fone), length_map.
  - by rewrite length_update_where2, length_map.
  - intros i r Hr.
    by erewrite update_where2_lookup;
      [|by rewrite map_fmap, list_lookup_fmap, Hr..].
Qed.

(** X2.  A later [after_train] with accumulators of the length of the store
    returns and updates them index by index: a primitive with a positive
    radius has this step's gradient norm added, its count raised by one and
    its [max_2Dsize] raised to the radius over the longer side when that is
    larger; a primitive off screen keeps all three.  The lengths and
    everything else of the model stay. *)
Theorem after_train_accumulates (s : Model F) (n : nat) rad x g acc vc m2 h w :
  step s < Config.stop_split_at (config s) →
  radii s = Some rad → xys s = Some x → xys_grad x = Some g →
  xys_grad_norm s = Some acc → vis_counts s = Some vc → max_2Dsize s = Some m2 →
  last_size s = Some (h, w) →
  length rad = n → length g = n → length acc = n → length vc = n → length m2 = n →
  ∃ acc' vc' m2',
    after_train (step s) s
    = (set_max_2Dsize (Some m2')
         (set_xys_grad_norm (Some acc') (set_vis_counts (Some vc') s)), Ok tt)
    ∧ length acc' = n ∧ length vc' = n ∧ length m2' = n
    ∧ ∀ i r gi a v m,
        rad !! i = Some r → g !! i = Some gi → acc !! i = Some a →
        vc !! i = Some v → m2 !! i = Some m →
        acc' !! i = Some (if 0 <? r then Fadd (norm2 gi) a else a)
        ∧ vc' !! i = Some (if 0 <? r then Fadd v (F_of_Z 1) else v)
        ∧ m2' !! i
          = Some (if 0 <? r
                  then Fmaximum m (Fdiv (F_of_Z r) (F_of_Z (Z.max h w)))
                  else m).
Proof.
  intros Hs Hrad Hx Hg Hacc Hvc Hm2 Hls L1 L2 L3 L4 L5.
  pose proof (after_train_run s n rad x g acc vc m2 h w
                Hs Hrad Hx Hg Hacc Hvc Hm2 Hls L1 L2 L3 L4 L5) as Hrun.
  cbv zeta in Hrun. eexists _, _, _. split; [exact Hrun|].
  split; [by rewrite length_update_where2|].
  split; [by rewrite length_update_where|].
  split; [by rewrite length_update_where2|].
  intros i r gi a v m Hr Hgi Ha Hv Hm.
  assert (Hvis : map (λ r, 0 <? r) rad !! i = Some (0 <? r))
    by (by rewrite map_fmap, list_lookup_fmap, Hr).
  split; [|split].
  - by erewrite update_where2_lookup;
      [|done|by rewrite map_fmap, list_lookup_fmap, Hgi|done].
  - rewrite update_where_lookup, Hv. unfold flag_at. by rewrite Hvis.
  - by erewrite update_where2_lookup;
      [|done|by rewrite map_fmap, list_lookup_fmap, Hr|done].
Qed.

(** X3.  Between refinements [max_2Dsize] never decreases: in an arithmetic
    where no value exceeds itself or a NaN, no entry after [after_train] is
    below the entry before. *)
Theorem max_2Dsize_never_decreases (s : Model F) (n : nat) rad x g acc vc m2 h w :
  (∀ a : F, Fgt a a = false) → (∀ a : F, Fgt a Fnan = false) →
  step s < Config.stop_split_at (config s) →
  radii s = Some rad → xys s = Some x → xys_grad x = Some g →
  xys_grad_norm s = Some acc → vis_counts s = Some vc → max_2Dsize s = Some m2 →
  last_size s = Some (h, w) →
  length rad = n → length g = n → length acc = n → length vc = n → length m2 = n →
  ∃ s' m2',
    after_train (step s) s = (s', Ok tt)
    ∧ max_2Dsize s' = Some m2' ∧ length m2' = n
    ∧ ∀ i old new, m2 !! i = Some old → m2' !! i = Some new → Fgt old new = false.
Proof.
  intros Hirr Hnan Hs Hrad Hx Hg Hacc Hvc Hm2 Hls L1 L2 L3 L4 L5.
  pose proof (after_train_run s n rad x g acc vc m2 h w
                Hs Hrad Hx Hg Hacc Hvc Hm2 Hls L1 L2 L3 L4 L5) as Hrun.
  cbv zeta in Hrun. eexists _, _. split; [exact Hrun|].
  split; [reflexivity|]. split; [by rewrite length_update_where2|].
  intros i old new Hold Hnew.
  destruct (rad !! i) as [r|] eqn:Hr; last first.
  { apply lookup_ge_None in Hr. apply lookup_lt_Some in Hold. lia. }
  erewrite update_where2_lookup in Hnew; [|by rewrite map_fmap, list_lookup_fmap, Hr..|done].
  injection Hnew as <-.
  destruct (0 <? r); [|apply Hirr].
  unfold Fmaximum.
  destruct (Fcompare old (Fdiv _ _)) as [[]|] eqn:E;
    [apply Hirr|unfold Fgt; by rewrite E|apply Hirr|apply Hnan].
Qed.

(** X4.  [after_train] touches nothing but its three accumulators, whether
    it returns or raises: the store, the step, the configuration, the
    projected radii and positions and the random stream are as before. *)
Theorem after_train_frame (s : Model F) (step_ : Z) :
  let s' := (after_train step_ s).1 in
  gauss_params s' = gauss_params s ∧ step s' = step s ∧ config s' = config s
  ∧ radii s' = radii s ∧ xys s' = xys s ∧ last_size s' = last_size s
  ∧ rng s' = rng s ∧ child_state s' = child_state s.
Proof.
  cbv zeta. repeat split.
  all: match goal with
       | |- ?p (after_train _ _).1 = _ => by apply (after_train_same p)
       end.
Qed.
End Stats.

Lemma Fgt_nan (x : spec_float) :
  @Fgt _ Binary32.scalar x (@Fnan _ Binary32.scalar) = false.
Proof. unfold Fgt. cbn [Fcompare Fnan Binary32.scalar]. by destruct x as [[]|[]| |[]]. Qed.

Section StatsRuns.
Import Binary32 Offscreen Examples Runs.

(** The first accumulation at step 600. *)
Lemma after_train_starts_witness :
  ∃ s', after_train 600 rendered_model = (s', Ok tt)
        ∧ vis_counts s' = Some (replicate 3 Fone)
        ∧ xys_grad_norm s' = Some [f 5; f 0; f 1].
Proof.
  destruct (after_train_starts rendered_model [3; 0; 2]
              (mkXys [(f 1, f 1); (f 0, f 0); (f 5, f 2)]
                     (Some [(f 3, f 4); (f 0, f 0); (f 1, f 0)]))
              [(f 3, f 4); (f 0, f 0); (f 1, f 0)] 10 20)
    as (m2' & Hrun & _); try reflexivity.
  eexists. split; [exact Hrun|]. split; [reflexivity|]. by vm_compute.
Defined.

(** A second accumulation: the first primitive is seen again. *)
Lemma after_train_accumulates_witness :
  ∃ s' vc', after_train 600 tracked_model = (s', Ok tt)
            ∧ vis_counts s' = Some vc'
            ∧ vc' !! 0%nat = Some (f 2) ∧ vc' !! 1%nat = Some (f 1).
Proof.
  destruct (after_train_accumulates tracked_model 3 [3; 0; 2]
              (mkXys [(f 1, f 1); (f 0, f 0); (f 5, f 2)]
                     (Some [(f 3, f 4); (f 0, f 0); (f 1, f 0)]))
              [(f 3, f 4); (f 0, f 0); (f 1, f 0)]
              [f 5; f 0; f 1] [f 1; f 1; f 1] [f (1 # 2); f 0; f 0] 10 20)
    as (acc' & vc' & m2' & Hrun & _ & _ & _ & Hi); try reflexivity.
  eexists _, vc'. split; [exact Hrun|]. split; [reflexivity|]. split.
  - destruct (Hi 0%nat 3 (f 3, f 4) (f 5) (f 1) (f (1 # 2))) as (_ & -> & _);
      reflexivity.
  - destruct (Hi 1%nat 0 (f 0, f 0) (f 0) (f 1) (f 0)) as (_ & -> & _);
      reflexivity.
Defined.

(** The first primitive had covered half of the screen; a radius of 3 on a
    render of 10 x 20 does not lower that. *)
Lemma max_2Dsize_never_decreases_witness :
  ∃ s' m2', after_train 600 tracked_model = (s', Ok tt)
            ∧ max_2Dsize s' = Some m2'
            ∧ ∀ new, m2' !! 0%nat = Some new → Fgt (f (1 # 2)) new = false.
Proof.
  destruct (max_2Dsize_never_decreases tracked_model 3 [3; 0; 2]
              (mkXys [(f 1, f 1); (f 0, f 0); (f 5, f 2)]
                     (Some [(f 3, f 4); (f 0, f 0); (f 1, f 0)]))
              [(f 3, f 4); (f 0, f 0); (f 1, f 0)]
              [f 5; f 0; f 1] [f 1; f 1; f 1] [f (1 # 2); f 0; f 0] 10 20)
    as (s' & m2' & Hrun & Hm2 & _ & Hi);
    [exact Fgt_irrefl|exact Fgt_nan|reflexivity..|].
  exists s', m2'. split; [exact Hrun|]. split; [exact Hm2|].
  intros new. by apply Hi.
Defined.
End StatsRuns.

(** ** Refinement and the training callbacks *)

Lemma wp_any {S A} (c : M S A) s : wp c (λ _ _, True) (λ _, True) s.
Proof. unfold wp. by destruct (c s) as [s' [a|e]]. Qed.

Section Refinement.
Context {F : Type} `{!Scalar F} `{!Env F}.

Lemma refinement_after_late_off (t : Trainer F) :
  Config.warmup_length (config (model t)) < step (model t) →
  Config.stop_split_at (config (model t)) ≤ step (model t) →
  Config.continue_cull_post_densification (config (model t)) = false →
  refinement_after (step (model t)) t = (set_model (cleared (model t)) t, Ok tt).
Proof.
  intros Hw Hs Hc. unfold refinement_after. rewrite bind_gets. cbv zeta.
  rewrite Z.eqb_refl. unfold assert. rewrite bind_ret.
  rewrite (proj2 (Z.leb_gt _ _) Hw).
  rewrite (proj2 (Z.ltb_ge _ _) Hs).
  rewrite bind_ret. cbv beta iota. rewrite Hc, andb_false_r.
  rewrite !bind_ret. reflexivity.
Qed.

Lemma refinement_after_early (t : Trainer F) :
  step (model t) ≤ Config.warmup_length (config (model t)) →
  refinement_after (step (model t)) t = (t, Ok tt).
Proof.
  intros Hw. unfold refinement_after. rewrite bind_gets. cbv zeta.
  rewrite Z.eqb_refl. unfold assert. rewrite bind_ret.
  by rewrite (proj2 (Z.leb_le _ _) Hw).
Qed.

(** X5.  With [reset_alpha_every * refine_every = 0], a refinement past the
    warm-up and before [stop_split_at] raises [ZeroDivisionError] at
    [step % reset_interval], before anything is changed. *)
Theorem refinement_after_zero_interval (t : Trainer F) :
  Config.warmup_length (config (model t)) < step (model t) →
  step (model t) < Config.stop_split_at (config (model t)) →
  Config.reset_alpha_every (config (model t)) * Config.refine_every (config (model t)) = 0 →
  refinement_after (step (model t)) t = (t, Raise ZeroDivisionError).
Proof.
  intros Hw Hs Hz. unfold refinement_after. rewrite bind_gets. cbv zeta.
  rewrite Z.eqb_refl. unfold assert. rewrite bind_ret.
  rewrite (proj2 (Z.leb_gt _ _) Hw).
  rewrite (proj2 (Z.ltb_lt _ _) Hs).
  rewrite Hz. reflexivity.
Qed.

(** X6.  Whenever a refinement past the warm-up returns, the three
    accumulators are unset: the next [after_train] starts them afresh. *)
Theorem refinement_after_clears (t t' : Trainer F) (step_ : Z) :
  Config.warmup_length (config (model t)) < step (model t) →
  refinement_after step_ t = (t', Ok tt) →
  xys_grad_norm (model t') = None ∧ vis_counts (model t') = None
  ∧ max_2Dsize (model t') = None.
Proof.
  intros Hw Hrun.
  enough (wp (refinement_after step_)
             (λ _ t', xys_grad_norm (model t') = None ∧ vis_counts (model t') = None
                      ∧ max_2Dsize (model t') = None)
             (λ _, True) t) as Hwp.
  { unfold wp in Hwp. by rewrite Hrun in Hwp. }
  unfold refinement_after.
  wp_step. wp_step. cbv beta zeta.
  wp_step. wp_step; [|done].
  rewrite (proj2 (Z.leb_gt _ _) Hw).
  wp_step. eapply wp_mono; [apply wp_any| |done]. intros do_densification t1 _.
  wp_step. eapply wp_mono; [apply wp_any| |done]. intros deleted t2 _.
  wp_step. eapply wp_mono; [apply wp_any| |done]. intros _ t3 _.
  wp_step. eapply wp_mono; [apply wp_any| |done]. intros do_reset t4 _.
  wp_step. eapply wp_mono; [apply wp_any| |done]. intros _ t5 _.
  repeat (first [wp_step | progress cbv beta zeta]). done.
Qed.

#[global] Instance no_growth_preorder : PreOrder (no_growth (F:=F)).
Proof.
  split.
  - intros s. by repeat split.
  - intros x y z (A1 & A2 & A3 & A4 & A5 & A6) (B1 & B2 & B3 & B4 & B5 & B6).
    repeat split; by etrans.
Qed.

#[global] Instance in_model_preorder (R : relation (Model F)) :
  PreOrder R → PreOrder (in_model R).
Proof.
  intros HR. split.
  - intros t. unfold in_model. reflexivity.
  - intros x y z Hxy Hyz. unfold in_model in *. by etrans.
Qed.







(** X8.  With [continue_cull_post_densification] off, an iteration from
    [stop_split_at] on is inert: [train_callback_before_iteration] followed
    by [train_callback_after_iteration] returns, and the store and the
    optimizers are as before. *)
Theorem late_iteration_inert (t : Trainer F) (step_ : Z) :
  Config.stop_split_at (config (model t)) ≤ step_ →
  Config.refine_every (config (model t)) ≠ 0 →
  Config.continue_cull_post_densification (config (model t)) = false →
  ∃ t',
    (on_model (train_callback_before_iteration step_)
       ≫= λ _, train_callback_after_iteration step_) t = (t', Ok tt)
    ∧ gauss_params (model t') = gauss_params (model t)
    ∧ optimizers t' = optimizers t
    ∧ step (model t') = step_.
Proof.
  intros Hs Hr Hc.
  unfold train_callback_before_iteration, step_cb.
  erewrite bind_ok; [|apply on_model_run; reflexivity].
  set (t1 := set_model (set_step step_ (model t)) t).
  assert (Hat : after_train step_ (model t1) = (model t1, Ok tt)).
  { unfold after_train. rewrite bind_get. cbn [t1 model set_model step set_step].
    rewrite Z.eqb_refl. unfold assert. rewrite bind_ret.
    cbn [config set_step]. by rewrite (proj2 (Z.leb_le _ _) Hs). }
  unfold train_callback_after_iteration.
  erewrite bind_ok; [|apply on_model_run; exact Hat].
  replace (set_model (model t1) t1) with t1 by done.
  rewrite bind_assoc, bind_gets. unfold py_mod.
  change (config (model t1)) with (config (model t)).
  rewrite (proj2 (Z.eqb_neq _ _) Hr), bind_ret.
  destruct (_ =? 0).
  - destruct (Z.le_gt_cases (step (model t1)) (Config.warmup_length (config (model t1))))
      as [Hw|Hw].
    + change step_ with (step (model t1)) at 1.
      rewrite refinement_after_early by done. by exists t1.
    + change step_ with (step (model t1)) at 1.
      rewrite refinement_after_late_off by done. by eexists.
  - by exists t1.
Qed.


(** X10.  With [refine_every = 0] the callback raises [ZeroDivisionError]
    at [step % refine_every] whenever the statistics update returns, with
    the statistics already updated. *)
Theorem callback_zero_refine_every (t : Trainer F) (step_ : Z) (s' : Model F) :
  Config.refine_every (config (model t)) = 0 →
  after_train step_ (model t) = (s', Ok tt) →
  train_callback_after_iteration step_ t = (set_model s' t, Raise ZeroDivisionError).
Proof.
  intros Hr Hat. unfold train_callback_after_iteration.
  erewrite bind_ok; [|apply on_model_run; exact Hat].
  pose proof (after_train_same config step_ (λ _ _, eq_refl) (λ _ _, eq_refl)
                (λ _ _, eq_refl) (model t)) as Hcfg.
  unfold same in Hcfg. rewrite Hat in Hcfg. simpl in Hcfg.
  rewrite bind_assoc, bind_gets. unfold py_mod. cbn [model set_model].
  by rewrite Hcfg, Hr.
Qed.
End Refinement.

(** ** Optimizer surgery and the opacity reset *)

Lemma index_rows_elem_of {A} (t rows : list A) idcs x :
  index_rows t idcs = Ok rows → x ∈ rows → x ∈ t.
Proof.
  unfold index_rows. destruct (mapM _ idcs) as [l|] eqn:E; [|done].
  intros [= <-] Hx. apply mapM_Some in E.
  apply list_elem_of_lookup in Hx as [j Hj].
  destruct (Forall2_lookup_r _ _ _ _ _ E Hj) as (i & _ & Hi).
  by eapply list_elem_of_lookup_2.
Qed.

Lemma index_rows_out {A} (t : list A) idcs :
  Exists (λ i, (length t ≤ i)%nat) idcs → index_rows t idcs = Raise IndexError.
Proof.
  intros Hex. unfold index_rows.
  destruct (mapM _ idcs) as [l|] eqn:E; [|done].
  apply mapM_Some in E. apply Exists_exists in Hex as (i & Hi & Hge).
  apply list_elem_of_lookup in Hi as [j Hj].
  destruct (Forall2_lookup_l _ _ _ _ _ E Hj) as (x & _ & Hx).
  apply lookup_lt_Some in Hx. lia.
Qed.

Section Surgery.
Context {F : Type} `{!Scalar F} `{!Env F}.

Lemma remove_from_optim_run {A} (o : option (option (Adam A))) n m :
  synced_group o n → one_dim m → length (mask_bits m) = n →
  ∃ st st', o = Some st ∧ remove_from_optim m st = (st', Ok tt)
    ∧ synced_group (Some st') (count_true (map negb (mask_bits m))).
Proof.
  intros (st & -> & Hst) Hd Hm. exists st.
  unfold remove_from_optim. rewrite bind_get. destruct st as [a|].
  - destruct Hst as [H1 H2].
    rewrite !index_mask_bits
      by (by apply one_dim_not || (rewrite mask_bits_not, length_map; congruence)).
    rewrite bind_lift_ok, bind_modify, bind_lift_ok.
    eexists. split; [done|]. split; [done|].
    eexists. split; [done|]. simpl. rewrite mask_bits_not.
    split; apply select_length; rewrite length_map; congruence.
  - eexists. split; [done|]. split; [done|]. by eexists.
Qed.

Lemma remove_from_all_optim_run (t : Trainer F) m n :
  synced (optimizers t) n → one_dim m → length (mask_bits m) = n →
  ∃ o', remove_from_all_optim m t = (set_optimizers o' t, Ok tt)
        ∧ synced o' (count_true (map negb (mask_bits m))).
Proof.
  intros (S1 & S2 & S3 & S4 & S5 & S6) Hd Hm.
  destruct (remove_from_optim_run _ n m S1 Hd Hm) as (a1 & b1 & G1 & R1 & T1).
  destruct (remove_from_optim_run _ n m S2 Hd Hm) as (a2 & b2 & G2 & R2 & T2).
  destruct (remove_from_optim_run _ n m S3 Hd Hm) as (a3 & b3 & G3 & R3 & T3).
  destruct (remove_from_optim_run _ n m S4 Hd Hm) as (a4 & b4 & G4 & R4 & T4).
  destruct (remove_from_optim_run _ n m S5 Hd Hm) as (a5 & b5 & G5 & R5 & T5).
  destruct (remove_from_optim_run _ n m S6 Hd Hm) as (a6 & b6 & G6 & R6 & T6).
  exists (mkOptimizers (Some b1) (Some b2) (Some b3) (Some b4) (Some b5) (Some b6)).
  split; [|done].
  unfold remove_from_all_optim.
  erewrite bind_ok; [|eapply in_optim_run; [exact G1|exact R1]].
  erewrite bind_ok; [|eapply in_optim_run; [exact G2|exact R2]].
  erewrite bind_ok; [|eapply in_optim_run; [exact G3|exact R3]].
  erewrite bind_ok; [|eapply in_optim_run; [exact G4|exact R4]].
  erewrite bind_ok; [|eapply in_optim_run; [exact G5|exact R5]].
  erewrite in_optim_run; [|exact G6|exact R6].
  reflexivity.
Qed.

Lemma cull_gaussians_extra_one_dim e (s : Model F) :
  one_dim e →
  wp (cull_gaussians (Some e)) (λ culls _, one_dim culls) (λ _, True) s.
Proof.
  intros He. unfold cull_gaussians, cull_mask.
  wp_step. wp_step. wp_step. cbv beta zeta.
  wp_step. apply wp_lift; [intros c1 Hc1|done].
  assert (Hd1 : one_dim c1) by (eapply mask_op_one_dim; [exact Hc1|by right]).
  destruct (_ <? _).
  - wp_step. eapply wp_mono; [apply wp_any| |done]. intros tb s1 _.
    apply wp_lift; [intros c2 Hc2|done].
    assert (one_dim c2) by (eapply mask_op_one_dim; [done|by left]).
    wp_step. eapply wp_mono; [apply wp_any| |done]. intros _ s2 _. by wp_step.
  - wp_step. wp_step. eapply wp_mono; [apply wp_any| |done]. intros _ s2 _.
    by wp_step.
Qed.

Lemma densify_one_dim (t t' : Trainer F) culls :
  densify t = (t', Ok culls) → one_dim culls.
Proof.
  intros Hrun.
  enough (wp densify (λ culls _, one_dim culls) (λ _, True) t) as Hwp.
  { unfold wp in Hwp. by rewrite Hrun in Hwp. }
  unfold densify.
  wp_step. wp_step. cbv beta.
  wp_step. eapply wp_mono; [apply wp_any| |done]. intros [splits dups] t1 _.
  wp_step. eapply wp_mono; [apply wp_any| |done]. intros _ t2 _.
  wp_step. eapply wp_mono; [apply wp_any| |done]. intros _ t3 _.
  cbv zeta.
  wp_step. eapply wp_mono; [apply wp_any| |done]. intros _ t4 _.
  wp_step. destruct splits as [b|l]; [by wp_step|]. wp_step.
  wp_step. by apply cull_gaussians_extra_one_dim.
Qed.

(** X11.  A refinement that densifies keeps the optimizers in step with the
    store: on an aligned store of at least two primitives with statistics
    and Adam moments of its length, [refinement_after] returns, the six
    tensors have one common length again, and both moments of every group
    have exactly that many rows. *)
Theorem refinement_after_densifies (t : Trainer F) (n : nat) :
  densify_due (model t) → 0 ≤ num_train_data (model t) →
  ready_to_densify (model t) n → synced (optimizers t) n →
  ∃ t',
    refinement_after (step (model t)) t = (t', Ok tt)
    ∧ aligned (gauss_params (model t')) (num_points (model t'))
    ∧ synced (optimizers t') (num_points (model t')).
Proof.
  intros (Hw & Hs & Hi & Hmod) Hn Hready Hsync.
  destruct (densify_run t n Hready Hsync) as (o1 & culls & Hrun & Hs1 & Hlen & _).
  pose proof (densify_one_dim _ _ _ Hrun) as Hd.
  pose proof (grown_aligned (model t) n Hready) as [Hal _].
  cbv zeta in Hrun, Hs1, Hlen, Hal.
  set (total := (n + _ + _)%nat) in *.
  set (m1 := set_gauss_params _ (grown (model t))) in *.
  destruct (remove_from_all_optim_run (mkTrainer m1 o1) culls total Hs1 Hd Hlen)
    as (o2 & Hrem & Hs2).
  assert (Ha1 : aligned (gauss_params m1) (count_true (map negb (mask_bits culls)))).
  { subst m1. rewrite gauss_params_set. apply select_params_aligned with (n := total);
      [done|by rewrite length_map]. }
  unfold refinement_after. rewrite bind_gets. cbv zeta.
  rewrite Z.eqb_refl. unfold assert. rewrite bind_ret.
  rewrite (proj2 (Z.leb_gt _ _) Hw).
  rewrite (proj2 (Z.ltb_lt _ _) Hs).
  unfold py_mod. rewrite (proj2 (Z.eqb_neq _ _) Hi).
  rewrite bind_assoc, bind_ret, bind_ret.
  rewrite (proj2 (Z.ltb_lt _ _) Hmod).
  rewrite bind_assoc. erewrite bind_ok; [|exact Hrun]. rewrite bind_ret.
  cbv beta iota. erewrite bind_ok; [|exact Hrem].
  rewrite bind_assoc, bind_ret, bind_ret.
  rewrite (proj2 (Z.eqb_neq _ _)) by lia.
  rewrite bind_ret.
  eexists. split; [reflexivity|].
  cbn [model set_model set_optimizers optimizers fst].
  unfold num_points. cbn [gauss_params set_max_2Dsize set_vis_counts set_xys_grad_norm].
  destruct Ha1 as (A1 & A2 & A3 & A4 & A5 & A6).
  rewrite A1. split; [by repeat split|done].
Qed.

Lemma refinement_after_to_reset (t : Trainer F) :
  reset_due (model t) → 0 ≤ num_train_data (model t) →
  refinement_after (step (model t)) t
  = (reset_opacities ≫= λ _,
     on_model (modify (set_xys_grad_norm None)) ≫= λ _,
     on_model (modify (set_vis_counts None)) ≫= λ _,
     on_model (modify (set_max_2Dsize None))) t.
Proof.
  intros (Hw & Hs & Hi & Hmod) Hn.
  unfold refinement_after. rewrite bind_gets. cbv zeta.
  rewrite Z.eqb_refl. unfold assert. rewrite bind_ret.
  rewrite (proj2 (Z.leb_gt _ _) Hw).
  rewrite (proj2 (Z.ltb_lt _ _) Hs).
  unfold py_mod. rewrite (proj2 (Z.eqb_neq _ _) Hi).
  rewrite bind_assoc, bind_ret, bind_ret, Hmod.
  rewrite (proj2 (Z.ltb_ge _ _)) by lia.
  rewrite (proj2 (Z.leb_gt _ _) Hs). cbn [andb].
  rewrite bind_ret. cbv beta iota. rewrite bind_ret.
  rewrite bind_assoc, bind_ret, bind_ret, Z.eqb_refl.
  reflexivity.
Qed.

(** X12.  The opacity reset also resets Adam: when the reset is due and the
    opacity group has moments, [refinement_after] returns with both moments
    of that group zero, of the length they had, and with the other five
    groups as they were. *)
Theorem opacity_reset_moments (t : Trainer F) (a : Adam F) :
  reset_due (model t) → 0 ≤ num_train_data (model t) →
  opt_opacities (optimizers t) = Some (Some a) →
  ∃ t',
    refinement_after (step (model t)) t = (t', Ok tt)
    ∧ optimizers t'
      = set_opt_opacities
          (Some (Some (mkAdam (replicate (length (exp_avg a)) Fzero)
                              (replicate (length (exp_avg_sq a)) Fzero))))
          (optimizers t).
Proof.
  intros Hdue Hn Ho. rewrite refinement_after_to_reset by done.
  unfold reset_opacities. rewrite bind_assoc, bind_gets.
  rewrite bind_assoc.
  erewrite bind_ok; [|apply on_model_run; reflexivity].
  erewrite bind_ok; [|eapply in_optim_run; [exact Ho|reflexivity]].
  eexists. split; [reflexivity|].
  cbn [optimizers set_optimizers set_model fst]. by rewrite !map_const.
Qed.

(** X13.  When the reset is due and the opacity group is missing or has
    taken no step yet, [refinement_after] raises [KeyError] - after the
    opacities have been clamped, and with the accumulators still in
    place. *)
Theorem opacity_reset_without_moments (t : Trainer F) :
  reset_due (model t) → 0 ≤ num_train_data (model t) →
  opt_opacities (optimizers t) = None ∨ opt_opacities (optimizers t) = Some None →
  ∃ t',
    refinement_after (step (model t)) t = (t', Raise KeyError)
    ∧ model t' = clamped (model t).
Proof.
  intros Hdue Hn Ho. rewrite refinement_after_to_reset by done.
  unfold reset_opacities. rewrite bind_assoc, bind_gets.
  rewrite bind_assoc.
  erewrite bind_ok; [|apply on_model_run; reflexivity].
  destruct Ho as [Ho|Ho].
  - erewrite bind_raise; last first.
    { unfold in_optim. cbn [optimizers set_model]. rewrite Ho. reflexivity. }
    by eexists.
  - erewrite bind_raise; last first.
    { eapply in_optim_run; [exact Ho|reflexivity]. }
    by eexists.
Qed.

(** X14.  [dup_in_optim] on moments of [n] rows, with indices below [n] and
    a count that is not negative, returns: the [n] rows of both moments
    stay, and [count * len(indices)] rows follow, each the zero of a row
    that was indexed.  Without moments nothing changes, and an index out of
    range raises [IndexError] with the moments as they were. *)
Theorem dup_in_optim_appends_zeros {A} (zl : A → A) (idcs : list nat) (k : Z)
    (a : Adam A) (n : nat) :
  length (exp_avg a) = n → length (exp_avg_sq a) = n → 0 ≤ k →
  dup_in_optim zl idcs k None = (None, Ok tt)
  ∧ (Forall (λ i, (i < n)%nat) idcs →
     ∃ z z',
       dup_in_optim zl idcs k (Some a)
       = (Some (mkAdam (exp_avg a ++ z) (exp_avg_sq a ++ z')), Ok tt)
       ∧ length z = (Z.to_nat k * length idcs)%nat
       ∧ length z' = (Z.to_nat k * length idcs)%nat
       ∧ Forall (λ r, ∃ x, x ∈ exp_avg a ∧ r = zl x) z
       ∧ Forall (λ r, ∃ x, x ∈ exp_avg_sq a ∧ r = zl x) z')
  ∧ (Exists (λ i, (n ≤ i)%nat) idcs →
     dup_in_optim zl idcs k (Some a) = (Some a, Raise IndexError)).
Proof.
  intros H1 H2 Hk. split; [done|]. split.
  - intros Hi.
    assert (Hneg : (k <? 0) = false) by (apply Z.ltb_ge; lia).
    unfold dup_in_optim. rewrite bind_get.
    destruct (index_rows_ok (exp_avg a) idcs) as (r1 & Hr1 & Hl1); [by rewrite H1|].
    destruct (index_rows_ok (exp_avg_sq a) idcs) as (r2 & Hr2 & Hl2); [by rewrite H2|].
    unfold zero_rows. rewrite Hr1, Hr2. simpl. rewrite Hneg.
    rewrite bind_lift_ok, bind_modify, bind_lift_ok.
    eexists _, _. split; [reflexivity|].
    rewrite !length_repeat_rows, !length_map, Hl1, Hl2.
    split; [done|]. split; [done|].
    split.
    + apply Forall_forall. intros r Hr%repeat_rows_subseteq.
      apply list_elem_of_fmap in Hr as (x & -> & Hx). exists x. split; [|done].
      eapply index_rows_elem_of; eauto.
    + apply Forall_forall. intros r Hr%repeat_rows_subseteq.
      apply list_elem_of_fmap in Hr as (x & -> & Hx). exists x. split; [|done].
      eapply index_rows_elem_of; eauto.
  - intros Hex. unfold dup_in_optim. rewrite bind_get.
    unfold zero_rows. subst n. rewrite (index_rows_out (exp_avg a)) by done. reflexivity.
Qed.
End Surgery.

Section RefinementRuns.
Import Binary32 Offscreen Examples Runs.

(** Step 600 with [reset_alpha_every = 0]. *)
Lemma refinement_after_zero_interval_witness :
  refinement_after 600 no_interval_trainer
  = (no_interval_trainer, Raise ZeroDivisionError).
Proof. by apply (refinement_after_zero_interval no_interval_trainer). Defined.

(** The reset at step 3100 leaves no accumulator. *)
Lemma refinement_after_clears_witness :
  ∃ t', refinement_after 3100 reset_trainer = (t', Ok tt)
        ∧ xys_grad_norm (model t') = None ∧ vis_counts (model t') = None
        ∧ max_2Dsize (model t') = None.
Proof.
  assert (Hrun : ∃ t', refinement_after 3100 reset_trainer = (t', Ok tt))
    by (eexists; vm_compute; reflexivity).
  destruct Hrun as [t' Hrun]. exists t'. split; [exact Hrun|].
  apply (refinement_after_clears reset_trainer t' 3100); [by vm_compute|exact Hrun].
Defined.


(** Iteration 15000 without post-densification culling. *)
Lemma late_iteration_inert_witness :
  ∃ t',
    (on_model (train_callback_before_iteration 15000)
       ≫= λ _, train_callback_after_iteration 15000) no_cull_trainer = (t', Ok tt)
    ∧ gauss_params (model t') = store3
    ∧ step (model t') = 15000.
Proof.
  destruct (late_iteration_inert no_cull_trainer 15000)
    as (t' & Hrun & Hg & _ & Hstep); [by vm_compute..|].
  by exists t'.
Defined.


(** [refine_every = 0] at step 15000. *)
Lemma callback_zero_refine_every_witness :
  train_callback_after_iteration 15000 no_refine_trainer
  = (no_refine_trainer, Raise ZeroDivisionError).
Proof.
  by apply (callback_zero_refine_every no_refine_trainer 15000 (model no_refine_trainer)).
Defined.

(** The densification of step 600. *)
Lemma refinement_after_densifies_witness :
  ∃ t',
    refinement_after 600 densify_trainer = (t', Ok tt)
    ∧ aligned (gauss_params (model t')) (num_points (model t'))
    ∧ synced (optimizers t') (num_points (model t')).
Proof.
  apply (refinement_after_densifies densify_trainer 3).
  - repeat split; by vm_compute.
  - by vm_compute.
  - split; [by repeat split|]. split; [lia|].
    split; [by eexists|]. split; [by eexists|]. split; [by eexists|].
    split; [by eexists|]. by vm_compute.
  - by repeat split; eexists.
Defined.

(** The reset of step 3100 zeroes the moments of the opacities. *)
Lemma opacity_reset_moments_witness :
  ∃ t',
    refinement_after 3100 reset_trainer = (t', Ok tt)
    ∧ opt_opacities (optimizers t') = adam0 Fzero 3
    ∧ opt_means (optimizers t') = opt_means (optimizers reset_trainer).
Proof.
  destruct (opacity_reset_moments reset_trainer
              (mkAdam (replicate 3 Fzero) (replicate 3 Fzero)))
    as (t' & Hrun & Ho).
  - repeat split; by vm_compute.
  - by vm_compute.
  - reflexivity.
  - exists t'. split; [exact Hrun|]. by rewrite Ho.
Defined.

(** The same step before the opacity optimizer has moments. *)
Lemma opacity_reset_without_moments_witness :
  ∃ t',
    refinement_after 3100 fresh_trainer = (t', Raise KeyError)
    ∧ model t' = clamped (model fresh_trainer).
Proof.
  apply (opacity_reset_without_moments fresh_trainer).
  - repeat split; by vm_compute.
  - by vm_compute.
  - by right.
Defined.

(** Two copies of row 1 for each of two samples. *)
Lemma dup_in_optim_appends_zeros_witness :
  ∃ z z',
    dup_in_optim (λ _ : spec_float, Fzero) [1%nat] 2
                 (Some (mkAdam [f 1; f 2] [f 3; f 4]))
    = (Some (mkAdam ([f 1; f 2] ++ z) ([f 3; f 4] ++ z')), Ok tt)
    ∧ length z = 2%nat ∧ length z' = 2%nat.
Proof.
  destruct (dup_in_optim_appends_zeros (λ _ : spec_float, Fzero) [1%nat] 2
              (mkAdam [f 1; f 2] [f 3; f 4]) 2) as (_ & Hrun & _);
    [reflexivity|reflexivity|lia|].
  destruct Hrun as (z & z' & Hrun & Hz & Hz' & _); [repeat constructor; lia|].
  by exists z, z'.
Defined.
End RefinementRuns.

(** ** Splitting *)

Lemma repeat_rows_lookup {A} (n : nat) (t : list A) (j : nat) :
  (j < n * length t)%nat → repeat_rows n t !! j = t !! (j `mod` length t)%nat.
Proof.
  unfold repeat_rows. revert j. induction n as [|n IH]; intros j Hj; [lia|].
  assert (Hk : length t ≠ 0%nat) by (intros Hz; rewrite Hz in Hj; lia).
  cbn [replicate concat].
  destruct (decide (j < length t)%nat) as [Hlt|Hge].
  - rewrite lookup_app_l by done. by rewrite Nat.mod_small.
  - rewrite lookup_app_r by lia. rewrite IH by lia. f_equal.
    replace j with ((j - length t) + 1 * length t)%nat at 2 by lia.
    by rewrite Nat.Div0.mod_add.
Qed.

Section Split.
Context {F : Type} `{!Scalar F} `{!Env F}.

Lemma randn3_lookup pos n j :
  (j < n)%nat →
  randn3 (F:=F) pos n !! j
  = Some (randn (pos + 3 * j), randn (pos + 3 * j + 1), randn (pos + 3 * j + 2))%nat.
Proof.
  intros Hj. unfold randn3. rewrite map_fmap, list_lookup_fmap.
  by rewrite lookup_seq_lt.
Qed.

Lemma primitive_Some (g : GaussParams F) i m sc q dc fr o :
  primitive g i = Some (m, sc, q, dc, fr, o)
  ↔ means g !! i = Some m ∧ scales g !! i = Some sc ∧ quats g !! i = Some q
    ∧ features_dc g !! i = Some dc ∧ features_rest g !! i = Some fr
    ∧ opacities g !! i = Some o.
Proof.
  unfold primitive. split.
  - destruct (means g !! i), (scales g !! i), (quats g !! i), (features_dc g !! i),
      (features_rest g !! i), (opacities g !! i); simpl; try done.
    by intros [= -> -> -> -> -> ->].
  - by intros (-> & -> & -> & -> & -> & ->).
Qed.

(** X15.  [split_gaussians] on an aligned, non-empty store with a 1-d mask
    and a count of samples that is not negative returns [samps * k]
    children for the [k] selected primitives.  Child [j] belongs to the
    selected primitive number [j mod k]: it has the parent's rotation,
    colour and opacity, the parent's scales divided by 1.6, and a mean drawn
    around the parent's with the parent's scales before the division.  In
    the store only the scales of the selected primitives change, to the
    same shrunk values, and the random stream advances by
    [3 * samps * k] draws. *)
Theorem split_children_inherit (s : Model F) (l : list bool) (samps : Z) (n : nat) :
  aligned (gauss_params s) n → n ≠ 0%nat → length l = n → 0 ≤ samps →
  let g := gauss_params s in
  let k := count_true l in
  let total := (Z.to_nat samps * k)%nat in
  ∃ s' c,
    split_gaussians (MaskN l) samps s = (s', Ok c)
    ∧ aligned c total
    ∧ (∀ j m sc q dc fr o,
         (j < total)%nat →
         primitive (select_params l g) (j `mod` k)%nat = Some (m, sc, q, dc, fr, o) →
         primitive c j
         = Some (zip3 Fadd
                   (matvec (quat_to_rotmat (normalize4 q))
                      (zip3 Fmul (map3 Fexp sc)
                         (randn (rng s + 3 * j), randn (rng s + 3 * j + 1),
                          randn (rng s + 3 * j + 2))%nat))
                   m,
                 shrink sc, q, dc, fr, o))
    ∧ (∀ i sc, scales g !! i = Some sc →
         scales (gauss_params s') !! i = Some (if flag_at l i then shrink sc else sc))
    ∧ set_scales (scales g) (gauss_params s') = g
    ∧ rng s' = (rng s + 3 * total)%nat.
Proof.
  intros Ha Hn Hl Hs g k total. subst g.
  pose proof (split_gaussians_run s l samps n Ha Hn Hl Hs) as Hrun.
  eexists _, _. split; [exact Hrun|].
  pose proof (select_params_aligned l _ n Ha Hl) as (P1 & P2 & P3 & P4 & P5 & P6).
  fold k in P1, P2, P3, P4, P5, P6. cbn [select_params means scales quats features_dc
    features_rest opacities] in P1, P2, P3, P4, P5, P6.
  split; [by eapply split_children_aligned|].
  split; [|split; [|split]].
  - intros j m sc q dc fr o Hj Hp.
    apply primitive_Some in Hp as (Hm & Hsc & Hq & Hdc & Hfr & Ho).
    cbn [select_params means scales quats features_dc features_rest opacities] in *.
    apply primitive_Some. unfold split_children.
    cbn [means scales quats features_dc features_rest opacities].
    rewrite !lookup_zip_with, !map_fmap, !list_lookup_fmap.
    rewrite !repeat_rows_lookup
      by (rewrite ?length_fmap, ?length_map; first [rewrite P1|rewrite P2|rewrite P3
            |rewrite P4|rewrite P5|rewrite P6]; exact Hj).
    rewrite ?length_fmap, ?length_map, P1, P2, P3, P4, P5, P6.
    rewrite !list_lookup_fmap, Hm, Hsc, Hq, Hdc, Hfr, Ho.
    rewrite randn3_lookup by exact Hj. done.
  - intros i sc Hsc. unfold split_state. rewrite gauss_params_set.
    cbn [scales set_scales]. by rewrite update_where_lookup, Hsc.
  - unfold split_state. rewrite gauss_params_set. by destruct (gauss_params s).
  - unfold split_state. cbn [rng set_gauss_params set_rng]. subst total k. done.
Qed.

(** X16.  The densification needs two primitives.  With statistics in
    place, [grow] on an empty store raises [ZeroDivisionError] (the message
    of [split_gaussians] divides by the count), and on a store of one
    primitive it raises [RuntimeError] (the squeezed mask has no axis to
    repeat along); the six tensors are untouched in both cases. *)
Theorem grow_needs_two (s : Model F) (n : nat) gn vc m2 hw :
  aligned (gauss_params s) n →
  xys_grad_norm s = Some gn → vis_counts s = Some vc → max_2Dsize s = Some m2 →
  last_size s = Some hw →
  length gn = n → length vc = n → length m2 = n →
  (n = 0%nat → grow s = (s, Raise ZeroDivisionError))
  ∧ (n = 1%nat →
     ∃ s', grow s = (s', Raise RuntimeError) ∧ gauss_params s' = gauss_params s).
Proof.
  intros Ha Hgn Hvc Hm2 Hls L1 L2 L3.
  pose proof Ha as (H1 & H2 & _).
  assert (Hhg : length (high_grad_flags s) = n).
  { erewrite length_high_grad_flags by done. lia. }
  assert (Hsb : length (split_flags s (high_grad_flags s)) = n)
    by (eapply length_split_flags; eauto).
  unfold grow.
  erewrite bind_ok; [|eapply high_grads_mask_run; eauto; congruence].
  erewrite bind_ok; [|eapply split_mask_run; eauto].
  rewrite bind_gets.
  split.
  - intros ->. erewrite bind_raise; [done|].
    unfold split_gaussians. rewrite bind_get. cbv zeta.
    unfold num_points. by rewrite decide_True.
  - intros ->.
    destruct (split_flags s (high_grad_flags s)) as [|b [|]] eqn:E; try done.
    cbn [squeeze].
    set (c := split_gaussians _ _).
    assert (Hc : ∃ s', c s = (s', Raise RuntimeError)
                       ∧ gauss_params s' = gauss_params s).
    { subst c. unfold split_gaussians. rewrite bind_get. cbv zeta.
      unfold num_points. rewrite decide_False by (rewrite H1; lia).
      rewrite bind_ret.
      destruct (_ <? 0); [by eexists|].
      rewrite bind_ret, bind_modify. by eexists. }
    destruct Hc as (s' & Hc & Hg). exists s'. split; [|done].
    by erewrite bind_raise.
Qed.
End Split.

Section SplitRuns.
Import Binary32 Offscreen Examples Runs.

(** The first and the third primitive of [store3] split in two. *)
Lemma split_children_inherit_witness :
  ∃ s' c,
    split_gaussians (MaskN [true; false; true]) 2 (model densify_trainer) = (s', Ok c)
    ∧ aligned c 4 ∧ rng s' = 12%nat.
Proof.
  destruct (split_children_inherit (model densify_trainer) [true; false; true] 2 3)
    as (s' & c & Hrun & Hal & _ & _ & _ & Hrng);
    [by repeat split|lia|reflexivity|lia|].
  by exists s', c.
Defined.

(** No primitive, and one. *)
Lemma grow_needs_two_witness :
  grow empty_model = (empty_model, Raise ZeroDivisionError)
  ∧ ∃ s', grow single_model = (s', Raise RuntimeError)
          ∧ gauss_params s' = gauss_params single_model.
Proof.
  split.
  - by apply (grow_needs_two empty_model 0 [] [] [] (2, 2)).
  - by apply (grow_needs_two single_model 1 [f 1] [f 1] [f 0] (2, 2)).
Defined.
End SplitRuns.

(** ** Rendering *)

Section Rendering.
Context {F : Type} `{!Scalar F} `{!Env F}.

Lemma img_map_clamp_max (c : F) (a : image F) :
  Fgt c c = false → bounded_by c (img_map (clamp_max c) a).
Proof.
  intros Hc. unfold bounded_by, img_map.
  rewrite !map_fmap. apply Forall_fmap, Forall_forall. intros row _. simpl.
  rewrite !map_fmap. apply Forall_fmap, Forall_forall. intros px _. simpl.
  rewrite !map_fmap. apply Forall_fmap, Forall_forall. intros x _. simpl.
  by apply clamp_max_bound.
Qed.

Lemma get_outputs_same {B} (p : Model F → B) camera_to_world K width height :
  (∀ v s, p (set_rng v s) = p s) →
  (∀ v s, p (set_last_size v s) = p s) →
  (∀ v s, p (set_radii v s) = p s) →
  (∀ v s, p (set_xys v s) = p s) →
  preserves p (get_outputs camera_to_world K width height).
Proof.
  intros H1 H2 H3 H4. unfold get_outputs, _get_downscale_factor, repeat_hw.
  repeat (frame_step || (apply steps_modify; intros; unfold same; auto)).
Qed.

(** X17.  Rendering reads the store and never writes it: after
    [get_outputs], returned or raised, the six tensors, the step, the
    configuration and the three accumulators are as before. *)
Theorem get_outputs_frame (s : Model F) camera_to_world K (width height : Z) :
  let s' := (get_outputs camera_to_world K width height s).1 in
  gauss_params s' = gauss_params s ∧ step s' = step s ∧ config s' = config s
  ∧ training s' = training s ∧ xys_grad_norm s' = xys_grad_norm s
  ∧ vis_counts s' = vis_counts s ∧ max_2Dsize s' = max_2Dsize s.
Proof.
  cbv zeta. repeat split.
  all: match goal with
       | |- ?p (get_outputs _ _ _ _ _).1 = _ => by apply (get_outputs_same p)
       end.
Qed.

Lemma _get_downscale_factor_wp (s : Model F) :
  wp _get_downscale_factor (λ d s', s' = s ∧ d = downscale_factor s) (λ _, True) s.
Proof.
  unfold _get_downscale_factor, downscale_factor, py_floordiv.
  wp_step. wp_step. destruct (training s); [|by wp_step].
  wp_step. destruct (_ =? 0); by wp_step.
Qed.

Lemma get_outputs_wp (s : Model F) camera_to_world K width height :
  let d := downscale_factor s in
  let W := width `div` d in
  let H := height `div` d in
  let rad := (project (gauss_params s) (view_matrix camera_to_world)
                      (intrinsics K d) W H).1.1.1 in
  wp (get_outputs camera_to_world K width height)
     (λ out s',
        last_size s' = Some (H, W) ∧ radii s' = Some rad
        ∧ (foldr Z.add 0 rad ≠ 0 →
           Config.rasterize_mode (config s) = classic
           ∧ (Fgt (Fone : F) Fone = false → bounded_by Fone (rgb out))))
     (λ _, True) s.
Proof.
  intros d W H rad. unfold get_outputs.
  wp_step. wp_step; [|done]. wp_step. wp_step. cbv zeta.
  wp_step.
  eapply wp_mono with
    (Q := λ _ s1, gauss_params s1 = gauss_params s ∧ downscale_factor s1 = d)
    (E := λ _, True); [| |done].
  { destruct (training s) eqn:Ht; cbv iota; [|by wp_step].
    destruct (Config.background_color (config s)); repeat wp_step; done. }
  intros bg s1 [Hg1 Hd1]. cbv beta.
  wp_step. eapply wp_mono; [apply _get_downscale_factor_wp| |done].
  intros d' s2 [-> ->]. rewrite Hd1. fold W H. cbv beta iota zeta.
  wp_step. wp_step. wp_step.
  eapply wp_mono with (Q := λ _ s3, s3 = set_last_size (Some (H, W)) s1)
                      (E := λ _, True); [| |done].
  { destruct (decide _); by wp_step. }
  intros colors s3 ->.
  destruct (project _ _ _ _ _) as [[[radii_ means2d] depths] conics] eqn:Hproj.
  subst rad. cbn [fst].
  unfold repeat_hw, py_floordiv.
  repeat (first [wp_step | progress cbv beta zeta]); try done.
  all: cbn [last_size radii set_radii set_xys set_last_size rgb].
  all: split; [done|split; [done|intros Hne]].
  all: first [ by apply Z.eqb_eq in Heqb
             | split; [done|by apply img_map_clamp_max] ].
Qed.

(** X18.  A render that returns has recorded its size and radii:
    [last_size] is the downscaled [(height, width)] and [radii] the radii
    of the projection, which [after_train] and the refinement read. *)
Theorem get_outputs_records (s s' : Model F) camera_to_world K width height out :
  get_outputs camera_to_world K width height s = (s', Ok out) →
  let d := downscale_factor s in
  last_size s' = Some (height `div` d, width `div` d)
  ∧ radii s'
    = Some (project (gauss_params s) (view_matrix camera_to_world)
                    (intrinsics K d) (width `div` d) (height `div` d)).1.1.1.
Proof.
  intros Hrun d.
  assert (Hwp : wp (get_outputs camera_to_world K width height)
                   (λ _ s', last_size s' = Some (height `div` d, width `div` d)
                            ∧ radii s' = Some (project (gauss_params s)
                                 (view_matrix camera_to_world) (intrinsics K d)
                                 (width `div` d) (height `div` d)).1.1.1)
                   (λ _, True) s).
  { eapply wp_mono; [apply (get_outputs_wp s camera_to_world K width height)| |done].
    cbv beta. intros out' s2 (H1 & H2 & _). by split. }
  unfold wp in Hwp. by rewrite Hrun in Hwp.
Qed.

(** X19.  A render with something on screen (the radii do not sum to zero)
    returns only in the classic mode - in the antialiased mode the
    compensation factors are missing and it raises - and, in an arithmetic
    where one does not exceed itself, every colour it returns is at most
    one. *)
Theorem get_outputs_visible (s s' : Model F) camera_to_world K width height out rad :
  Fgt (Fone : F) Fone = false →
  get_outputs camera_to_world K width height s = (s', Ok out) →
  radii s' = Some rad → foldr Z.add 0 rad ≠ 0 →
  Config.rasterize_mode (config s) = classic ∧ bounded_by Fone (rgb out).
Proof.
  intros Hone Hrun Hrad Hne.
  pose proof (get_outputs_wp s camera_to_world K width height) as Hwp.
  cbv zeta in Hwp. unfold wp in Hwp. rewrite Hrun in Hwp.
  destruct Hwp as (_ & Hr & Hvis). rewrite Hrad in Hr. injection Hr as ->.
  destruct (Hvis Hne) as [Hc Hb]. split; [done|by apply Hb].
Qed.

(** X20.  The resolution schedule.  In training, with a positive
    [resolution_schedule] and steps and [num_downscales] that are not
    negative, [_get_downscale_factor] returns a power of two between 1 and
    [2 ^ num_downscales]; it does not go up as the step goes up, and it is 1
    from step [num_downscales * resolution_schedule] on. *)
Theorem downscale_schedule (s s2 : Model F) :
  training s = true → training s2 = true → config s2 = config s →
  0 < Config.resolution_schedule (config s) →
  0 ≤ Config.num_downscales (config s) →
  0 ≤ step s → step s ≤ step s2 →
  ∃ k d2,
    _get_downscale_factor s = (s, Ok (2 ^ k))
    ∧ _get_downscale_factor s2 = (s2, Ok d2)
    ∧ 0 ≤ k ≤ Config.num_downscales (config s)
    ∧ 1 ≤ d2 ≤ 2 ^ k
    ∧ (Config.num_downscales (config s) * Config.resolution_schedule (config s)
       ≤ step s → k = 0).
Proof.
  intros Ht Ht2 Hc Hres Hnd Hs Hle.
  set (nd := Config.num_downscales (config s)) in *.
  set (rs := Config.resolution_schedule (config s)) in *.
  exists (Z.max (nd - step s `div` rs) 0), (downscale_factor s2).
  assert (Hq : 0 ≤ step s `div` rs) by (apply Z.div_pos; lia).
  assert (Hq2 : step s `div` rs ≤ step s2 `div` rs) by (apply Z.div_le_mono; lia).
  split; [|split; [|split; [|split]]].
  - rewrite _get_downscale_factor_run by (intros _; fold rs; lia).
    unfold downscale_factor. by rewrite Ht.
  - apply _get_downscale_factor_run. intros _. rewrite Hc. fold rs. lia.
  - lia.
  - pose proof (downscale_factor_pos s2). split; [lia|].
    unfold downscale_factor. rewrite Ht2, Hc. fold nd rs.
    apply Z.pow_le_mono_r; lia.
  - intros Hlate.
    assert (nd ≤ step s `div` rs); [|lia].
    apply Z.div_le_lower_bound; lia.
Qed.
End Rendering.

Section RenderingRuns.
Import Binary32 Offscreen Examples Runs.

(** An 8 x 4 view at step 100 is rendered at 2 x 1. *)
Lemma get_outputs_records_witness :
  ∃ s' out,
    get_outputs pose pinhole 8 4 (model0 cfg store3 100) = (s', Ok out)
    ∧ last_size s' = Some (1, 2) ∧ radii s' = Some [0; 0; 0].
Proof.
  assert (Hrun : ∃ s' out,
            get_outputs pose pinhole 8 4 (model0 cfg store3 100) = (s', Ok out))
    by (eexists _, _; vm_compute; reflexivity).
  destruct Hrun as (s' & out & Hrun). exists s', out. split; [exact Hrun|].
  exact (get_outputs_records _ _ _ _ _ _ _ Hrun).
Defined.

(** The factor is 2 at step 4500 and 1 at step 7000. *)
Lemma downscale_schedule_witness :
  ∃ k d2,
    _get_downscale_factor mid_model = (mid_model, Ok (2 ^ k))
    ∧ _get_downscale_factor saved_model = (saved_model, Ok d2)
    ∧ 0 ≤ k ≤ 2 ∧ 1 ≤ d2 ≤ 2 ^ k.
Proof.
  destruct (downscale_schedule mid_model saved_model)
    as (k & d2 & H1 & H2 & Hk & Hd & _);
    [reflexivity|reflexivity|reflexivity|by vm_compute..|].
  by exists k, d2.
Defined.
End RenderingRuns.

Section VisibleRuns.
Import Binary32 Onscreen Examples Runs.

(** The three primitives of [store3] on screen, in evaluation. *)
Lemma get_outputs_visible_witness :
  ∃ s' out,
    get_outputs pose pinhole 8 4 (set_training false (model0 cfg store3 100))
    = (s', Ok out)
    ∧ bounded_by Fone (rgb out).
Proof.
  assert (Hrun : ∃ s' out,
            get_outputs pose pinhole 8 4 (set_training false (model0 cfg store3 100))
            = (s', Ok out))
    by (eexists _, _; vm_compute; reflexivity).
  destruct Hrun as (s' & out & Hrun). exists s', out. split; [exact Hrun|].
  apply (get_outputs_visible (set_training false (model0 cfg store3 100))
           s' pose pinhole 8 4 out [1; 1; 1]);
    [by vm_compute|exact Hrun| |by vm_compute].
  apply (f_equal fst) in Hrun. simpl in Hrun. rewrite <- Hrun. by vm_compute.
Defined.
End VisibleRuns.

(** ** Checkpoints *)

Ltac key_ne := let Hk := fresh in intros Hk; vm_compute in Hk; discriminate.
Ltac lookup_keys :=
  repeat first [ rewrite lookup_insert_eq
               | rewrite lookup_insert_ne by key_ne ].


Section Loading.
Context {F : Type} `{!Scalar F} `{!Env F}.

Lemma state_dict_holds (s : Model F) : holds_params (state_dict s) s.
Proof.
  unfold holds_params. cbv zeta.
  by rewrite state_dict_means, state_dict_scales, state_dict_quats,
    state_dict_features_dc, state_dict_features_rest, state_dict_opacities.
Qed.

Lemma load_gauss_params_of d (saved mid : Model F) strict :
  store_wf saved → holds_params d saved →
  gauss_params mid = zero_params (num_points saved) (rest_bases mid) →
  load_gauss_params d strict mid
  = if decide (rest_bases saved = rest_bases mid)
    then (set_gauss_params (gauss_params saved) mid, Ok true)
    else (set_gauss_params
            (set_features_rest
               (replicate (num_points saved) (replicate (rest_bases mid) zero3))
               (gauss_params saved))
            mid, Ok false).
Proof.
  intros [(H1 & H2 & H3 & H4 & H5 & H6) Hrows] (D1 & D2 & D3 & D4 & D5 & D6) Hmid.
  unfold load_gauss_params, load_param. rewrite bind_get. cbv zeta.
  rewrite D1, D2, D3, D4, D5, D6.
  rewrite Hmid. cbn [zero_params means scales quats features_dc features_rest
                     opacities shape data means_tensor quats_tensor rest_tensor
                     opacities_tensor].
  rewrite !length_replicate, H2, H3, H4, H5, H6.
  change (length (means (gauss_params saved))) with (num_points saved).
  rewrite !(decide_True (P := [num_points saved; _] = _)) by done.
  repeat (rewrite bind_assoc || rewrite bind_modify || rewrite bind_ret).
  destruct (decide (rest_bases saved = rest_bases mid)) as [Hb|Hb].
  - rewrite decide_True by (by rewrite Hb).
    repeat (rewrite bind_assoc || rewrite bind_modify || rewrite bind_ret).
    rewrite !chunk3_flat3, chunk4_flat4. rewrite <- Hb, <- H5.
    rewrite chunks_flat by done.
    unfold mret, M_ret, set_gp. clear.
    generalize (gauss_params saved). intros [a1 a2 a3 a4 a5 a6].
    by destruct mid as [c0 n0 [b1 b2 b3 b4 b5 b6] rb cs st tr bg x1 x2 x3 x4 x5 x6 x7].
  - rewrite decide_False by congruence.
    repeat (rewrite bind_assoc || rewrite bind_modify || rewrite bind_ret).
    rewrite !chunk3_flat3, chunk4_flat4.
    unfold mret, M_ret, set_gp. clear -Hmid. revert Hmid.
    generalize (gauss_params saved). intros [a1 a2 a3 a4 a5 a6].
    destruct mid as [c0 n0 [b1 b2 b3 b4 b5 b6] rb cs st tr bg x1 x2 x3 x4 x5 x6 x7].
    cbn. intros [= -> -> -> -> -> ->]. done.
Qed.

Lemma load_children_returns d strict (l : list (string * tensor F)) (s : Model F) :
  ∃ b, (load_children d strict l s).2 = Ok b.
Proof.
  revert s. induction l as [|[k cur] l IH]; intros s; [by eexists|].
  cbn [load_children]. unfold load_child at 1, load_param.
  destruct (d !! k) as [t|]; [destruct (decide _)|].
  all: repeat (rewrite bind_assoc || rewrite bind_modify || rewrite bind_ret).
  all: match goal with
       | IH' : ∀ s, ∃ b, _ |- ∃ b, ((load_children ?d0 ?st ?l0 ≫= _) ?s1).2 = _ =>
         destruct (IH' s1) as [b Hb];
         destruct (load_children d0 st l0 s1) as [s2 r] eqn:Hrun
       end.
  all: cbn [snd] in Hb; subst r; rewrite (bind_ok _ _ _ _ _ Hrun); by eexists.
Qed.

(** The generic loader on a store resized for [saved], for a dict that
    holds its six tensors and an entry of the right shape for every child
    entry of the live model. *)
Lemma module_load_state_dict_of d (saved mid : Model F) strict :
  store_wf saved → holds_params d saved →
  gauss_params mid = zero_params (num_points saved) (rest_bases mid) →
  rest_bases saved = rest_bases mid →
  Forall (λ kc, ∃ t, d !! kc.1 = Some t ∧ shape t = shape kc.2)
         (map_to_list (child_state mid)) →
  ∃ s1,
    module_load_state_dict d strict mid
    = (s1, if negb strict
              || bool_decide (dom d ⊆ list_to_set (map gauss_key param_keys)
                                      ∪ dom (child_state mid))
           then Ok tt else Raise RuntimeError)
    ∧ gauss_params s1 = gauss_params saved.
Proof.
  intros Hwf Hd Hmid Hb Hch. unfold module_load_state_dict. rewrite bind_get.
  pose proof (load_gauss_params_of d saved mid strict Hwf Hd Hmid) as Hg.
  rewrite decide_True in Hg by done.
  rewrite (bind_ok _ _ _ _ _ Hg).
  match goal with |- ∃ _, ((load_children ?d _ ?l ≫= _) ?s1) = _ ∧ _ =>
    pose proof (load_children_ok d strict l s1 Hch) as Hc;
    pose proof (load_children_gauss_params d strict l s1) as Hgp;
    destruct (load_children d strict l s1) as [s2 r] eqn:Hrun
  end.
  cbn [snd] in Hc. subst r. unfold same in Hgp. cbn [fst] in Hgp.
  rewrite (bind_ok _ _ _ _ _ Hrun). cbv zeta. cbn [andb].
  exists s2. split; [|by rewrite Hgp].
  by destruct (negb strict || _).
Qed.

Lemma remap_legacy (s : Model F) : remap param_keys (legacy_dict s) = Ok (remapped s).
Proof.
  unfold param_keys, remapped. cbn [remap]. unfold legacy_dict at 1.
  rewrite lookup_insert_eq.
  repeat (match goal with
          | |- context [match ?m !! ?k with _ => _ end] =>
              let E := fresh in
              assert (E : is_Some (m !! k))
                by (unfold legacy_dict; lookup_keys; by eexists);
              destruct E as [? E];
              rewrite E;
              unfold legacy_dict in E; revert E; lookup_keys; intros [= <-]
          end).
  reflexivity.
Qed.

Lemma remapped_holds (s : Model F) : holds_params (remapped s) s.
Proof. unfold holds_params, remapped. cbv zeta. repeat split; by lookup_keys. Qed.

Lemma remapped_other (s : Model F) k :
  Forall (λ p, k ≠ p ∧ k ≠ gauss_key p) param_keys →
  remapped s !! k = child_state s !! k.
Proof.
  intros Hk. unfold param_keys in Hk.
  repeat (apply Forall_cons in Hk as [[? ?] Hk]).
  unfold remapped, legacy_dict. by rewrite !lookup_insert_ne by done.
Qed.

Lemma legacy_keys_other (s : Model F) k :
  legacy_keys_ok s → is_Some (child_state s !! k) →
  Forall (λ p, k ≠ p ∧ k ≠ gauss_key p) param_keys.
Proof.
  intros Hs Hk. eapply Forall_impl; [exact Hs|].
  intros p [Hp Hq]. split; intros ->; [rewrite Hp in Hk|rewrite Hq in Hk];
    by destruct Hk.
Qed.

(** X21.  An old-format checkpoint (the six tensors under their bare names)
    of a saved model loads into a live model with the same modules only
    when the load is not strict: the remapped dict keeps the bare names,
    which a strict load reports as unexpected keys and raises
    [RuntimeError] for.  In both cases the six tensors of the live model
    are those of the checkpoint afterwards. *)
Theorem legacy_checkpoint (saved live : Model F) :
  store_wf saved → legacy_keys_ok saved → same_modules saved live →
  (∃ s', load_state_dict (legacy_dict saved) false live = (s', Ok (remapped saved))
         ∧ gauss_params s' = gauss_params saved)
  ∧ (∃ s', load_state_dict (legacy_dict saved) true live = (s', Raise RuntimeError)
           ∧ gauss_params s' = gauss_params saved).
Proof.
  intros Hwf Hkeys Hsame.
  assert (Hmid : gauss_params (resized saved live)
                 = zero_params (num_points saved) (rest_bases (resized saved live)))
    by done.
  assert (Hch : Forall (λ kc, ∃ t, remapped saved !! kc.1 = Some t
                              ∧ shape t = shape kc.2)
                       (map_to_list (child_state (resized saved live)))).
  { apply Forall_forall. intros [k cur] Hin%elem_of_map_to_list. cbn [fst snd].
    destruct Hsame as [_ Hsh]. specialize (Hsh k).
    change (child_state (resized saved live)) with (child_state live) in Hin.
    rewrite Hin in Hsh.
    destruct (child_state saved !! k) as [t|] eqn:Ht; [|done].
    exists t. split; [|by injection Hsh].
    rewrite remapped_other; [done|]. by eapply legacy_keys_other. }
  assert (Hunexp : bool_decide (dom (remapped saved)
                     ⊆ list_to_set (map gauss_key param_keys)
                       ∪ dom (child_state (resized saved live))) = false).
  { apply bool_decide_eq_false_2. intros Hsub.
    assert (Hin : "means"%string ∈ dom (remapped saved)).
    { apply elem_of_dom. unfold remapped, legacy_dict. lookup_keys. by eexists. }
    apply Hsub in Hin. apply elem_of_union in Hin as [Hin|Hin].
    - unfold param_keys in Hin. cbn [map list_to_set] in Hin.
      repeat (apply elem_of_union in Hin as [Hin|Hin];
              [apply elem_of_singleton in Hin; by vm_compute in Hin|]).
      by apply elem_of_empty in Hin.
    - change (child_state (resized saved live)) with (child_state live) in Hin.
      rewrite (same_modules_dom _ _ Hsame) in Hin. apply elem_of_dom in Hin.
      unfold legacy_keys_ok, param_keys in Hkeys.
      apply Forall_cons in Hkeys as [[Hm _] _]. rewrite Hm in Hin. by destruct Hin. }
  assert (Hload : ∀ strict,
    load_state_dict (legacy_dict saved) strict live
    = (module_load_state_dict (remapped saved) strict;; mret (remapped saved))
        (resized saved live)).
  { intros strict. unfold load_state_dict. rewrite bind_modify.
    rewrite bool_decide_eq_true_2
      by (unfold legacy_dict; lookup_keys; by eexists).
    rewrite remap_legacy, bind_lift_ok.
    destruct (remapped_holds saved) as (D1 & _). rewrite D1, bind_ret.
    unfold means_tensor. cbv beta iota delta [shape]. rewrite bind_ret.
    by rewrite (bind_ok _ _ _ _ _ (resize_params_run _ _)). }
  split.
  - destruct (module_load_state_dict_of (remapped saved) saved _ false Hwf
                (remapped_holds saved) Hmid (eq_sym (proj1 Hsame)) Hch)
      as (s1 & Hrun & Hg).
    exists s1. split; [|done]. rewrite Hload. by rewrite (bind_ok _ _ _ _ _ Hrun).
  - destruct (module_load_state_dict_of (remapped saved) saved _ true Hwf
                (remapped_holds saved) Hmid (eq_sym (proj1 Hsame)) Hch)
      as (s1 & Hrun & Hg).
    rewrite Hunexp in Hrun. cbn [negb orb] in Hrun.
    exists s1. split; [|done]. rewrite Hload. by rewrite (bind_raise _ _ _ _ _ Hrun).
Qed.

Lemma remap_missing ps (d : gmap string (tensor F)) :
  Forall (λ p, ∀ q, gauss_key q ≠ p) ps →
  Exists (λ p, d !! p = None) ps →
  remap ps d = Raise KeyError.
Proof.
  revert d. induction ps as [|p ps IH]; intros d Hne Hex.
  - by apply Exists_nil in Hex.
  - apply Forall_cons in Hne as [Hp Hne].
    cbn [remap]. destruct (d !! p) as [t|] eqn:E; [|done].
    apply IH; [done|]. apply Exists_cons in Hex as [Hex|Hex]; [congruence|].
    apply Exists_exists in Hex as (p' & Hin & Hnone).
    apply Exists_exists. exists p'. split; [done|].
    rewrite lookup_insert_ne; [done|].
    rewrite Forall_forall in Hne. by apply Hne.
Qed.

Lemma gauss_key_not_bare : Forall (λ p, ∀ q, gauss_key q ≠ p) param_keys.
Proof. unfold param_keys. repeat constructor; intros q; by vm_compute. Qed.

(** X22.  A dict without the means is refused with [KeyError] after the
    step has been set to 30000 and before the store is resized: this is so
    when neither ["means"] nor ["gauss_params.means"] is a key, and when
    ["means"] is a key but another of the six bare names is not. *)
Theorem load_state_dict_missing_key (dict : gmap string (tensor F)) (strict : bool)
    (s : Model F) :
  (dict !! "means"%string = None ∧ dict !! gauss_key "means" = None)
  ∨ (is_Some (dict !! "means"%string) ∧ Exists (λ p, dict !! p = None) param_keys) →
  load_state_dict dict strict s = (set_step 30000 s, Raise KeyError).
Proof.
  intros [[Hm Hg]|[Hm Hex]]; unfold load_state_dict; rewrite bind_modify.
  - rewrite bool_decide_eq_false_2 by (rewrite Hm; by intros [? ?]).
    by rewrite bind_ret, Hg.
  - rewrite bool_decide_eq_true_2 by done.
    by rewrite (remap_missing _ _ gauss_key_not_bare Hex).
Qed.

(** X23.  A checkpoint saved with another number of spherical-harmonics
    bases does not load: [load_state_dict] raises [RuntimeError], strict or
    not, and leaves the five other tensors of the checkpoint in the store
    and [features_rest] as [N] zero rows of the live width. *)
Theorem load_state_dict_other_degree (saved live : Model F) (strict : bool) :
  store_wf saved → child_keys_ok saved →
  rest_bases saved ≠ rest_bases live →
  ∃ s',
    load_state_dict (state_dict saved) strict live = (s', Raise RuntimeError)
    ∧ gauss_params s'
      = set_features_rest
          (replicate (num_points saved) (replicate (rest_bases live) zero3))
          (gauss_params saved)
    ∧ step s' = 30000.
Proof.
  intros Hwf Hkeys Hb.
  rewrite (load_state_dict_resize saved live strict Hkeys).
  assert (Hmid : gauss_params (resized saved live)
                 = zero_params (num_points saved) (rest_bases (resized saved live)))
    by done.
  pose proof (load_gauss_params_saved saved _ strict Hwf Hmid) as Hg.
  rewrite decide_False in Hg by done.
  assert (Hrun : ∃ s1, module_load_state_dict (state_dict saved) strict
                         (resized saved live) = (s1, Raise RuntimeError)
                       ∧ gauss_params s1
                         = set_features_rest
                             (replicate (num_points saved)
                                (replicate (rest_bases live) zero3))
                             (gauss_params saved)
                       ∧ step s1 = 30000).
  { unfold module_load_state_dict. rewrite bind_get.
    rewrite (bind_ok _ _ _ _ _ Hg).
    match goal with |- ∃ _, ((load_children ?d ?st ?l ≫= _) ?s0) = _ ∧ _ =>
      destruct (load_children_returns d st l s0) as [b Hb'];
      pose proof (load_children_gauss_params d st l s0) as Hgp;
      pose proof (load_children_step d st l s0) as Hst;
      destruct (load_children d st l s0) as [s2 r] eqn:Hc
    end.
    cbn [snd] in Hb'. subst r. unfold same in Hgp, Hst. cbn [fst] in Hgp, Hst.
    rewrite (bind_ok _ _ _ _ _ Hc). cbv zeta. cbn [andb].
    exists s2. split; [done|]. split; [by rewrite Hgp|by rewrite Hst]. }
  destruct Hrun as (s1 & Hrun & Hg1 & Hs1). exists s1.
  by rewrite (bind_raise _ _ _ _ _ Hrun).
Qed.

Lemma load_children_same {B} (p : Model F → B) d strict l :
  (∀ v s, p (set_child_state v s) = p s) →
  preserves p (load_children d strict l).
Proof.
  intros Hp. induction l as [|[k cur] l IH]; cbn [load_children]; frame; [|done].
  unfold load_child, load_param. frame. apply steps_modify. intros s0. apply Hp.
Qed.

Lemma load_children_state d strict (l : list (string * tensor F)) (s : Model F) k :
  Forall (λ kc, ∃ t, d !! kc.1 = Some t ∧ shape t = shape kc.2) l →
  child_state (load_children d strict l s).1 !! k
  = if decide (k ∈ l.*1) then d !! k else child_state s !! k.
Proof.
  intros Hl. revert s.
  induction Hl as [|[k0 cur] l (t & Hk & Hsh) _ IH]; intros s.
  - cbn. rewrite decide_False; [done|]. apply not_elem_of_nil.
  - cbn [load_children fst snd fmap list_fmap] in *.
    unfold load_child at 1, load_param. rewrite Hk, decide_True by done.
    repeat (rewrite bind_assoc || rewrite bind_modify || rewrite bind_ret).
    match goal with |- context [(load_children d strict l ≫= _) ?s1] =>
      specialize (IH s1);
      pose proof (load_children_returns d strict l s1) as [b Hb];
      destruct (load_children d strict l s1) as [s2 r] eqn:Hrun
    end.
    cbn [fst snd] in IH, Hb. subst r. rewrite (bind_ok _ _ _ _ _ Hrun).
    cbn [fst mret M_ret]. rewrite IH. cbn [child_state set_child_state].
    assert (Ht : mkTensor (shape cur) (data t) = t) by (destruct t; simpl in *; by subst).
    rewrite Ht.
    destruct (decide (k = k0)) as [->|Hne].
    + rewrite (decide_True (P := k0 ∈ k0 :: _)) by apply list_elem_of_here.
      destruct (decide _); [done|]. by rewrite lookup_insert_eq.
    + rewrite lookup_insert_ne by done.
      destruct (decide (k ∈ l.*1)) as [Hin|Hin].
      * by rewrite decide_True by by apply list_elem_of_further.
      * rewrite decide_False; [done|]. by intros [?|?]%elem_of_cons.
Qed.

(** X24.  Saving, loading and saving again gives the same dict: after
    [load_state_dict] of the state dict of a saved model into a live model
    with the same modules, the state dict of the live model - the six
    tensors and the entries of the child modules - is the one that was
    loaded. *)
Theorem state_dict_round_trip (saved live : Model F) (strict : bool) :
  store_wf saved → child_keys_ok saved → same_modules saved live →
  ∃ s',
    load_state_dict (state_dict saved) strict live = (s', Ok (state_dict saved))
    ∧ state_dict s' = state_dict saved.
Proof.
  intros Hwf Hkeys Hsame.
  rewrite (load_state_dict_resize saved live strict Hkeys).
  set (mid := resized saved live).
  assert (Hmid : gauss_params mid = zero_params (num_points saved) (rest_bases mid))
    by done.
  assert (Hch : Forall (λ kc, ∃ t, state_dict saved !! kc.1 = Some t
                              ∧ shape t = shape kc.2)
                       (map_to_list (child_state mid))).
  { apply Forall_forall. intros [k cur] Hin%elem_of_map_to_list. cbn [fst snd].
    destruct Hsame as [_ Hsh]. specialize (Hsh k).
    change (child_state mid) with (child_state live) in Hin. rewrite Hin in Hsh.
    destruct (child_state saved !! k) as [t|] eqn:Ht; [|done].
    exists t. split; [|by injection Hsh].
    rewrite state_dict_other; [done|]. by eapply child_keys_other. }
  enough (∃ s2, module_load_state_dict (state_dict saved) strict mid = (s2, Ok tt)
                ∧ state_dict s2 = state_dict saved) as (s2 & Hrun & Hsd).
  { exists s2. split; [|done]. by rewrite (bind_ok _ _ _ _ _ Hrun). }
  pose proof (module_load_state_dict_run saved mid strict Hwf Hkeys Hsame Hmid) as Hok.
  pose proof (load_gauss_params_saved saved mid strict Hwf Hmid) as Hg.
  rewrite decide_True in Hg by (symmetry; apply Hsame).
  unfold module_load_state_dict in Hok |- *. rewrite bind_get in Hok |- *.
  rewrite (bind_ok _ _ _ _ _ Hg) in Hok |- *.
  set (s1 := set_gauss_params (gauss_params saved) mid) in *.
  set (l := map_to_list (child_state mid)) in *.
  pose proof (load_children_gauss_params (state_dict saved) strict l s1) as Hgp.
  pose proof (load_children_same rest_bases (state_dict saved) strict l
                (λ _ _, eq_refl) s1) as Hrb.
  pose proof (λ k, load_children_state (state_dict saved) strict l s1 k Hch) as Hcs.
  pose proof (load_children_ok (state_dict saved) strict l s1 Hch) as Hc.
  destruct (load_children (state_dict saved) strict l s1) as [s2 r] eqn:Hrun.
  unfold same in Hgp, Hrb. cbn [fst snd] in *. subst r.
  rewrite (bind_ok _ _ _ _ _ Hrun) in Hok |- *. cbv zeta in Hok |- *.
  cbn [andb] in Hok |- *.
  destruct (negb strict || _); [|done].
  exists s2. split; [done|].
  assert (Hchild : child_state s2 = child_state saved).
  { apply map_eq. intros k. rewrite Hcs.
    destruct (decide (k ∈ l.*1)) as [Hin|Hin].
    - apply list_elem_of_fmap in Hin as ([k' cur] & -> & Hin). cbn [fst].
      apply elem_of_map_to_list in Hin.
      apply state_dict_other. eapply child_keys_other; [done|].
      destruct Hsame as [_ Hsh]. specialize (Hsh k').
      change (child_state mid) with (child_state live) in Hin. rewrite Hin in Hsh.
      by destruct (child_state saved !! k').
    - change (child_state s1) with (child_state live).
      destruct (child_state live !! k) as [cur|] eqn:E.
      + exfalso. apply Hin. apply list_elem_of_fmap. exists (k, cur).
        split; [done|]. by apply elem_of_map_to_list.
      + destruct Hsame as [_ Hsh]. specialize (Hsh k). rewrite E in Hsh.
        by destruct (child_state saved !! k). }
  unfold state_dict. rewrite Hgp, Hrb, Hchild.
  change (gauss_params s1) with (gauss_params saved).
  change (rest_bases s1) with (rest_bases live).
  by rewrite (proj1 Hsame).
Qed.
End Loading.

Section LoadingRuns.
Import Binary32 Offscreen Examples Runs.

(** The old format of the checkpoint of three primitives. *)
Lemma legacy_checkpoint_witness :
  (∃ s', load_state_dict (legacy_dict saved_model) false live_model
         = (s', Ok (remapped saved_model))
         ∧ gauss_params s' = store3)
  ∧ (∃ s', load_state_dict (legacy_dict saved_model) true live_model
           = (s', Raise RuntimeError)
           ∧ gauss_params s' = store3).
Proof.
  apply (legacy_checkpoint saved_model live_model).
  - split; [by repeat split|]. by repeat constructor.
  - by repeat constructor.
  - by split.
Defined.

(** The empty dict. *)
Lemma load_state_dict_missing_key_witness :
  load_state_dict ∅ true live_model = (set_step 30000 live_model, Raise KeyError).
Proof. apply (load_state_dict_missing_key ∅ true live_model). by left. Defined.

(** A checkpoint without further bases into a model with fifteen. *)
Lemma load_state_dict_other_degree_witness :
  ∃ s',
    load_state_dict (state_dict saved_model) true wide_model = (s', Raise RuntimeError)
    ∧ features_rest (gauss_params s') = replicate 3 (replicate 15 zero3)
    ∧ means (gauss_params s') = means store3.
Proof.
  destruct (load_state_dict_other_degree saved_model wide_model true)
    as (s' & Hrun & Hg & _).
  - split; [by repeat split|]. by repeat constructor.
  - split; [reflexivity|]. by repeat constructor.
  - by vm_compute.
  - exists s'. split; [exact Hrun|]. by rewrite Hg.
Defined.

(** The buffer of the child module comes back with the six tensors. *)
Lemma state_dict_round_trip_witness :
  ∃ s',
    load_state_dict (state_dict saved_module) true live_module
    = (s', Ok (state_dict saved_module))
    ∧ state_dict s' = state_dict saved_module.
Proof.
  apply (state_dict_round_trip saved_module live_module true).
  - split; [by repeat split|]. by repeat constructor.
  - split; [reflexivity|]. by repeat constructor.
  - split; [reflexivity|]. intros k. unfold saved_module, live_module, with_buffer.
    cbn [child_state set_child_state].
    destruct (decide (k = "lpips.scale"%string)) as [->|Hne].
    + by rewrite !lookup_singleton_eq.
    + by rewrite !lookup_singleton_ne.
Defined.
End LoadingRuns.


(** ** The loss *)

Section Loss.
Context {F : Type} `{!Scalar F} `{!Env F}.



Lemma _downscale_if_required_full (a : image F) (s : Model F) :
  full_resolution s → _downscale_if_required a s = (s, Ok a).
Proof.
  intros [Ht|[Hr Hq]]; unfold _downscale_if_required, _get_downscale_factor.
  - by rewrite bind_assoc, bind_get, Ht, bind_ret.
  - rewrite bind_assoc, bind_get. destruct (training s); [|by rewrite bind_ret].
    unfold py_floordiv. apply Z.eqb_neq in Hr. rewrite Hr.
    rewrite bind_assoc, !bind_ret.
    by rewrite Z.max_r by lia.
Qed.


(** X26.  At full resolution, a mask whose height or width is not that of
    the image and of the render makes [get_loss_dict] raise
    [AssertionError], with the model as it was. *)
Theorem get_loss_dict_mask_mismatch (s : Model F) (outputs : Outputs)
    (px mask : image F) :
  full_resolution s → img_channels px ≠ 4%nat →
  ¬ (length mask = length px ∧ img_width mask = img_width px
     ∧ length px = length (rgb outputs)
     ∧ img_width px = img_width (rgb outputs)) →
  get_loss_dict outputs (mkBatch (F32 px) (Some mask)) s = (s, Raise AssertionError).
Proof.
  intros Ht Hch Hne.
  unfold get_loss_dict, loss_images, get_gt_img. cbn [batch_image batch_mask].
  rewrite !bind_assoc.
  rewrite (bind_ok _ _ _ _ _ (_downscale_if_required_full px s Ht)).
  unfold composite_with_background. rewrite decide_False by done.
  rewrite !bind_assoc.
  rewrite (bind_ok _ _ _ _ _ (_downscale_if_required_full mask s Ht)).
  by rewrite bool_decide_eq_false_2.
Qed.
End Loss.

Section LossRuns.
Import Binary32 Offscreen Examples Runs.


(** A mask of one pixel for an image of two. *)
Lemma get_loss_dict_mask_mismatch_witness :
  get_loss_dict render2
    (mkBatch (F32 [[[f 1; f 0; f 0]; [f 1; f 1; f 1]]]) (Some [[[f 1]]]))
    saved_model
  = (saved_model, Raise AssertionError).
Proof.
  apply get_loss_dict_mask_mismatch.
  - right. by vm_compute.
  - by vm_compute.
  - intros (_ & Hw & _). by vm_compute in Hw.
Defined.
End LossRuns.


(** ** The construction of the model *)

Section Populate.
Context {F : Type} `{!Scalar F} `{!Env F} `{!Library F}.

Lemma length_rand3 pos n : length (rand3 pos n) = n.
Proof. unfold rand3. by rewrite length_map, length_seq. Qed.

Lemma length_random_quats pos n : length (random_quats pos n) = n.
Proof. unfold random_quats. by rewrite length_map, length_seq. Qed.

Lemma length_box_points box pos n : length (box_points box pos n) = n.
Proof.
  unfold box_points. destruct box as [mn mx].
  by rewrite length_map, length_rand3.
Qed.

Lemma draws_run (k pos : nat) {B} (c : nat → M nat B) :
  (draws k ≫= c) pos = c pos (pos + k)%nat.
Proof. unfold draws. by rewrite !bind_assoc, bind_get, bind_assoc, bind_modify, bind_ret. Qed.

Lemma random_quat_tensor_run (N pos : nat) {B} (c : list (quat F) → M nat B) :
  (random_quat_tensor N ≫= c) pos = c (random_quats pos N) (pos + 3 * N)%nat.
Proof. unfold random_quat_tensor. by rewrite bind_assoc, draws_run, bind_ret. Qed.

Lemma k_nearest_sklearn_run (x : list (vec3 F)) (k : nat) d idx :
  kneighbors (k + 1) x = Ok (d, idx) →
  k_nearest_sklearn x k
  = Ok (map (drop 1) d, map (λ r, map (λ i, F_of_Z (Z.of_nat i)) (drop 1 r)) idx).
Proof. intros Hk. unfold k_nearest_sklearn. by rewrite Hk. Qed.

(** X27.  From seed points that come with one colour each, or with no
    colours at all, and without [random_init], the construction returns a
    well-formed store at step 0 with no statistics: the means are the seed
    points, every primitive is isotropic, its three log-scales being the
    log of the mean of the distances the search returns after the first
    (the point itself), and every opacity is [logit (0.1 * 1)].  It needs
    [num_sh_bases] to be positive and the neighbour search to answer with
    one row per point. *)
Theorem populate_modules_seeded (num_train_data : Z) (c : Config.t F)
    (points colors : list (vec3 F)) (aabb : option (vec3 F * vec3 F))
    (d : list (list F)) (idx : list (list nat)) (pos : nat) :
  Config.random_init c = false →
  colors = [] ∨ length colors = length points →
  1 ≤ num_sh_bases (Config.sh_degree c) →
  kneighbors 4 points = Ok (d, idx) → length d = length points →
  ∃ s pos',
    populate_modules num_train_data c (Some (points, colors)) aabb pos = (pos', Ok s)
    ∧ means (gauss_params s) = points
    ∧ store_wf s
    ∧ scales (gauss_params s)
      = map (λ r, let a := Flog (tmean (drop 1 r)) in (a, a, a)) d
    ∧ opacities (gauss_params s) = replicate (length points) initial_opacity
    ∧ step s = 0 ∧ xys_grad_norm s = None ∧ max_2Dsize s = None.
Proof.
  intros Hri Hcol Hsh Hk Hd.
  unfold populate_modules, seeds_used. rewrite Hri.
  rewrite bind_ret.
  rewrite (k_nearest_sklearn_run _ 3 _ _ Hk), bind_lift_ok.
  rewrite random_quat_tensor_run.
  assert (Hlt : (num_sh_bases (Config.sh_degree c) - 1 <? 0) = false)
    by (apply Z.ltb_ge; lia).
  match goal with
  | |- ∃ s pos', (?m ≫= ?k) ?p = _ ∧ _ =>
      assert (Hfeat : ∃ dc fr p',
                m p = (p', Ok (dc, fr))
                ∧ length dc = length points ∧ length fr = length points
                ∧ Forall (λ r : list (vec3 F), length r
                            = Z.to_nat (num_sh_bases (Config.sh_degree c) - 1)) fr)
  end.
  { destruct colors as [|col colors].
    - rewrite draws_run, Hlt. eexists _, _, _. split; [reflexivity|].
      rewrite length_rand3, length_replicate. split; [done|]. split; [done|].
      apply Forall_replicate. by rewrite length_replicate.
    - destruct Hcol as [?|Hcol]; [done|].
      assert (Hz : (num_sh_bases (Config.sh_degree c) <? 0) = false)
        by (apply Z.ltb_ge; lia).
      assert (Hnz : (num_sh_bases (Config.sh_degree c) =? 0) = false)
        by (apply Z.eqb_neq; lia).
      rewrite Hz, Hnz. eexists _, _, _. split; [reflexivity|].
      split; [by destruct (0 <? Config.sh_degree c); rewrite length_map|].
      split; [by rewrite length_map|].
      apply Forall_map, Forall_forall. intros; by rewrite length_replicate. }
  destruct Hfeat as (dc & fr & p' & Hfeat & Hdc & Hfr & Hrows).
  rewrite (bind_ok _ _ _ _ _ Hfeat), bind_get.
  eexists _, _. split; [reflexivity|]. cbn.
  split; [done|]. split.
  - split; [|done]. unfold num_points, aligned. cbn.
    rewrite !length_map, length_random_quats, length_replicate. by rewrite Hd, Hdc, Hfr.
  - split; [|done]. rewrite !map_map. by apply map_ext.
Qed.

(** X28.  The number of colours is not compared with the number of seed
    points: with colours for more or for fewer points the construction
    still returns, and the store it returns is not aligned, the colour
    tensors having one row per colour. *)
Theorem populate_modules_colour_count (num_train_data : Z) (c : Config.t F)
    (points colors : list (vec3 F)) (aabb : option (vec3 F * vec3 F))
    (d : list (list F)) (idx : list (list nat)) (pos : nat) :
  Config.random_init c = false →
  colors ≠ [] → length colors ≠ length points →
  1 ≤ num_sh_bases (Config.sh_degree c) →
  kneighbors 4 points = Ok (d, idx) →
  ∃ s pos',
    populate_modules num_train_data c (Some (points, colors)) aabb pos = (pos', Ok s)
    ∧ num_points s = length points
    ∧ length (features_dc (gauss_params s)) = length colors
    ∧ length (features_rest (gauss_params s)) = length colors
    ∧ ¬ store_wf s.
Proof.
  intros Hri Hcol Hne Hsh Hk.
  unfold populate_modules, seeds_used. rewrite Hri.
  rewrite bind_ret.
  rewrite (k_nearest_sklearn_run _ 3 _ _ Hk), bind_lift_ok.
  rewrite random_quat_tensor_run.
  destruct colors as [|col colors]; [done|].
  assert (Hz : (num_sh_bases (Config.sh_degree c) <? 0) = false)
    by (apply Z.ltb_ge; lia).
  assert (Hnz : (num_sh_bases (Config.sh_degree c) =? 0) = false)
    by (apply Z.eqb_neq; lia).
  rewrite Hz, Hnz, bind_ret, bind_get.
  eexists _, _. split; [reflexivity|]. cbn [gauss_params features_dc features_rest].
  split; [done|].
  split; [by destruct (0 <? Config.sh_degree c); rewrite length_map|].
  split; [by rewrite length_map|].
  intros [(_ & _ & _ & _ & Hfr & _) _]. revert Hfr.
  unfold num_points. cbn [gauss_params features_rest means].
  by rewrite length_map.
Qed.

(** X29.  Without seed points, or with [random_init], the construction
    needs the scene box: with no [aabb] it raises [AssertionError] before
    anything is drawn. *)
Theorem populate_modules_needs_box (num_train_data : Z) (c : Config.t F)
    (seed_points : option (list (vec3 F) * list (vec3 F))) (pos : nat) :
  seed_points = None ∨ Config.random_init c = true →
  populate_modules num_train_data c seed_points None pos = (pos, Raise AssertionError).
Proof.
  intros Hno. unfold populate_modules.
  assert (Hs : seeds_used c seed_points = None).
  { unfold seeds_used. destruct Hno as [->| ->]; [done|]. by destruct seed_points. }
  by rewrite Hs.
Qed.

(** X30.  With [random_init] the seed points and their colours are not
    used: [num_random] means are computed from draws and the scene box,
    as many colours are drawn, nine draws for each primitive in all, and
    the store is well formed.  It needs [num_random] not to be negative,
    [num_sh_bases] to be positive and the neighbour search to answer with
    one row per point. *)
Theorem populate_modules_random (num_train_data : Z) (c : Config.t F)
    (seed_points : option (list (vec3 F) * list (vec3 F)))
    (box : vec3 F * vec3 F) (d : list (list F)) (idx : list (list nat))
    (pos : nat) :
  let n := Z.to_nat (Config.num_random c) in
  seed_points = None ∨ Config.random_init c = true →
  0 ≤ Config.num_random c →
  1 ≤ num_sh_bases (Config.sh_degree c) →
  kneighbors 4 (box_points box pos n) = Ok (d, idx) → length d = n →
  ∃ s,
    populate_modules num_train_data c seed_points (Some box) pos
    = ((pos + 9 * n)%nat, Ok s)
    ∧ means (gauss_params s) = box_points box pos n
    ∧ features_dc (gauss_params s) = rand3 (pos + 6 * n) n
    ∧ store_wf s
    ∧ rng s = (pos + 9 * n)%nat.
Proof.
  intros n Hno Hnr Hsh Hk Hd. unfold populate_modules.
  assert (Hs : seeds_used c seed_points = None).
  { unfold seeds_used. destruct Hno as [->| ->]; [done|]. by destruct seed_points. }
  rewrite Hs.
  assert (Hneg : (Config.num_random c <? 0) = false) by (apply Z.ltb_ge; lia).
  rewrite Hneg. fold n.
  rewrite bind_assoc, draws_run, bind_ret.
  rewrite (k_nearest_sklearn_run _ 3 _ _ Hk), bind_lift_ok.
  rewrite random_quat_tensor_run, length_box_points.
  assert (Hlt : (num_sh_bases (Config.sh_degree c) - 1 <? 0) = false)
    by (apply Z.ltb_ge; lia).
  rewrite bind_assoc, draws_run, Hlt, bind_ret, bind_get.
  replace (pos + 3 * n + 3 * n + 3 * n)%nat with (pos + 9 * n)%nat by lia.
  eexists. split; [reflexivity|]. cbn.
  split; [done|]. split; [f_equal; lia|]. split; [|done].
  split.
  - unfold num_points, aligned. cbn.
    rewrite !length_map, length_random_quats, length_rand3, !length_replicate,
      length_box_points.
    by rewrite Hd.
  - cbn. apply Forall_replicate. by rewrite length_replicate.
Qed.
End Populate.

Section PopulateRuns.
Import Binary32 Offscreen Library32 Examples Runs.

(** Four seed points with a colour each, at the defaults. *)
Lemma populate_modules_seeded_witness :
  ∃ s pos',
    populate_modules 21 cfg (Some (points4, colors4)) None 0%nat = (pos', Ok s)
    ∧ means (gauss_params s) = points4 ∧ store_wf s.
Proof.
  destruct (populate_modules_seeded 21 cfg points4 colors4 None
              (neighbours points4).1 (neighbours points4).2 0%nat)
    as (s & pos' & Hrun & Hm & Hwf & _);
    [reflexivity|by right|by vm_compute|by vm_compute|reflexivity|].
  by exists s, pos'.
Defined.

(** Four seed points with two colours. *)
Lemma populate_modules_colour_count_witness :
  ∃ s pos',
    populate_modules 21 cfg (Some (points4, take 2 colors4)) None 0%nat = (pos', Ok s)
    ∧ num_points s = 4%nat
    ∧ length (features_dc (gauss_params s)) = 2%nat.
Proof.
  destruct (populate_modules_colour_count 21 cfg points4 (take 2 colors4) None
              (neighbours points4).1 (neighbours points4).2 0%nat)
    as (s & pos' & Hrun & Hn & Hdc & _);
    [reflexivity|done|by vm_compute|by vm_compute|by vm_compute|].
  by exists s, pos'.
Defined.

(** Neither seed points nor a box. *)
Lemma populate_modules_needs_box_witness :
  populate_modules 21 cfg None None 0%nat = (0%nat, Raise AssertionError).
Proof. apply populate_modules_needs_box. by left. Defined.

(** Five random primitives in the unit box; the seed points are given and
    not used. *)
Lemma populate_modules_random_witness :
  ∃ s,
    populate_modules 21 random_cfg (Some (points4, colors4)) (Some unit_box) 0%nat
    = (45%nat, Ok s)
    ∧ num_points s = 5%nat ∧ store_wf s.
Proof.
  destruct (populate_modules_random 21 random_cfg (Some (points4, colors4))
              unit_box (neighbours (box_points unit_box 0 5)).1
              (neighbours (box_points unit_box 0 5)).2 0%nat)
    as (s & Hrun & Hm & _ & Hwf & _);
    [by right|by vm_compute|by vm_compute|by vm_compute|reflexivity|].
  exists s. split; [exact Hrun|]. split; [|exact Hwf].
  unfold num_points. by rewrite Hm.
Defined.
End PopulateRuns.
